(** * ai-cloud-threat-hunter: the detection engine, embedded and verified

    Source: [src/ai_cloud_threat_hunter.py].  The development embeds the
    classes [EWMA], [Alert], [Stats] and [ThreatHunter] of the script and
    proves the properties of the engine: windowed counters, the adaptive
    rate model, the rule layer and the report.

    Python's [float] is kept abstract behind the class [PyFloat], which lists
    the operations the script applies to floats.  Two instances are given:
    - [R_PyFloat]: the real numbers, the idealisation in which the
      theorems on magnitudes are proved;
    - [B64_PyFloat]: IEEE 754 binary64 (Rocq's primitive floats), which is
      what CPython computes with, used to run the engine on the scenarios
      of the specification and to settle what only exists in floating
      point: the guard of [zscore], NaN, and the score of the rate rule.
    What decides whether an alert is raised is stated for every instance:
    the reals and binary64 can part on a comparison at its boundary.

    The clock is an input: every method that reads [time.time()] or
    [datetime.utcnow()] takes the reading as an argument. *)

From Stdlib Require Import ZArith Reals Lra Lia Floats String Ascii.
From stdpp Require Import gmap strings list fin_maps pretty sorting.

Local Open Scope Z_scope.

(** ** Python floats *)

(** The operations of the script on floats.  [of_int n] is [float(n)];
    [fsqr x] is [x ** 2], which CPython computes with the [pow] of the C
    library and which IEEE 754 does not fix to the last bit;
    [flt x y] is [x < y]; [fsign x] is the sign bit; [round_half_even k x]
    is the integer nearest to [|x| * k], ties to even, on the exact value of
    [x] ([None] when [x] is not finite), from which [round(x, 2)] and the
    [.nf] formats are built; [of_ratio s n d] is the float nearest to the
    fraction [n / d], negated when [s]; [fspecial] prints the non-finite
    floats. *)
Class PyFloat (F : Type) := {
  of_int : Z -> F;
  fadd : F -> F -> F;
  fsub : F -> F -> F;
  fmul : F -> F -> F;
  fdiv : F -> F -> F;
  fsqr : F -> F;
  fsqrt : F -> F;
  flt : F -> F -> bool;
  fsign : F -> bool;
  round_half_even : Z -> F -> option N;
  of_ratio : bool -> N -> positive -> F;
  fspecial : F -> string
}.

Declare Scope pyfloat_scope.
Delimit Scope pyfloat_scope with pf.
Infix "+^" := fadd (at level 50, left associativity) : pyfloat_scope.
Infix "-^" := fsub (at level 50, left associativity) : pyfloat_scope.
Infix "*^" := fmul (at level 40, left associativity) : pyfloat_scope.
Infix "/^" := fdiv (at level 40, left associativity) : pyfloat_scope.
Infix "<^" := flt (at level 70, no associativity) : pyfloat_scope.
Notation "x >^ y" := (flt y x) (at level 70, no associativity) : pyfloat_scope.

Module Py.
Section Builtins.
Context {F : Type} `{PyFloat F}.
Local Open Scope pyfloat_scope.

(** A decimal literal [n / d] with [d] a power of ten: Python reads it as
    the float nearest to the fraction, which is what one correctly rounded
    division of two exactly represented integers gives. *)
Definition lit (n d : Z) : F := of_int n /^ of_int d.

(** [max(a, b)] and [min(a, b)] on two arguments: the first one is
    kept unless the second compares strictly beyond it. *)
Definition max (a b : F) : F := if b >^ a then b else a.
Definition min (a b : F) : F := if b <^ a then b else a.

(** [round(x, 2)]: the float nearest to the two-decimal number nearest
    to [x] (ties to even); a non-finite [x] is returned as it is, and a
    result of zero keeps the sign of [x]. *)
Definition round2 (x : F) : F :=
  match round_half_even 100 x with
  | None => x
  | Some n => of_ratio (fsign x) n 100
  end.

(** [n] zeros. *)
Fixpoint zeros (n : nat) : string :=
  match n with
  | O => ""
  | S n' => String "0" (zeros n')
  end.

(** The digits [s] on at least [w] places, zeros to the left: as many
    zeros as [s] is short of [w]. *)
Definition zfill (w : nat) (s : string) : string :=
  (zeros (w - String.length s) +:+ s)%string.

(** [format(x, '.<nd>f')]. *)
Definition fmt_f (nd : nat) (x : F) : string :=
  match round_half_even (10 ^ Z.of_nat nd) x with
  | None => fspecial x
  | Some n =>
      let a := Z.of_N n in
      ((if fsign x then "-" else "") +:+ pretty (a / 10 ^ Z.of_nat nd)
         +:+ (if (nd =? 0)%nat then "" else "." +:+ zfill nd (pretty (a mod 10 ^ Z.of_nat nd))))%string
  end.
End Builtins.
End Py.

(** *** The reals *)

Module RFloat.
Local Open Scope R_scope.

Definition ltb (x y : R) : bool := if Rlt_dec x y then true else false.

(** The integer nearest to [y], ties to even. *)
Definition nearest_even (y : R) : Z :=
  let n := Int_part y in
  let d := y - IZR n in
  if Rlt_dec d (1/2) then n
  else if Rlt_dec (1/2) d then (n + 1)%Z
  else if Z.even n then n else (n + 1)%Z.

Definition round_half_even (k : Z) (x : R) : option N :=
  Some (Z.to_N (nearest_even (Rabs x * IZR k))).

Definition of_ratio (s : bool) (n : N) (d : positive) : R :=
  if s then - (IZR (Z.of_N n) / IZR (Z.pos d)) else IZR (Z.of_N n) / IZR (Z.pos d).
End RFloat.

#[export] Instance R_PyFloat : PyFloat R := {|
  of_int := IZR;
  fadd := Rplus;
  fsub := Rminus;
  fmul := Rmult;
  fdiv := Rdiv;
  fsqr x := Rmult x x;
  fsqrt := R_sqrt.sqrt;
  flt := RFloat.ltb;
  fsign x := RFloat.ltb x 0%R;
  round_half_even := RFloat.round_half_even;
  of_ratio := RFloat.of_ratio;
  fspecial _ := ""%string
|}.

(** *** IEEE 754 binary64 *)

Module B64.
(** [float(n)]: the binary64 nearest to the integer [n]. *)
Definition of_int (n : Z) : float := SF2Prim (binary_normalize prec emax n 0 false).

(** The integer nearest to [m * 2^e * k], ties to even. *)
Definition nearest_even (m : positive) (e : Z) (k : Z) : Z :=
  let num := Z.pos m * k in
  if 0 <=? e then num * 2 ^ e
  else
    let den := 2 ^ (- e) in
    let q := num / den in
    match (2 * (num mod den)) ?= den with
    | Lt => q
    | Gt => q + 1
    | Eq => if Z.even q then q else q + 1
    end.

Definition round_half_even (k : Z) (x : float) : option N :=
  match Prim2SF x with
  | S754_zero _ => Some 0%N
  | S754_finite _ m e => Some (Z.to_N (nearest_even m e k))
  | _ => None
  end.

Definition sign (x : float) : bool :=
  match Prim2SF x with
  | S754_zero s | S754_infinity s | S754_finite s _ _ => s
  | S754_nan => false
  end.

(** The binary64 nearest to the fraction [n / d], with sign [s]: the
    specification of the division, applied to the two integers. *)
Definition of_ratio (s : bool) (n : N) (d : positive) : float :=
  match n with
  | N0 => SF2Prim (S754_zero s)
  | Npos p => SF2Prim (SFdiv prec emax (S754_finite s p 0) (S754_finite false d 0))
  end.

Definition special (x : float) : string :=
  match Prim2SF x with
  | S754_nan => "nan"
  | S754_infinity true => "-inf"
  | _ => "inf"
  end.
End B64.

(** [fsqr] is the correctly rounded square, which is what a [pow] that is
    exact on squares returns.  A C library whose [pow] is one unit in the
    last place off on some squares is another instance of [PyFloat]: what is
    proved for every instance holds for it as it stands. *)
#[export] Instance B64_PyFloat : PyFloat float := {|
  of_int := B64.of_int;
  fadd := PrimFloat.add;
  fsub := PrimFloat.sub;
  fmul := PrimFloat.mul;
  fdiv := PrimFloat.div;
  fsqr x := PrimFloat.mul x x;
  fsqrt := PrimFloat.sqrt;
  flt := PrimFloat.ltb;
  fsign := B64.sign;
  round_half_even := B64.round_half_even;
  of_ratio := B64.of_ratio;
  fspecial := B64.special
|}.

(** A specification float above zero. *)
Definition SFpositive (x : spec_float) : Prop :=
  SFltb (S754_zero false) x = true.

(** ** Detection and scoring *)

(** The suspicious substrings of request paths. *)
Definition SUSPICIOUS_PATHS : list string :=
  ["/wp-login.php"; "/wp-admin"; "/admin"; "/phpmyadmin"; "/.env"; "/config.php";
   "/.git"; "/.DS_Store"; "/server-status"; "/actuator"; "/jenkins";
   "/boaform/admin/formLogin"]%string.

(** [susp in path] on strings: [susp] occurs in [path]. *)
Fixpoint str_in (susp path : string) : bool :=
  String.prefix susp path
  || match path with
     | EmptyString => false
     | String _ rest => str_in susp rest
     end.

(** [any(susp in path for susp in SUSPICIOUS_PATHS)] *)
Definition is_suspicious (path : string) : bool :=
  existsb (fun susp => str_in susp path) SUSPICIOUS_PATHS.

(** The truth value of an [Optional[str]]: [None] and the empty string
    are false. *)
Definition truthy (o : option string) : bool :=
  match o with
  | Some s => negb (String.eqb s "")
  | None => false
  end.

(** [o == s] for an [Optional[str]] and a string. *)
Definition opt_eqb (o : option string) (s : string) : bool :=
  match o with
  | Some x => String.eqb x s
  | None => false
  end.

(** The string of an [Optional[str]] that tested true, as a dictionary
    key. *)
Definition key_of (o : option string) : string := default ""%string o.

(** A parsed line, the dictionary [ingest_event] receives.  [ev_type] is
    [ev['type']]; the other fields are what [ev.get] returns, [None] when
    the key is missing or bound to [None]. *)
Record Event := {
  ev_type : string;
  ev_ip : option string;
  ev_path : option string;
  ev_status : option string;
  ev_event : option string
}.

(** A dictionary whose order of insertion is observed ([per_ip_count],
    which the report sorts stably): [d[k] += 1] on a [defaultdict(int)]. *)
Fixpoint dict_incr (k : string) (d : list (string * Z)) : list (string * Z) :=
  match d with
  | [] => [(k, 0 + 1)]
  | (k', v) :: d' => if String.eqb k k' then (k', v + 1) :: d' else (k', v) :: dict_incr k d'
  end.

Fixpoint dict_get (k : string) (d : list (string * Z)) : option Z :=
  match d with
  | [] => None
  | (k', v) :: d' => if String.eqb k k' then Some v else dict_get k d'
  end.

(** [append] on a [deque(maxlen=n)]: a full deque drops its oldest entry. *)
Definition deque_append {A} (maxlen : nat) (dq : list A) (a : A) : list A :=
  if (maxlen <=? length dq)%nat then drop (S (length dq) - maxlen) (dq ++ [a]) else dq ++ [a].

(** [sorted(items, key=lambda kv: kv[1], reverse=True)]: a stable sort,
    largest count first, equal counts in their order in [items]. *)
Fixpoint insert_desc (x : string * Z) (l : list (string * Z)) : list (string * Z) :=
  match l with
  | [] => [x]
  | y :: l' => if y.2 <=? x.2 then x :: l else y :: insert_desc x l'
  end.

Definition sorted_desc (items : list (string * Z)) : list (string * Z) :=
  foldr insert_desc [] items.

Section Engine.
Context {F : Type} `{PyFloat F}.
Local Open Scope pyfloat_scope.

(** *** class EWMA *)

Record EWMA := {
  alpha : F;
  mean : F;
  var : F;
  initialized : bool
}.

(** [EWMA(alpha=a)]: the other fields take their defaults. *)
Definition EWMA_new (a : F) : EWMA :=
  {| alpha := a; mean := of_int 0; var := of_int 1; initialized := false |}.

Definition EWMA_update (self : EWMA) (x : F) : EWMA :=
  if negb (initialized self) then
    {| alpha := alpha self; mean := x; var := of_int 1; initialized := true |}
  else
    let prev := mean self in
    {| alpha := alpha self;
       mean := alpha self *^ x +^ (of_int 1 -^ alpha self) *^ mean self;
       var := alpha self *^ fsqr (x -^ prev) +^ (of_int 1 -^ alpha self) *^ var self;
       initialized := true |}.

(** The standard deviation [zscore] divides by. *)
Definition EWMA_std (self : EWMA) : F :=
  fsqrt (Py.max (var self) (Py.lit 1 1000000)).

Definition EWMA_zscore (self : EWMA) (x : F) : F :=
  let std := EWMA_std self in
  if std >^ of_int 0 then (x -^ mean self) /^ std else of_int 0.

(** *** class Alert, class Stats *)

Record Alert := {
  ts : string;
  severity : string;
  kind : string;
  ip : option string;
  detail : string;
  score : F
}.

Record Stats := {
  total_lines : Z;
  total_events : Z;
  total_alerts : Z;
  per_ip_count : list (string * Z);
  last_alerts : list Alert
}.

Definition Stats_new : Stats :=
  {| total_lines := 0; total_events := 0; total_alerts := 0;
     per_ip_count := []; last_alerts := [] |}.

(** *** class ThreatHunter *)

Record ThreatHunter := {
  window : Z;
  threshold : Z;
  ewma_alpha : F;
  stats : Stats;
  events_by_ip : gmap string (list F);
  failed_logins_by_ip : gmap string (list F);
  status_by_ip : gmap string (gmap string (list F));
  rate_model : gmap string EWMA;
  _stop : bool
}.

Definition ThreatHunter_new (window threshold : Z) (ewma_alpha : F) : ThreatHunter :=
  {| window := window; threshold := threshold; ewma_alpha := ewma_alpha;
     stats := Stats_new; events_by_ip := ∅; failed_logins_by_ip := ∅;
     status_by_ip := ∅; rate_model := ∅; _stop := false |}.

Definition set_stats (self : ThreatHunter) (s : Stats) : ThreatHunter :=
  {| window := window self; threshold := threshold self; ewma_alpha := ewma_alpha self;
     stats := s; events_by_ip := events_by_ip self;
     failed_logins_by_ip := failed_logins_by_ip self;
     status_by_ip := status_by_ip self; rate_model := rate_model self;
     _stop := _stop self |}.

Definition set_events_by_ip (self : ThreatHunter) (m : gmap string (list F)) : ThreatHunter :=
  {| window := window self; threshold := threshold self; ewma_alpha := ewma_alpha self;
     stats := stats self; events_by_ip := m;
     failed_logins_by_ip := failed_logins_by_ip self;
     status_by_ip := status_by_ip self; rate_model := rate_model self;
     _stop := _stop self |}.

Definition set_failed_logins_by_ip (self : ThreatHunter) (m : gmap string (list F)) : ThreatHunter :=
  {| window := window self; threshold := threshold self; ewma_alpha := ewma_alpha self;
     stats := stats self; events_by_ip := events_by_ip self;
     failed_logins_by_ip := m;
     status_by_ip := status_by_ip self; rate_model := rate_model self;
     _stop := _stop self |}.

Definition set_status_by_ip (self : ThreatHunter) (m : gmap string (gmap string (list F))) : ThreatHunter :=
  {| window := window self; threshold := threshold self; ewma_alpha := ewma_alpha self;
     stats := stats self; events_by_ip := events_by_ip self;
     failed_logins_by_ip := failed_logins_by_ip self;
     status_by_ip := m; rate_model := rate_model self;
     _stop := _stop self |}.

Definition set_rate_model (self : ThreatHunter) (m : gmap string EWMA) : ThreatHunter :=
  {| window := window self; threshold := threshold self; ewma_alpha := ewma_alpha self;
     stats := stats self; events_by_ip := events_by_ip self;
     failed_logins_by_ip := failed_logins_by_ip self;
     status_by_ip := status_by_ip self; rate_model := m;
     _stop := _stop self |}.

Definition stop (self : ThreatHunter) : ThreatHunter :=
  {| window := window self; threshold := threshold self; ewma_alpha := ewma_alpha self;
     stats := stats self; events_by_ip := events_by_ip self;
     failed_logins_by_ip := failed_logins_by_ip self;
     status_by_ip := status_by_ip self; rate_model := rate_model self;
     _stop := true |}.

(** [d[k]] on a [defaultdict]: the value under [k], the default when the
    key is new.  Every method below stores the value back under [k], which
    is where a new key enters the dictionary. *)
Definition dd_get {V} (d : gmap string V) (k : string) (dflt : V) : V :=
  default dflt (d !! k).

(** [while dq and now-dq[0]>w: dq.popleft()] *)
Fixpoint _prune_window (w : Z) (dq : list F) (now : F) : list F :=
  match dq with
  | [] => []
  | t :: dq' => if (now -^ t) >^ of_int w then _prune_window w dq' now else dq
  end.

Definition _alert (self : ThreatHunter) (utc : string)
    (severity kind : string) (ip : option string) (detail : string) (score : F) : ThreatHunter :=
  let a := {| ts := utc; severity := severity; kind := kind; ip := ip;
              detail := detail; score := Py.round2 score |} in
  let s := stats self in
  set_stats self
    {| total_lines := total_lines s; total_events := total_events s;
       total_alerts := total_alerts s + 1;
       per_ip_count := per_ip_count s;
       last_alerts := deque_append 100 (last_alerts s) a |}.

Definition _record_request (self : ThreatHunter) (ip : option string) (status : string) (now : F)
    : ThreatHunter :=
  if negb (truthy ip) then self
  else
    let ip := key_of ip in
    let dq := dd_get (events_by_ip self) ip [] in
    let dq := _prune_window (window self) (dq ++ [now]) now in
    let self := set_events_by_ip self (<[ip := dq]> (events_by_ip self)) in
    let s := stats self in
    let self := set_stats self
      {| total_lines := total_lines s; total_events := total_events s;
         total_alerts := total_alerts s;
         per_ip_count := dict_incr ip (per_ip_count s);
         last_alerts := last_alerts s |} in
    let by_status := dd_get (status_by_ip self) ip ∅ in
    let dqs := dd_get by_status status [] in
    let dqs := _prune_window (window self) (dqs ++ [now]) now in
    set_status_by_ip self (<[ip := <[status := dqs]> by_status]> (status_by_ip self)).

Definition _check_status_storm (self : ThreatHunter) (utc : string)
    (ip : option string) (status : string) (now : F) : ThreatHunter :=
  if negb (truthy ip) then self
  else
    let by_status := dd_get (status_by_ip self) (key_of ip) ∅ in
    let dq := _prune_window (window self) (dd_get by_status status []) now in
    let self :=
      set_status_by_ip self (<[key_of ip := <[status := dq]> by_status]> (status_by_ip self)) in
    let n := Z.of_nat (length dq) in
    if threshold self <=? n then
      let sev := if String.eqb status "404" then "medium" else "high" in
      _alert self utc sev (status +:+ "_storm") ip
        (pretty n +:+ " " +:+ status +:+ "s in " +:+ pretty (window self) +:+ "s")
        (of_int 7 +^ of_int (n - threshold self))
    else self.

Definition _record_failed_login (self : ThreatHunter) (ip : string) (now : F) : ThreatHunter :=
  let dq := dd_get (failed_logins_by_ip self) ip [] in
  let dq := _prune_window (window self) (dq ++ [now]) now in
  set_failed_logins_by_ip self (<[ip := dq]> (failed_logins_by_ip self)).

Definition _check_bruteforce (self : ThreatHunter) (utc : string) (ip : string) (now : F)
    : ThreatHunter :=
  let dq := _prune_window (window self) (dd_get (failed_logins_by_ip self) ip []) now in
  let self := set_failed_logins_by_ip self (<[ip := dq]> (failed_logins_by_ip self)) in
  let n := Z.of_nat (length dq) in
  if threshold self <=? n then
    _alert self utc "critical" "bruteforce" (Some ip)
      (pretty n +:+ " failed logins in " +:+ pretty (window self) +:+ "s")
      (of_int 9 +^ Py.lit 5 10 *^ of_int (n - threshold self))
  else self.

Definition _check_rate_anomaly (self : ThreatHunter) (utc : string)
    (ip : option string) (now : F) : ThreatHunter :=
  if negb (truthy ip) then self
  else
    let k := key_of ip in
    let dq := _prune_window (window self) (dd_get (events_by_ip self) k []) now in
    let self := set_events_by_ip self (<[k := dq]> (events_by_ip self)) in
    let n := Z.of_nat (length dq) in
    let rate := of_int n /^ of_int (Z.max (window self) 1) in
    let model := EWMA_update (dd_get (rate_model self) k (EWMA_new (ewma_alpha self))) rate in
    let self := set_rate_model self (<[k := model]> (rate_model self)) in
    let z := EWMA_zscore model rate in
    if (z >^ of_int 3) && (threshold self <? n) then
      _alert self utc "high" "rate_anomaly" ip
        ("z=" +:+ Py.fmt_f 2 z +:+ ", rate=" +:+ Py.fmt_f 3 rate +:+ " req/s")
        (Py.min (of_int 10) (Py.lit 75 10 +^ z))
    else self.

(** [self.stats.total_events+=1] *)
Definition incr_total_events (self : ThreatHunter) : ThreatHunter :=
  let s := stats self in
  set_stats self
    {| total_lines := total_lines s; total_events := total_events s + 1;
       total_alerts := total_alerts s; per_ip_count := per_ip_count s;
       last_alerts := last_alerts s |}.

(** The clock as one call of [ingest_event] reads it: [time_time] is
    [time.time()], read once; [utcnow k] is the ISO text of
    [datetime.utcnow()] as the [k]-th rule of the call reads it when it
    raises its alert. *)
Record Clock := {
  time_time : F;
  utcnow : nat -> string
}.

Definition ingest_event (self : ThreatHunter) (ev : Event) (clk : Clock) : ThreatHunter :=
  let self := incr_total_events self in
  let now := time_time clk in
  let ip := ev_ip ev in
  if String.eqb (ev_type ev) "nginx" then
    let path := default "" (ev_path ev) in
    let status := default "" (ev_status ev) in
    let self := _record_request self ip status now in
    let self :=
      if is_suspicious path
      then _alert self (utcnow clk 0) "medium" "suspicious_path" ip ("path=" +:+ path) (of_int 6)
      else self in
    let self :=
      if String.eqb status "403" || String.eqb status "404"
      then _check_status_storm self (utcnow clk 1) ip status now
      else self in
    _check_rate_anomaly self (utcnow clk 2) ip now
  else if String.eqb (ev_type ev) "syslog" then
    let event := ev_event ev in
    if opt_eqb event "failed_login" && truthy ip then
      _check_bruteforce (_record_failed_login self (key_of ip) now) (utcnow clk 0) (key_of ip) now
    else if opt_eqb event "accepted_login" && truthy ip then
      _record_request self ip "200" now
    else self
  else self.

(** *** The report *)

Record Totals := {
  lines_processed : Z;
  events_parsed : Z;
  alerts : Z
}.

Record Report := {
  generated_at : string;
  window_seconds : Z;
  report_threshold : Z;
  totals : Totals;
  top_ips : list (string * Z);
  recent_alerts : list Alert
}.

(** [to_report] returns the report; the engine it leaves behind is the
    second component. *)
Definition to_report (self : ThreatHunter) (utc : string) : Report * ThreatHunter :=
  let top := take 10 (sorted_desc (per_ip_count (stats self))) in
  ({| generated_at := utc;
      window_seconds := window self;
      report_threshold := threshold self;
      totals := {| lines_processed := total_lines (stats self);
                   events_parsed := total_events (stats self);
                   alerts := total_alerts (stats self) |};
      top_ips := top;
      recent_alerts := last_alerts (stats self) |},
   self).

(** The parsed events of a log, fed in order as the loop of [run] does,
    each with the clock of its call. *)
Definition feed (self : ThreatHunter) (evs : list (Event * Clock)) : ThreatHunter :=
  fold_left (fun h ec => ingest_event h ec.1 ec.2) evs self.

(** *** Notions the statements use *)

(** Between [self] and [self'] the alerts [l] were raised, in this order:
    each one counted in [total_alerts] and appended to the bounded
    history. *)
Definition emits (self self' : ThreatHunter) (l : list Alert) : Prop :=
  total_alerts (stats self') = total_alerts (stats self) + Z.of_nat (length l)
  /\ last_alerts (stats self') = fold_left (deque_append 100) l (last_alerts (stats self)).

(** The events that go through [_record_request] with an entity: requests,
    and accepted logins. *)
Definition counted_request (ev : Event) : bool :=
  truthy (ev_ip ev)
  && (String.eqb (ev_type ev) "nginx"
      || (String.eqb (ev_type ev) "syslog" && opt_eqb (ev_event ev) "accepted_login")).

(** A windowed counter on its own: the timestamps [ts] recorded one after
    the other, each append followed by the pruning at the time of the
    append, as [_record_request] and [_record_failed_login] do on a deque. *)
Definition record_all (w : Z) (ts : list F) : list F :=
  fold_left (fun dq t => _prune_window w (dq ++ [t]) t) ts [].
End Engine.

Arguments EWMA F : clear implicits.
Arguments Alert F : clear implicits.
Arguments Stats F : clear implicits.
Arguments ThreatHunter F : clear implicits.
Arguments Clock F : clear implicits.
Arguments Report F : clear implicits.

Section Notions.
Context {F : Type} `{PyFloat F}.

(** [self'] has the configuration of [self]. *)
Definition same_config (self self' : ThreatHunter F) : Prop :=
  window self' = window self /\ threshold self' = threshold self
  /\ ewma_alpha self' = ewma_alpha self.

(** [self'] has the line, event and per-entity counts of [self]. *)
Definition same_counts (self self' : ThreatHunter F) : Prop :=
  total_lines (stats self') = total_lines (stats self)
  /\ total_events (stats self') = total_events (stats self)
  /\ per_ip_count (stats self') = per_ip_count (stats self).
End Notions.

(** ** Events and engines of the scenarios *)

(** The dictionaries the two parsers build. *)
Definition nginx_event (ip : option string) (path status : string) : Event :=
  {| ev_type := "nginx"; ev_ip := ip; ev_path := Some path; ev_status := Some status;
     ev_event := None |}.

Definition syslog_event (ip : option string) (event : option string) : Event :=
  {| ev_type := "syslog"; ev_ip := ip; ev_path := None; ev_status := None;
     ev_event := event |}.

(** The failed logins of the entity [ip], one per call of [ingest_event],
    each with the clock of its call. *)
Definition failed_logins {F} (ip : string) (clks : list (Clock F)) : list (Event * Clock F) :=
  map (fun c => (syslog_event (Some ip) (Some "failed_login"%string), c)) clks.

Module Scenario.
(** A clock whose every reading of [utcnow] is [utc]. *)
Definition clock {F} (t : F) (utc : string) : Clock F :=
  {| time_time := t; utcnow := fun _ => utc |}.

(** The engine with the defaults of the command line. *)
Definition fresh {F} `{PyFloat F} : ThreatHunter F := ThreatHunter_new 300 5 (Py.lit 3 10).

(** The engine of the scenarios of the specification. *)
Definition hunter {F} `{PyFloat F} (window threshold : Z) : ThreatHunter F :=
  ThreatHunter_new window threshold (Py.lit 3 10).

(** Plain requests of [ip], one at each of [times] (whole seconds), in
    binary64. *)
Definition requests (ip : string) (times : list Z) : list (Event * Clock float) :=
  map (fun t => (nginx_event (Some ip) "/" "200",
                 clock (B64.of_int t) "2025-09-21T10:12:00")) times.

(** Two hundred requests a hundred seconds apart, then three at once. *)
Definition trickle_then_burst : list Z :=
  map (fun k => 100 * Z.of_nat k) (seq 0 200) ++ [100000; 100000; 100000].
End Scenario.

(** Comparisons of reals, as decisions. *)
#[export] Instance Rle_decision (x y : R) : Decision (x <= y)%R := Rle_dec x y.
#[export] Instance Rlt_decision (x y : R) : Decision (x < y)%R := Rlt_dec x y.
#[export] Instance Rle_transitive : Transitive Rle := Rle_trans.

Ltac case_if :=
  match goal with
  | |- context [if ?b then _ else _] => destruct b eqn:?
  end.

Ltac frame_split := repeat (split; [first [reflexivity | repeat split; fail]|]).

(** ** The loop of [run], and notions of the further properties *)

Section MoreNotions.
Context {F : Type} `{PyFloat F}.

(** The entities other than [k] have in [self'] the counters, the rate
    model and the lifetime count they have in [self]. *)
Definition other_entities_kept (k : string) (self self' : ThreatHunter F) : Prop :=
  forall k', k' <> k ->
    events_by_ip self' !! k' = events_by_ip self !! k'
    /\ status_by_ip self' !! k' = status_by_ip self !! k'
    /\ failed_logins_by_ip self' !! k' = failed_logins_by_ip self !! k'
    /\ rate_model self' !! k' = rate_model self !! k'
    /\ dict_get k' (per_ip_count (stats self')) = dict_get k' (per_ip_count (stats self)).

(** Every entity known to [self] is known to [self']: the keys of the
    counters, of the rate models and of the lifetime counts. *)
Definition entities_kept (self self' : ThreatHunter F) : Prop :=
  dom (events_by_ip self) ⊆ dom (events_by_ip self')
  /\ dom (status_by_ip self) ⊆ dom (status_by_ip self')
  /\ dom (failed_logins_by_ip self) ⊆ dom (failed_logins_by_ip self')
  /\ dom (rate_model self) ⊆ dom (rate_model self')
  /\ forall k, is_Some (dict_get k (per_ip_count (stats self)))
               -> is_Some (dict_get k (per_ip_count (stats self'))).

(** The events that go through [_record_failed_login]: failed logins with
    an entity. *)
Definition is_failed_login (ev : Event) : bool :=
  String.eqb (ev_type ev) "syslog" && opt_eqb (ev_event ev) "failed_login"
  && truthy (ev_ip ev).

(** The times at which the events of [evs] selected by [p] reached the
    entity [k], in order. *)
Definition times_of (p : Event -> bool) (k : string) (evs : list (Event * Clock F)) : list F :=
  map (fun ec => time_time ec.2)
    (List.filter (fun ec => p ec.1 && String.eqb (key_of (ev_ip ec.1)) k) evs).

(** [hunter.stats.total_lines+=1] *)
Definition incr_total_lines (self : ThreatHunter F) : ThreatHunter F :=
  let s := stats self in
  set_stats self
    {| total_lines := total_lines s + 1; total_events := total_events s;
       total_alerts := total_alerts s; per_ip_count := per_ip_count s;
       last_alerts := last_alerts s |}.

(** The two parsers are regular expressions at work; they are taken as
    they are, functions from a line to the dictionary it yields, [None] when
    the expression does not match. *)
Section Run.
Variables parse_nginx parse_syslog : string -> option Event.

(** [parse_nginx(line) or parse_syslog(line)] when the format is neither. *)
Definition parse_line (line default_fmt : string) : option Event :=
  if String.eqb default_fmt "nginx" then parse_nginx line
  else if String.eqb default_fmt "syslog" then parse_syslog line
  else match parse_nginx line with
       | Some ev => Some ev
       | None => parse_syslog line
       end.

(** The body of the loop of [run] on one line: count it, parse it, ingest
    what was parsed. *)
Definition run_line (fmt : string) (self : ThreatHunter F) (line : string) (clk : Clock F)
    : ThreatHunter F :=
  let self := incr_total_lines self in
  match parse_line line fmt with
  | Some ev => ingest_event self ev clk
  | None => self
  end.

(** The loop of [run] over the lines read before it stops, each with the
    clock of its turn. *)
Definition run_lines (fmt : string) (self : ThreatHunter F) (lines : list (string * Clock F))
    : ThreatHunter F :=
  fold_left (fun h lc => run_line fmt h lc.1 lc.2) lines self.

(** [NGINX_COMMON_LOG.search] and [SYSLOG_LINE.search], as tests. *)
Variables nginx_search syslog_search : string -> bool.

Definition autodetect_format (sample : string) : string :=
  if nginx_search sample then "nginx"
  else if syslog_search sample then "syslog"
  else "auto".

(** The format [run] settles on before its loop, from the [--format]
    argument and the first line of the file (empty when the file is). *)
Definition run_format (args_format first : string) : string :=
  let fmt := args_format in
  let fmt := if String.eqb fmt "auto" then autodetect_format first else fmt in
  let fmt := if String.eqb fmt "auto" then "nginx" else fmt in
  fmt.

(** The events the loop ingests: the lines that parse, each with the clock
    of its turn. *)
Definition parsed_events (fmt : string) (lines : list (string * Clock F))
    : list (Event * Clock F) :=
  omap (fun lc => match parse_line lc.1 fmt with
                  | Some ev => Some (ev, lc.2)
                  | None => None
                  end) lines.
End Run.
End MoreNotions.

(** The order of the report: larger counts first. *)
Definition count_ge (x y : string * Z) : Prop := y.2 <= x.2.

(** The rate models of an engine all have its smoothing factor [a] and a
    variance that is not negative, and its history holds no
    [rate_anomaly]. *)
Definition quiet (a : R) (h : ThreatHunter R) : Prop :=
  ewma_alpha h = a
  /\ (forall k m, rate_model h !! k = Some m -> alpha m = a /\ (0 <= var m)%R)
  /\ Forall (fun al => kind al <> "rate_anomaly"%string) (last_alerts (stats h)).

(** The five kinds of alert, each with its severity and its scores: [n] is
    how far the count is above the threshold. *)
Definition well_scored (a : Alert R) : Prop :=
  (kind a = "suspicious_path"%string /\ severity a = "medium"%string /\ score a = 6%R)
  \/ (kind a = "403_storm"%string /\ severity a = "high"%string
      /\ exists n : Z, 0 <= n /\ score a = (7 + IZR n)%R)
  \/ (kind a = "404_storm"%string /\ severity a = "medium"%string
      /\ exists n : Z, 0 <= n /\ score a = (7 + IZR n)%R)
  \/ (kind a = "bruteforce"%string /\ severity a = "critical"%string
      /\ exists n : Z, 0 <= n /\ score a = (9 + IZR n / 2)%R)
  \/ (kind a = "rate_anomaly"%string /\ severity a = "high"%string /\ score a = 10%R).

(** * Properties *)

(** ** Dictionaries and alerts *)

Lemma dict_get_incr (k ip : string) (d : list (string * Z)) :
  dict_get k (dict_incr ip d)
  = if String.eqb k ip then Some (default 0 (dict_get k d) + 1) else dict_get k d.
Proof.
  induction d as [|[k' v] d IH]; simpl.
  - destruct (String.eqb k ip); reflexivity.
  - destruct (String.eqb ip k') eqn:Eip; simpl.
    + apply String.eqb_eq in Eip; subst k'.
      destruct (String.eqb k ip); reflexivity.
    + rewrite IH. destruct (String.eqb k k') eqn:Ek; [|reflexivity].
      apply String.eqb_eq in Ek; subst k'.
      rewrite String.eqb_sym, Eip. reflexivity.
Qed.

Lemma truthy_Some (s : string) : s <> ""%string -> truthy (Some s) = true.
Proof.
  intros Hs. simpl. destruct (String.eqb s "") eqn:E; [|reflexivity].
  apply String.eqb_eq in E. contradiction.
Qed.

Section Frame.
Context {F : Type} `{PyFloat F}.
Implicit Types (self h g : ThreatHunter F) (ev : Event) (clk : Clock F).
Local Open Scope pyfloat_scope.

Lemma dd_get_insert_eq {V} (d : gmap string V) (k : string) (v dflt : V) :
  dd_get (<[k := v]> d) k dflt = v.
Proof. unfold dd_get. rewrite lookup_insert_eq. reflexivity. Qed.

Lemma dd_get_insert_ne {V} (d : gmap string V) (k k' : string) (v dflt : V) :
  k <> k' -> dd_get (<[k := v]> d) k' dflt = dd_get d k' dflt.
Proof. intros. unfold dd_get. rewrite lookup_insert_ne by assumption. reflexivity. Qed.

Lemma emits_nil h h' :
  total_alerts (stats h') = total_alerts (stats h) ->
  last_alerts (stats h') = last_alerts (stats h) ->
  emits h h' [].
Proof. intros Ht Hl. split; [rewrite Ht; simpl; lia | exact Hl]. Qed.

Lemma emits_app h1 h2 h3 l1 l2 :
  emits h1 h2 l1 -> emits h2 h3 l2 -> emits h1 h3 (l1 ++ l2).
Proof.
  intros [Ht1 Hl1] [Ht2 Hl2]. split.
  - rewrite Ht2, Ht1, length_app. lia.
  - rewrite Hl2, Hl1, fold_left_app. reflexivity.
Qed.

Lemma emits_alert h utc sev knd ip det sc :
  emits h (_alert h utc sev knd ip det sc)
    [{| ts := utc; severity := sev; kind := knd; ip := ip; detail := det;
        score := Py.round2 sc |}].
Proof. split; reflexivity. Qed.

Lemma same_config_refl h : same_config h h.
Proof. repeat split. Qed.

Lemma same_config_trans h1 h2 h3 : same_config h1 h2 -> same_config h2 h3 -> same_config h1 h3.
Proof. intros (A1 & A2 & A3) (B1 & B2 & B3). repeat split; congruence. Qed.

Lemma same_counts_refl h : same_counts h h.
Proof. repeat split. Qed.

Lemma same_counts_trans h1 h2 h3 : same_counts h1 h2 -> same_counts h2 h3 -> same_counts h1 h3.
Proof. intros (A1 & A2 & A3) (B1 & B2 & B3). repeat split; congruence. Qed.

(** *** Without an entity the entity-keyed methods return at once *)

Lemma record_request_none h status now : _record_request h None status now = h.
Proof. reflexivity. Qed.

Lemma check_status_storm_none h utc status now : _check_status_storm h utc None status now = h.
Proof. reflexivity. Qed.

Lemma check_rate_anomaly_none h utc now : _check_rate_anomaly h utc None now = h.
Proof. reflexivity. Qed.

Lemma record_request_falsy h ip status now :
  truthy ip = false -> _record_request h ip status now = h.
Proof. intros Hip. unfold _record_request. rewrite Hip. reflexivity. Qed.

(** *** The counts each method keeps *)

Lemma alert_counts h utc sev knd ip det sc : same_counts h (_alert h utc sev knd ip det sc).
Proof. repeat split. Qed.

Lemma check_status_storm_counts h utc ip status now :
  same_counts h (_check_status_storm h utc ip status now).
Proof. unfold _check_status_storm. repeat case_if; repeat split. Qed.

Lemma check_rate_anomaly_counts h utc ip now :
  same_counts h (_check_rate_anomaly h utc ip now).
Proof. unfold _check_rate_anomaly. repeat case_if; repeat split. Qed.

Lemma record_failed_login_counts h ip now : same_counts h (_record_failed_login h ip now).
Proof. repeat split. Qed.

Lemma check_bruteforce_counts h utc ip now : same_counts h (_check_bruteforce h utc ip now).
Proof. unfold _check_bruteforce. repeat case_if; repeat split. Qed.

Lemma record_request_counts h ip status now :
  truthy ip = true ->
  let h' := _record_request h ip status now in
  total_lines (stats h') = total_lines (stats h)
  /\ total_events (stats h') = total_events (stats h)
  /\ per_ip_count (stats h') = dict_incr (key_of ip) (per_ip_count (stats h)).
Proof. intros Hip. unfold _record_request. rewrite Hip. repeat split. Qed.

(** *** The window, whatever the floats *)

Lemma prune_window_idem (w : Z) (dq : list F) (now : F) :
  _prune_window w (_prune_window w dq now) now = _prune_window w dq now.
Proof.
  induction dq as [|t dq IH]; simpl; [reflexivity|].
  destruct ((now -^ t) >^ of_int w) eqn:E; [exact IH|].
  simpl. rewrite E. reflexivity.
Qed.

Lemma prune_window_suffix (w : Z) (dq : list F) (now : F) :
  exists k, _prune_window w dq now = drop k dq.
Proof.
  induction dq as [|t dq [k IH]]; simpl.
  - exists 0%nat. reflexivity.
  - destruct ((now -^ t) >^ of_int w).
    + exists (S k). exact IH.
    + exists 0%nat. reflexivity.
Qed.

Lemma prune_window_length (w : Z) (dq : list F) (now : F) :
  (length (_prune_window w dq now) <= length dq)%nat.
Proof.
  destruct (prune_window_suffix w dq now) as [k ->]. rewrite length_drop. lia.
Qed.
End Frame.

(** ** What each method does for an entity *)

Section Effects.
Context {F : Type} `{PyFloat F}.
Implicit Types (self h g : ThreatHunter F) (ev : Event) (clk : Clock F).
Local Open Scope pyfloat_scope.

(** What [_record_request] does for an entity. *)
Lemma record_request_effect h ip status now :
  truthy ip = true ->
  let k := key_of ip in
  let by_status := dd_get (status_by_ip h) k ∅ in
  let h' := _record_request h ip status now in
  events_by_ip h'
  = <[k := _prune_window (window h) (dd_get (events_by_ip h) k [] ++ [now]) now]> (events_by_ip h)
  /\ status_by_ip h'
     = <[k := <[status := _prune_window (window h) (dd_get by_status status [] ++ [now]) now]>
                by_status]> (status_by_ip h)
  /\ rate_model h' = rate_model h
  /\ failed_logins_by_ip h' = failed_logins_by_ip h
  /\ same_config h h'
  /\ emits h h' [].
Proof.
  intros Hip k by_status h'. subst h'. unfold _record_request. rewrite Hip.
  change (negb true) with false. cbv iota.
  frame_split. apply emits_nil; reflexivity.
Qed.

(** What the storm rule does for an entity. *)
Lemma check_status_storm_effect h utc ip status now :
  truthy ip = true ->
  let k := key_of ip in
  let by_status := dd_get (status_by_ip h) k ∅ in
  let dq := _prune_window (window h) (dd_get by_status status []) now in
  let n := Z.of_nat (length dq) in
  let h' := _check_status_storm h utc ip status now in
  status_by_ip h' = <[k := <[status := dq]> by_status]> (status_by_ip h)
  /\ events_by_ip h' = events_by_ip h
  /\ rate_model h' = rate_model h
  /\ failed_logins_by_ip h' = failed_logins_by_ip h
  /\ same_config h h'
  /\ emits h h'
       (if threshold h <=? n
        then [{| ts := utc;
                 severity := if String.eqb status "404" then "medium" else "high";
                 kind := status +:+ "_storm"; ip := ip;
                 detail := pretty n +:+ " " +:+ status +:+ "s in " +:+ pretty (window h) +:+ "s";
                 score := Py.round2 (of_int 7 +^ of_int (n - threshold h)) |}]
        else []).
Proof.
  intros Hip k by_status dq n h'. subst h'. unfold _check_status_storm. rewrite Hip.
  change (negb true) with false. cbv iota. fold k. fold by_status.
  change (window (set_status_by_ip h ?m)) with (window h).
  change (threshold (set_status_by_ip h ?m)) with (threshold h).
  fold dq. fold n.
  destruct (threshold h <=? n).
  - frame_split. split; reflexivity.
  - frame_split. apply emits_nil; reflexivity.
Qed.

(** What the rate rule does for an entity. *)
Lemma check_rate_anomaly_effect h utc ip now :
  truthy ip = true ->
  let k := key_of ip in
  let dq := _prune_window (window h) (dd_get (events_by_ip h) k []) now in
  let n := Z.of_nat (length dq) in
  let rate := of_int n /^ of_int (Z.max (window h) 1) in
  let model := EWMA_update (dd_get (rate_model h) k (EWMA_new (ewma_alpha h))) rate in
  let z := EWMA_zscore model rate in
  let h' := _check_rate_anomaly h utc ip now in
  events_by_ip h' = <[k := dq]> (events_by_ip h)
  /\ rate_model h' = <[k := model]> (rate_model h)
  /\ status_by_ip h' = status_by_ip h
  /\ failed_logins_by_ip h' = failed_logins_by_ip h
  /\ same_config h h'
  /\ emits h h'
       (if (z >^ of_int 3) && (threshold h <? n)
        then [{| ts := utc; severity := "high"; kind := "rate_anomaly"; ip := ip;
                 detail := "z=" +:+ Py.fmt_f 2 z +:+ ", rate=" +:+ Py.fmt_f 3 rate +:+ " req/s";
                 score := Py.round2 (Py.min (of_int 10) (Py.lit 75 10 +^ z)) |}]
        else []).
Proof.
  intros Hip k dq n rate model z h'. subst h'. unfold _check_rate_anomaly. rewrite Hip.
  change (negb true) with false. cbv iota. cbv zeta. fold k.
  change (window (set_events_by_ip h ?m)) with (window h).
  change (rate_model (set_events_by_ip h ?m)) with (rate_model h).
  change (ewma_alpha (set_events_by_ip h ?m)) with (ewma_alpha h).
  change (threshold (set_rate_model ?g ?m)) with (threshold g).
  change (threshold (set_events_by_ip h ?m)) with (threshold h).
  fold dq. fold n. fold rate. fold model. fold z.
  destruct ((z >^ of_int 3) && (threshold h <? n)).
  - frame_split. split; reflexivity.
  - frame_split. apply emits_nil; reflexivity.
Qed.

(** The alerts of one request of an entity, rule by rule, and the rate
    model it leaves. *)
Lemma ingest_request h ev clk :
  ev_type ev = "nginx"%string ->
  truthy (ev_ip ev) = true ->
  let k := key_of (ev_ip ev) in
  let now := time_time clk in
  let path := default ""%string (ev_path ev) in
  let status := default ""%string (ev_status ev) in
  let dqa := _prune_window (window h) (dd_get (events_by_ip h) k [] ++ [now]) now in
  let dqs := _prune_window (window h)
               (dd_get (dd_get (status_by_ip h) k ∅) status [] ++ [now]) now in
  let na := Z.of_nat (length dqa) in
  let ns := Z.of_nat (length dqs) in
  let rate := of_int na /^ of_int (Z.max (window h) 1) in
  let model := EWMA_update (dd_get (rate_model h) k (EWMA_new (ewma_alpha h))) rate in
  let z := EWMA_zscore model rate in
  let h' := ingest_event h ev clk in
  rate_model h' = <[k := model]> (rate_model h)
  /\ emits h h'
       ((if is_suspicious path
         then [{| ts := utcnow clk 0; severity := "medium"; kind := "suspicious_path";
                  ip := ev_ip ev; detail := "path=" +:+ path;
                  score := Py.round2 (of_int 6) |}]
         else [])
        ++ (if (String.eqb status "403" || String.eqb status "404") && (threshold h <=? ns)
            then [{| ts := utcnow clk 1;
                     severity := if String.eqb status "404" then "medium" else "high";
                     kind := status +:+ "_storm"; ip := ev_ip ev;
                     detail := pretty ns +:+ " " +:+ status +:+ "s in "
                               +:+ pretty (window h) +:+ "s";
                     score := Py.round2 (of_int 7 +^ of_int (ns - threshold h)) |}]
            else [])
        ++ (if (z >^ of_int 3) && (threshold h <? na)
            then [{| ts := utcnow clk 2; severity := "high"; kind := "rate_anomaly";
                     ip := ev_ip ev;
                     detail := "z=" +:+ Py.fmt_f 2 z +:+ ", rate=" +:+ Py.fmt_f 3 rate
                               +:+ " req/s";
                     score := Py.round2 (Py.min (of_int 10) (Py.lit 75 10 +^ z)) |}]
            else [])).
Proof.
  intros Hty Hip k now path status dqa dqs na ns rate model z h'.
  subst h'. unfold ingest_event. rewrite Hty.
  change (String.eqb "nginx" "nginx") with true. cbv iota. cbv zeta.
  fold now. fold path. fold status.
  set (h1 := incr_total_events h).
  set (h2 := _record_request h1 (ev_ip ev) status now).
  destruct (record_request_effect h1 (ev_ip ev) status now Hip)
    as (He2 & Hs2 & Hr2 & _ & (Hw2 & Ht2 & Ha2) & Hem2).
  fold h2 in He2, Hs2, Hr2, Hw2, Ht2, Ha2, Hem2. fold k in He2, Hs2.
  change (window h1) with (window h) in *. change (threshold h1) with (threshold h) in *.
  change (ewma_alpha h1) with (ewma_alpha h) in *.
  change (events_by_ip h1) with (events_by_ip h) in *.
  change (status_by_ip h1) with (status_by_ip h) in *.
  change (rate_model h1) with (rate_model h) in *.
  fold dqa in He2. fold dqs in Hs2.
  assert (Hem1 : emits h h2 []).
  { destruct Hem2 as [A B]. apply emits_nil; [rewrite A|rewrite B]; simpl; [lia|reflexivity]. }
  (* the suspicious path rule *)
  set (A1 := if is_suspicious path then _ else []).
  set (h3 := if is_suspicious path then _ else h2).
  assert (H3 : events_by_ip h3 = events_by_ip h2 /\ status_by_ip h3 = status_by_ip h2
               /\ rate_model h3 = rate_model h2 /\ same_config h2 h3 /\ emits h2 h3 A1).
  { subst h3 A1. destruct (is_suspicious path).
    - frame_split. apply emits_alert.
    - frame_split. apply emits_nil; reflexivity. }
  destruct H3 as (He3 & Hs3 & Hr3 & (Hw3 & Ht3 & Ha3) & Hem3).
  (* the storm rule *)
  set (A2 := if _ && (threshold h <=? ns) then _ else []).
  set (h4 := if _ || _ then _ else h3).
  assert (H4 : events_by_ip h4 = events_by_ip h3 /\ rate_model h4 = rate_model h3
               /\ same_config h3 h4 /\ emits h3 h4 A2).
  { subst h4 A2. destruct (String.eqb status "403" || String.eqb status "404").
    - destruct (check_status_storm_effect h3 (utcnow clk 1) (ev_ip ev) status now Hip)
        as (_ & He & Hr & _ & Hc & Hem).
      fold k in Hem. rewrite Hs3, Hs2, !dd_get_insert_eq, Hw3, Hw2, Ht3, Ht2 in Hem.
      assert (Hidem : _prune_window (window h) dqs now = dqs) by apply prune_window_idem.
      rewrite Hidem in Hem. fold ns in Hem.
      split; [exact He|]. split; [exact Hr|]. split; [exact Hc|]. exact Hem.
    - frame_split. apply emits_nil; reflexivity. }
  destruct H4 as (He4 & Hr4 & (Hw4 & Ht4 & Ha4) & Hem4).
  (* the rate rule *)
  destruct (check_rate_anomaly_effect h4 (utcnow clk 2) (ev_ip ev) now Hip)
    as (_ & Hr5 & _ & _ & _ & Hem5).
  fold k in Hr5, Hem5.
  rewrite He4, He3, He2, dd_get_insert_eq in Hr5, Hem5.
  rewrite Hw4, Hw3, Hw2 in Hr5, Hem5. rewrite Ht4, Ht3, Ht2 in Hem5.
  rewrite Hr4, Hr3, Hr2, Ha4, Ha3, Ha2 in Hr5, Hem5.
  assert (Hidem : _prune_window (window h) dqa now = dqa) by apply prune_window_idem.
  rewrite Hidem in Hr5, Hem5. fold na in Hr5, Hem5. fold rate in Hr5, Hem5.
  fold model in Hr5, Hem5. fold z in Hem5.
  split; [exact Hr5|].
  apply (emits_app h h3); [apply (emits_app h h2 h3 [] A1); assumption|].
  apply (emits_app h3 h4); assumption.
Qed.
(** What one failed login of an entity does. *)
Lemma ingest_failed_login h ev clk :
  ev_type ev = "syslog"%string ->
  ev_event ev = Some "failed_login"%string ->
  truthy (ev_ip ev) = true ->
  let k := key_of (ev_ip ev) in
  let now := time_time clk in
  let dq := _prune_window (window h) (dd_get (failed_logins_by_ip h) k [] ++ [now]) now in
  let n := Z.of_nat (length dq) in
  let h' := ingest_event h ev clk in
  failed_logins_by_ip h' = <[k := dq]> (failed_logins_by_ip h)
  /\ same_config h h'
  /\ emits h h'
       (if threshold h <=? n
        then [{| ts := utcnow clk 0; severity := "critical"; kind := "bruteforce";
                 ip := Some k;
                 detail := pretty n +:+ " failed logins in " +:+ pretty (window h) +:+ "s";
                 score := Py.round2 (of_int 9 +^ Py.lit 5 10 *^ of_int (n - threshold h)) |}]
        else []).
Proof.
  intros Hty Hev Hip k now dq n h'.
  assert (Hh' : h' = _check_bruteforce (_record_failed_login (incr_total_events h) k now)
                       (utcnow clk 0) k now).
  { subst h'. unfold ingest_event. rewrite Hty, Hev, Hip. reflexivity. }
  rewrite Hh'. clear Hh' h'. unfold _check_bruteforce.
  set (g := _record_failed_login (incr_total_events h) k now).
  assert (Hg : dd_get (failed_logins_by_ip g) k [] = dq).
  { subst g. unfold _record_failed_login.
    change (failed_logins_by_ip (set_failed_logins_by_ip ?a ?m)) with m.
    rewrite dd_get_insert_eq. reflexivity. }
  assert (Hidem : _prune_window (window h) dq now = dq) by apply prune_window_idem.
  rewrite Hg. change (window g) with (window h). rewrite Hidem. fold n.
  change (threshold (set_failed_logins_by_ip g (<[k:=dq]> (failed_logins_by_ip g))))
    with (threshold h).
  assert (Hfl : <[k := dq]> (failed_logins_by_ip g) = <[k := dq]> (failed_logins_by_ip h)).
  { subst g. unfold _record_failed_login.
    change (failed_logins_by_ip (set_failed_logins_by_ip ?a ?m)) with m.
    change (failed_logins_by_ip (incr_total_events h)) with (failed_logins_by_ip h).
    change (window (incr_total_events h)) with (window h). fold now. fold dq.
    apply insert_insert_eq. }
  destruct (threshold h <=? n).
  - split; [exact Hfl|]. split; [repeat split|]. split; reflexivity.
  - split; [exact Hfl|]. split; [repeat split|]. apply emits_nil; reflexivity.
Qed.
End Effects.

(** ** Events without an entity, counts, the report *)

Section Structural.
Context {F : Type} `{PyFloat F}.
Implicit Types (self h : ThreatHunter F) (ev : Event) (clk : Clock F).

(** C1 (amended).  An event whose [ip] is [None] changes no per-entity
    counter ([events_by_ip], [failed_logins_by_ip], [status_by_ip],
    [per_ip_count]) and no rate model; it adds one to [total_events].  No
    entity-keyed rule raises an alert for it; the one alert it can raise is
    [suspicious_path], with [ip = None], when it is a request whose path
    holds a suspicious substring. *)
Theorem ingest_event_without_entity h ev clk :
  ev_ip ev = None ->
  let h' := ingest_event h ev clk in
  events_by_ip h' = events_by_ip h
  /\ failed_logins_by_ip h' = failed_logins_by_ip h
  /\ status_by_ip h' = status_by_ip h
  /\ rate_model h' = rate_model h
  /\ per_ip_count (stats h') = per_ip_count (stats h)
  /\ total_lines (stats h') = total_lines (stats h)
  /\ total_events (stats h') = total_events (stats h) + 1
  /\ emits h h'
       (if String.eqb (ev_type ev) "nginx" && is_suspicious (default "" (ev_path ev))
        then [{| ts := utcnow clk 0; severity := "medium"; kind := "suspicious_path";
                 ip := None; detail := "path=" +:+ default "" (ev_path ev);
                 score := Py.round2 (of_int 6) |}]
        else []).
Proof.
  intros Hip h'. subst h'. unfold ingest_event. rewrite Hip.
  rewrite record_request_none, check_rate_anomaly_none, check_status_storm_none.
  change (truthy None) with false. rewrite !andb_false_r.
  destruct (String.eqb (ev_type ev) "nginx").
  - rewrite andb_true_l.
    assert (Hsame : forall (b : bool) (g : ThreatHunter F), (if b then g else g) = g)
      by (intros []; reflexivity).
    rewrite Hsame.
    destruct (is_suspicious _).
    + repeat (split; [reflexivity|]). split; reflexivity.
    + repeat (split; [reflexivity|]). apply emits_nil; reflexivity.
  - rewrite andb_false_l.
    destruct (String.eqb (ev_type ev) "syslog");
      (repeat (split; [reflexivity|])); apply emits_nil; reflexivity.
Qed.

(** C2 (amended).  [to_report] leaves the engine as it is, and two calls
    in a row return reports that agree on every field but [generated_at],
    which is the reading of the clock at each call. *)
Theorem to_report_read_only h utc1 utc2 :
  let r1 := (to_report h utc1).1 in
  let h1 := (to_report h utc1).2 in
  let r2 := (to_report h1 utc2).1 in
  let h2 := (to_report h1 utc2).2 in
  h1 = h /\ h2 = h
  /\ generated_at r1 = utc1 /\ generated_at r2 = utc2
  /\ window_seconds r2 = window_seconds r1
  /\ report_threshold r2 = report_threshold r1
  /\ totals r2 = totals r1
  /\ top_ips r2 = top_ips r1
  /\ recent_alerts r2 = recent_alerts r1.
Proof. cbv zeta. repeat split. Qed.

(** C3 (amended).  Every ingested event adds exactly one to
    [total_events], whatever it raises.  [per_ip_count] of the entity grows
    by exactly one when the event went through [_record_request] with an
    entity, that is for a request and for an accepted login; no other entry
    changes, and an event of any other kind changes none. *)
Theorem ingest_event_counts h ev clk :
  let h' := ingest_event h ev clk in
  total_events (stats h') = total_events (stats h) + 1
  /\ forall k,
       dict_get k (per_ip_count (stats h'))
       = if counted_request ev && String.eqb k (key_of (ev_ip ev))
         then Some (default 0 (dict_get k (per_ip_count (stats h))) + 1)
         else dict_get k (per_ip_count (stats h)).
Proof.
  intros h'. subst h'.
  set (h1 := incr_total_events h).
  assert (Hev1 : total_events (stats h1) = total_events (stats h) + 1) by reflexivity.
  assert (Hpc1 : per_ip_count (stats h1) = per_ip_count (stats h)) by reflexivity.
  unfold ingest_event, counted_request. fold h1.
  destruct (String.eqb (ev_type ev) "nginx") eqn:Hty.
  - rewrite orb_true_l, andb_true_r.
    set (h2 := _record_request h1 _ _ _).
    set (h3 := if is_suspicious _ then _ else h2).
    set (h4 := if _ || _ then _ else h3).
    assert (H43 : same_counts h3 h4).
    { subst h4. case_if; [apply check_status_storm_counts | apply same_counts_refl]. }
    assert (H32 : same_counts h2 h3).
    { subst h3. case_if; [apply alert_counts | apply same_counts_refl]. }
    destruct (same_counts_trans _ _ _ (same_counts_trans _ _ _ H32 H43)
                (check_rate_anomaly_counts h4 (utcnow clk 2) (ev_ip ev) (time_time clk)))
      as (_ & Hte & Hpc).
    rewrite Hte, Hpc. clear Hte Hpc H43 H32 h3 h4.
    destruct (truthy (ev_ip ev)) eqn:Hip.
    + destruct (record_request_counts h1 (ev_ip ev) (default "" (ev_status ev)) (time_time clk) Hip)
        as (_ & Hte & Hpc).
      fold h2 in Hte, Hpc. rewrite Hte, Hpc, Hev1, Hpc1. split; [reflexivity|].
      intros k. rewrite andb_true_l. apply dict_get_incr.
    + subst h2. rewrite record_request_falsy by assumption. split; [exact Hev1|].
      intros k. rewrite Hpc1. reflexivity.
  - rewrite orb_false_l.
    destruct (String.eqb (ev_type ev) "syslog") eqn:Hsy.
    + rewrite andb_true_l.
      destruct (opt_eqb (ev_event ev) "failed_login") eqn:Hfl.
      * assert (Hacc : opt_eqb (ev_event ev) "accepted_login" = false).
        { destruct (ev_event ev) as [e|]; [|reflexivity]. simpl in Hfl |- *.
          apply String.eqb_eq in Hfl; subst e. reflexivity. }
        rewrite Hacc, andb_false_r, andb_false_l, andb_true_l.
        destruct (truthy (ev_ip ev)).
        -- destruct (same_counts_trans _ _ _
                       (record_failed_login_counts h1 (key_of (ev_ip ev)) (time_time clk))
                       (check_bruteforce_counts _ (utcnow clk 0) (key_of (ev_ip ev)) (time_time clk)))
             as (_ & Hte & Hpc).
           rewrite Hte, Hpc, Hev1, Hpc1. split; reflexivity.
        -- split; [exact Hev1 | intros k; rewrite Hpc1; reflexivity].
      * rewrite andb_false_l.
        destruct (opt_eqb (ev_event ev) "accepted_login"); rewrite ?andb_true_l, ?andb_false_l.
        -- destruct (truthy (ev_ip ev)) eqn:Hip.
           ++ destruct (record_request_counts h1 (ev_ip ev) "200" (time_time clk) Hip)
                as (_ & Hte & Hpc).
              rewrite Hte, Hpc, Hev1, Hpc1. split; [reflexivity|].
              intros k. rewrite andb_true_l. apply dict_get_incr.
           ++ split; [exact Hev1 | intros k; rewrite Hpc1; reflexivity].
        -- rewrite andb_false_r. split; [exact Hev1 | intros k; rewrite Hpc1; reflexivity].
    + rewrite andb_false_l, andb_false_r. split; [exact Hev1 | intros k; rewrite Hpc1; reflexivity].
Qed.

(** C9 (amended).  An accepted login of an entity goes through
    [_record_request] with status [200]: it is appended to the all-requests
    counter of the entity and to its per-status counter for [200] (and
    counted in [per_ip_count]); the per-status counters of the other
    statuses, the failed-login counters and the rate models are unchanged,
    and no alert is raised. *)
Theorem ingest_accepted_login_frame h ev clk :
  ev_type ev = "syslog"%string ->
  ev_event ev = Some "accepted_login"%string ->
  truthy (ev_ip ev) = true ->
  let ip := key_of (ev_ip ev) in
  let now := time_time clk in
  let by_status := dd_get (status_by_ip h) ip ∅ in
  let h' := ingest_event h ev clk in
  events_by_ip h'
  = <[ip := _prune_window (window h) (dd_get (events_by_ip h) ip [] ++ [now]) now]> (events_by_ip h)
  /\ status_by_ip h'
     = <[ip := <["200"%string :=
                  _prune_window (window h) (dd_get by_status "200" [] ++ [now]) now]> by_status]>
         (status_by_ip h)
  /\ (forall status, status <> "200"%string ->
        dd_get (dd_get (status_by_ip h') ip ∅) status [] = dd_get by_status status [])
  /\ per_ip_count (stats h') = dict_incr ip (per_ip_count (stats h))
  /\ failed_logins_by_ip h' = failed_logins_by_ip h
  /\ rate_model h' = rate_model h
  /\ emits h h' [].
Proof.
  intros Hty Hev Hip ip now by_status h'.
  assert (Hh' : h' = _record_request (incr_total_events h) (ev_ip ev) "200" now).
  { subst h'. unfold ingest_event. rewrite Hty, Hev, Hip. reflexivity. }
  rewrite Hh'. clear Hh' h'. unfold _record_request. rewrite Hip.
  change (negb true) with false. cbv iota.
  split; [reflexivity|]. split; [reflexivity|]. split.
  - intros status Hne. cbv zeta.
    change (status_by_ip (set_status_by_ip ?g ?m)) with m.
    rewrite dd_get_insert_eq, dd_get_insert_ne by congruence. reflexivity.
  - split; [reflexivity|]. split; [reflexivity|]. split; [reflexivity|].
    apply emits_nil; reflexivity.
Qed.
End Structural.

(** *** The same, run in binary64 *)

Lemma ingest_event_without_entity_witness :
  let h := Scenario.fresh (F := float) in
  let ev := syslog_event None (Some "failed_login"%string) in
  let h' := ingest_event h ev (Scenario.clock 0%float "2025-09-21T10:12:00") in
  ev_ip ev = None
  /\ events_by_ip h' = events_by_ip h
  /\ rate_model h' = rate_model h
  /\ total_events (stats h') = total_events (stats h) + 1
  /\ emits h h' [].
Proof.
  intros h ev h'. split; [reflexivity|].
  destruct (ingest_event_without_entity h ev (Scenario.clock 0%float "2025-09-21T10:12:00")
              eq_refl) as (He & _ & _ & Hr & _ & _ & Ht & Hem).
  repeat split; assumption.
Defined.

(** C1 as stated fails: a request for [/wp-admin] with no entity raises a
    [suspicious_path] alert whose [ip] is [None]. *)
Lemma ingest_request_without_entity_alerts :
  let ev := nginx_event None "/wp-admin" "200" in
  let h := Scenario.fresh (F := float) in
  let h' := ingest_event h ev (Scenario.clock 0%float "2025-09-21T10:12:00") in
  ev_ip ev = None
  /\ total_alerts (stats h) = 0
  /\ total_alerts (stats h') = 1
  /\ map kind (last_alerts (stats h')) = ["suspicious_path"%string]
  /\ map ip (last_alerts (stats h')) = [None].
Proof. vm_compute. repeat split. Qed.

(** C2 as stated fails: the second report carries the later reading of the
    clock. *)
Lemma to_report_twice_differs :
  let h := Scenario.fresh (F := float) in
  let r1 := (to_report h "2025-09-21T10:12:00.000001").1 in
  let h1 := (to_report h "2025-09-21T10:12:00.000001").2 in
  let r2 := (to_report h1 "2025-09-21T10:12:00.000002").1 in
  r1 <> r2.
Proof. cbv zeta. intros Heq. apply (f_equal generated_at) in Heq. discriminate Heq. Qed.

(** C3 as stated fails: a failed login of [1.2.3.4] is counted in
    [total_events] and leaves [per_ip_count] without an entry for it. *)
Lemma failed_login_not_counted_per_ip :
  let ev := syslog_event (Some "1.2.3.4"%string) (Some "failed_login"%string) in
  let h := Scenario.fresh (F := float) in
  let h' := ingest_event h ev (Scenario.clock 0%float "2025-09-21T10:12:00") in
  ev_ip ev = Some "1.2.3.4"%string
  /\ total_events (stats h') = 1
  /\ dict_get "1.2.3.4" (per_ip_count (stats h)) = None
  /\ dict_get "1.2.3.4" (per_ip_count (stats h')) = None.
Proof. vm_compute. repeat split. Qed.

Lemma ingest_accepted_login_frame_witness :
  let h := Scenario.fresh (F := float) in
  let ev := syslog_event (Some "1.2.3.4"%string) (Some "accepted_login"%string) in
  let h' := ingest_event h ev (Scenario.clock 7%float "2025-09-21T10:12:00") in
  truthy (ev_ip ev) = true
  /\ per_ip_count (stats h') = dict_incr "1.2.3.4" (per_ip_count (stats h))
  /\ failed_logins_by_ip h' = failed_logins_by_ip h
  /\ rate_model h' = rate_model h
  /\ emits h h' [].
Proof.
  intros h ev h'. split; [reflexivity|].
  destruct (ingest_accepted_login_frame h ev (Scenario.clock 7%float "2025-09-21T10:12:00")
              eq_refl eq_refl eq_refl) as (_ & _ & _ & Hpc & Hfl & Hrm & Hem).
  repeat split; assumption.
Defined.

(** C9 as stated fails: an accepted login of [1.2.3.4] at time 7 enters the
    per-status counter of the entity for status [200]. *)
Lemma accepted_login_touches_status_counter :
  let ev := syslog_event (Some "1.2.3.4"%string) (Some "accepted_login"%string) in
  let h := Scenario.fresh (F := float) in
  let h' := ingest_event h ev (Scenario.clock 7%float "2025-09-21T10:12:00") in
  dd_get (dd_get (status_by_ip h) "1.2.3.4" ∅) "200" [] = []
  /\ dd_get (dd_get (status_by_ip h') "1.2.3.4" ∅) "200" [] = [7%float]
  /\ status_by_ip h' <> status_by_ip h.
Proof.
  cbv zeta. split; [reflexivity|]. split; [vm_compute; reflexivity|].
  intros Heq.
  apply (f_equal (fun m => dd_get (dd_get m "1.2.3.4" ∅) "200" [])) in Heq.
  vm_compute in Heq. discriminate Heq.
Qed.

(** ** The engine over the reals *)

Section Reals.
Local Open Scope R_scope.

Lemma Rltb_true (x y : R) : RFloat.ltb x y = true <-> x < y.
Proof.
  unfold RFloat.ltb. destruct (Rlt_dec x y); split; intros;
    try assumption; try reflexivity; try discriminate; contradiction.
Qed.

Lemma Rltb_false (x y : R) : RFloat.ltb x y = false <-> y <= x.
Proof.
  unfold RFloat.ltb. destruct (Rlt_dec x y); split; intros;
    try reflexivity; try discriminate; lra.
Qed.

Lemma Int_part_of_int (n : Z) : Int_part (IZR n) = n.
Proof.
  unfold Int_part.
  assert (Hup : up (IZR n) = (n + 1)%Z).
  { symmetry. apply tech_up; rewrite plus_IZR; lra. }
  rewrite Hup. lia.
Qed.

Lemma nearest_even_of_int (n : Z) : RFloat.nearest_even (IZR n) = n.
Proof.
  unfold RFloat.nearest_even. rewrite Int_part_of_int.
  destruct (Rlt_dec _ _) as [_|Hn]; [reflexivity|]. exfalso. apply Hn. lra.
Qed.

(** [round(x, 2)] returns a number of two decimals as it is. *)
Lemma round2_two_decimals (x : R) (n : Z) : x * 100 = IZR n -> Py.round2 x = x.
Proof.
  intros Hx. unfold Py.round2. cbn. unfold RFloat.round_half_even, RFloat.of_ratio.
  destruct (RFloat.ltb x 0) eqn:Hs.
  - apply Rltb_true in Hs.
    replace (Rabs x * 100) with (IZR (- n)).
    2:{ rewrite Rabs_left by assumption. rewrite opp_IZR. lra. }
    rewrite nearest_even_of_int.
    assert (Hn : (n < 0)%Z). { apply lt_IZR. lra. }
    rewrite Z2N.id by lia. rewrite opp_IZR. lra.
  - apply Rltb_false in Hs.
    replace (Rabs x * 100) with (IZR n).
    2:{ rewrite Rabs_right by lra. lra. }
    rewrite nearest_even_of_int.
    assert (Hn : (0 <= n)%Z). { apply le_IZR. lra. }
    rewrite Z2N.id by lia. lra.
Qed.

Lemma round2_of_int (n : Z) : Py.round2 (IZR n) = IZR n.
Proof. apply (round2_two_decimals _ (n * 100)). rewrite mult_IZR. reflexivity. Qed.

Lemma lit_R (n d : Z) : Py.lit (F := R) n d = IZR n / IZR d.
Proof. reflexivity. Qed.

Lemma Py_max_R (a b : R) : Py.max a b = Rmax a b.
Proof.
  unfold Py.max, Rmax. cbn. destruct (RFloat.ltb a b) eqn:E.
  - apply Rltb_true in E. destruct (Rle_dec a b); [reflexivity|lra].
  - apply Rltb_false in E. destruct (Rle_dec a b); [lra|reflexivity].
Qed.

Lemma Py_min_R (a b : R) : Py.min a b = Rmin a b.
Proof.
  unfold Py.min, Rmin. cbn. destruct (RFloat.ltb b a) eqn:E.
  - apply Rltb_true in E. destruct (Rle_dec a b); [lra|reflexivity].
  - apply Rltb_false in E. destruct (Rle_dec a b); [reflexivity|lra].
Qed.
End Reals.

(** ** The windowed counter *)

Section RealWindow.
Local Open Scope R_scope.
Implicit Types (w : Z) (dq ts : list R) (now t : R).

Lemma prune_window_cons w t dq now :
  _prune_window w (t :: dq) now
  = if decide (now - t <= IZR w) then t :: dq else _prune_window w dq now.
Proof.
  simpl. destruct (RFloat.ltb (IZR w) (now - t)) eqn:E.
  - apply Rltb_true in E. rewrite decide_False by lra. reflexivity.
  - apply Rltb_false in E. rewrite decide_True by lra. reflexivity.
Qed.

(** Nothing leaves a deque whose entries are all in the window. *)
Lemma prune_window_keep w dq now :
  Forall (fun t => now - t <= IZR w) dq -> _prune_window w dq now = dq.
Proof.
  intros Hall. destruct Hall as [|t dq Ht _]; [reflexivity|].
  rewrite prune_window_cons, decide_True by assumption. reflexivity.
Qed.

(** On timestamps in arrival order, pruning keeps exactly the entries no
    older than the window. *)
Lemma prune_window_sorted w dq now :
  StronglySorted Rle dq ->
  _prune_window w dq now = filter (fun t => now - t <= IZR w) dq.
Proof.
  induction 1 as [|t dq Hs IH Hall]; [reflexivity|].
  rewrite prune_window_cons.
  destruct (decide (now - t <= IZR w)) as [Hin|Hout].
  - rewrite filter_cons_True by assumption. f_equal.
    symmetry. clear IH Hs. induction Hall as [|a dq Ha Hall IH]; [reflexivity|].
    rewrite filter_cons_True by lra. f_equal. exact IH.
  - rewrite filter_cons_False by assumption. exact IH.
Qed.


(** Pruning early and again later is pruning later. *)
Lemma prune_window_twice w dq l now now' :
  now <= now' ->
  _prune_window w (_prune_window w dq now ++ l) now' = _prune_window w (dq ++ l) now'.
Proof.
  intros Hle. induction dq as [|t dq IH]; [reflexivity|].
  rewrite (prune_window_cons w t dq now).
  destruct (decide (now - t <= IZR w)) as [Hin|Hout]; [reflexivity|].
  rewrite IH. rewrite <- app_comm_cons, prune_window_cons, decide_False by lra. reflexivity.
Qed.

Lemma record_all_snoc w ts t :
  record_all w (ts ++ [t]) = _prune_window w (record_all w ts ++ [t]) t.
Proof. unfold record_all. rewrite fold_left_app. reflexivity. Qed.

(** A counter fed in arrival order holds what one pruning at the last
    append would have left. *)
Lemma record_all_sorted w ts :
  StronglySorted Rle ts ->
  record_all w ts = _prune_window w ts (List.last ts 0).
Proof.
  induction ts as [|t ts IH] using rev_ind; intros Hs; [reflexivity|].
  apply StronglySorted_app in Hs. destruct Hs as (Hle & Hs & _).
  rewrite record_all_snoc, last_last, (IH Hs).
  destruct ts as [|a ts' _] using rev_ind; [reflexivity|].
  apply prune_window_twice.
  rewrite last_last. apply Hle; [|left]. apply elem_of_app. right. left.
Qed.




End RealWindow.

(** The boundary in binary64: the deque keeps the entry, the strict count
    does not. *)
Example windowed_count_boundary_b64 :
  length (_prune_window 60 (record_all 60 [0%float]) 60%float) = 1%nat
  /\ List.filter (fun t : float => (60%float -^ t <^ of_int 60)%pf) [0%float] = [].
Proof. vm_compute. split; reflexivity. Qed.

(** ** Brute force *)

Section RealBruteforce.
Local Open Scope R_scope.
Implicit Types (h g : ThreatHunter R) (clks : list (Clock R)) (c : Clock R).

(** Failed logins that stay in the window and below the threshold pile up
    in the deque of the entity and raise nothing. *)
Lemma feed_failed_logins_below ip clks : forall h pre,
  ip <> ""%string ->
  dd_get (failed_logins_by_ip h) ip [] = pre ->
  (let times := pre ++ map time_time clks in
   Forall (fun t => Forall (fun t' => t' - t <= IZR (window h)) times) times) ->
  (Z.of_nat (length pre + length clks) < threshold h)%Z ->
  let h' := feed h (failed_logins ip clks) in
  dd_get (failed_logins_by_ip h') ip [] = pre ++ map time_time clks
  /\ same_config h h'
  /\ emits h h' [].
Proof.
  induction clks as [|c clks IH]; intros h pre Hip Hpre Hwin Hlen h'.
  - subst h'. simpl. rewrite app_nil_r. split; [exact Hpre|]. split; [apply same_config_refl|].
    apply emits_nil; reflexivity.
  - subst h'. cbv zeta in Hwin.
    set (ev := syslog_event (Some ip) (Some "failed_login"%string)).
    destruct (ingest_failed_login h ev c eq_refl eq_refl (truthy_Some ip Hip))
      as (Hfl & Hcfg & Hem).
    change (key_of (ev_ip ev)) with ip in Hfl, Hem.
    rewrite Hpre in Hfl, Hem.
    assert (Hkeep : _prune_window (window h) (pre ++ [time_time c]) (time_time c)
                    = pre ++ [time_time c]).
    { apply prune_window_keep. rewrite Forall_forall in Hwin |- *.
      intros t Ht. specialize (Hwin t). rewrite Forall_forall in Hwin.
      apply Hwin.
      - rewrite elem_of_app in Ht |- *. destruct Ht as [Ht|Ht]; [left; exact Ht|].
        right. apply list_elem_of_singleton in Ht. subst t. left.
      - rewrite elem_of_app. right. left. }
    rewrite Hkeep in Hfl, Hem.
    rewrite length_app in Hem. simpl length in Hem, Hlen.
    assert (Hth : (threshold h <=? Z.of_nat (length pre + 1))%Z = false)
      by (apply Z.leb_gt; lia).
    rewrite Hth in Hem.
    set (h1 := ingest_event h ev c) in *.
    destruct Hcfg as (Hw1 & Ht1 & Ha1).
    destruct (IH h1 (pre ++ [time_time c]) Hip) as (Hdq & Hcfg' & Hem').
    + rewrite Hfl. apply dd_get_insert_eq.
    + cbv zeta. rewrite Hw1, <- app_assoc. exact Hwin.
    + rewrite Ht1, length_app. simpl. lia.
    + change (feed h (failed_logins ip (c :: clks))) with (feed h1 (failed_logins ip clks)).
      split; [rewrite Hdq, <- app_assoc; reflexivity|].
      split.
      * apply (same_config_trans h h1); [repeat split; assumption | exact Hcfg'].
      * apply (emits_app h h1 _ [] []); assumption.
Qed.

(** C6.  An entity with no failed login on record sends failed logins whose
    times are within [window] of one another: [clks], one fewer than
    [threshold], and then [c].  The first [threshold - 1] raise no alert.
    With the last one, [n = threshold] of them are in the window and exactly
    one alert is raised: [bruteforce], [critical], with score
    [9.0 + 0.5 * (n - threshold)], which is 9.0. *)
Theorem bruteforce_at_threshold h ip clks c :
  ip <> ""%string ->
  dd_get (failed_logins_by_ip h) ip [] = [] ->
  (let times := map time_time (clks ++ [c]) in
   Forall (fun t => Forall (fun t' => t' - t <= IZR (window h)) times) times) ->
  Z.of_nat (length clks) = (threshold h - 1)%Z ->
  let n := Z.of_nat (length (clks ++ [c])) in
  emits h (feed h (failed_logins ip clks)) []
  /\ emits h (feed h (failed_logins ip (clks ++ [c])))
       [{| ts := utcnow c 0; severity := "critical"; kind := "bruteforce";
           ip := Some ip;
           detail := pretty n +:+ " failed logins in " +:+ pretty (window h) +:+ "s";
           score := 9 + 5 / 10 * IZR (n - threshold h) |}]
  /\ n = threshold h
  /\ 9 + 5 / 10 * IZR (n - threshold h) = 9.
Proof.
  intros Hip Hpre Hwin Hlen n. cbv zeta in Hwin. rewrite map_app in Hwin.
  assert (Hn : n = threshold h).
  { subst n. rewrite length_app. simpl length. lia. }
  assert (Hsc9 : 9 + 5 / 10 * IZR (n - threshold h) = 9).
  { rewrite Hn, Z.sub_diag. lra. }
  destruct (feed_failed_logins_below ip clks h [] Hip Hpre) as (Hdq & Hcfg & Hem).
  - cbv zeta. simpl app.
    rewrite Forall_forall in Hwin |- *. intros t Ht.
    specialize (Hwin t). rewrite Forall_forall in Hwin |- *.
    intros t' Ht'. apply Hwin; rewrite elem_of_app; [left; exact Ht | left; exact Ht'].
  - simpl. lia.
  - split; [exact Hem|]. split; [|split; assumption].
    rewrite Hsc9.
    unfold failed_logins, feed. rewrite map_app, fold_left_app. simpl fold_left at 1.
    fold (failed_logins ip clks). fold (feed h (failed_logins ip clks)).
    set (h1 := feed h (failed_logins ip clks)) in *. simpl app in Hdq.
    set (ev := syslog_event (Some ip) (Some "failed_login"%string)).
    destruct (ingest_failed_login h1 ev c eq_refl eq_refl (truthy_Some ip Hip))
      as (_ & _ & Hem1).
    change (key_of (ev_ip ev)) with ip in Hem1.
    destruct Hcfg as (Hw1 & Ht1 & _).
    rewrite Hdq, Hw1, Ht1 in Hem1.
    assert (Hkeep : _prune_window (window h) (map time_time clks ++ [time_time c]) (time_time c)
                    = map time_time clks ++ [time_time c]).
    { apply prune_window_keep. rewrite Forall_forall in Hwin |- *.
      intros t Ht. specialize (Hwin t). rewrite Forall_forall in Hwin.
      apply Hwin; [exact Ht|]. rewrite elem_of_app. right. left. }
    rewrite Hkeep, length_app, length_map in Hem1. simpl length in Hem1.
    assert (Hn' : Z.of_nat (length clks + 1) = n).
    { subst n. rewrite length_app. reflexivity. }
    rewrite Hn' in Hem1.
    assert (Hleb : (threshold h <=? n)%Z = true) by (apply Z.leb_le; lia).
    rewrite Hleb in Hem1.
    assert (Hsc : Py.round2 (of_int 9 +^ Py.lit 5 10 *^ of_int (n - threshold h))%pf = 9).
    { rewrite Hn, Z.sub_diag.
      rewrite (round2_two_decimals _ 900); unfold Py.lit; cbn; lra. }
    rewrite Hsc in Hem1.
    apply (emits_app h h1 _ [] _ Hem Hem1).
Qed.

(** Scenario A of the specification: window 60, threshold 3, three failed
    logins of [1.2.3.4] at times 0, 1 and 2. *)
Lemma bruteforce_at_threshold_witness :
  let h := Scenario.hunter (F := R) 60 3 in
  let clks := [Scenario.clock 0 "2025-09-21T10:12:00"; Scenario.clock 1 "2025-09-21T10:12:01"] in
  let c := Scenario.clock 2 "2025-09-21T10:12:02" in
  emits h (feed h (failed_logins "1.2.3.4" clks)) []
  /\ emits h (feed h (failed_logins "1.2.3.4" (clks ++ [c])))
       [{| ts := "2025-09-21T10:12:02"; severity := "critical"; kind := "bruteforce";
           ip := Some "1.2.3.4"%string;
           detail := pretty 3%Z +:+ " failed logins in " +:+ pretty 60%Z +:+ "s";
           score := 9 + 5 / 10 * IZR (3 - 3) |}]
  /\ 3%Z = 3%Z
  /\ 9 + 5 / 10 * IZR (3 - 3) = 9.
Proof.
  intros h clks c.
  apply (bruteforce_at_threshold h "1.2.3.4" clks c).
  - discriminate.
  - reflexivity.
  - cbv zeta. subst h clks c. cbn [map app time_time Scenario.clock].
    change (window (Scenario.hunter 60 3)) with 60%Z.
    repeat constructor; lra.
  - reflexivity.
Defined.
End RealBruteforce.

(** Scenario A, run in binary64. *)
Example scenario_A_b64 :
  let h := Scenario.hunter (F := float) 60 3 in
  let clks := map (fun t => Scenario.clock t "2025-09-21T10:12:00") [0; 1; 2]%float in
  let h' := feed h (failed_logins "1.2.3.4" clks) in
  total_alerts (stats h') = 1
  /\ map (fun a => (kind a, severity a, score a)) (last_alerts (stats h'))
     = [("bruteforce", "critical", 9%float)]%string.
Proof. vm_compute. split; reflexivity. Qed.

(** ** Status storms and rate anomalies *)

Section RealRules.
Local Open Scope R_scope.
Implicit Types (h : ThreatHunter R) (clk : Clock R).



End RealRules.

(** Scenarios B and C of the specification, run in binary64: one request
    for [/wp-admin]; six 404 responses for one entity within ten seconds,
    with threshold 5. *)
Example scenario_B_b64 :
  let h := Scenario.hunter (F := float) 60 5 in
  let h' := ingest_event h (nginx_event (Some "5.6.7.8"%string) "/wp-admin" "200")
              (Scenario.clock 0%float "2025-09-21T10:12:00") in
  map (fun a => (kind a, severity a, score a)) (last_alerts (stats h'))
  = [("suspicious_path", "medium", 6%float)]%string.
Proof. vm_compute. reflexivity. Qed.

Example scenario_C_b64 :
  let h := Scenario.hunter (F := float) 60 5 in
  let evs := map (fun t => (nginx_event (Some "9.9.9.9"%string) "/missing" "404",
                            Scenario.clock t "2025-09-21T10:12:00"))
               [0; 2; 4; 6; 8; 9]%float in
  map (fun a => (kind a, severity a, score a)) (last_alerts (stats (feed h evs)))
  = [("404_storm", "medium", 7%float); ("404_storm", "medium", 8%float)]%string.
Proof. vm_compute. reflexivity. Qed.

(** The rate rule does fire: with [alpha = 0.05], window 10 and threshold 2,
    a long trickle of requests settles the model, and the third request of a
    burst is an anomaly, with the capped score. *)
Example scenario_rate_anomaly_b64 :
  let h := ThreatHunter_new (F := float) 10 2 (Py.lit 5 100) in
  let h' := feed h (Scenario.requests "7.7.7.7" Scenario.trickle_then_burst) in
  map (fun a => (kind a, severity a, score a, detail a)) (last_alerts (stats h'))
  = [("rate_anomaly", "high", 10%float, "z=3.78, rate=0.300 req/s")]%string.
Proof. vm_compute. reflexivity. Qed.

(** ** The rate model *)

Section RealEWMA.
Local Open Scope R_scope.
Implicit Types (m : EWMA R) (x : R).

(** The variance [zscore] reads is floored. *)
Lemma floored_variance m : 1 / 1000000 <= Py.max (var m) (Py.lit 1 1000000).
Proof. rewrite Py_max_R, lit_R. apply Rmax_r. Qed.

Lemma EWMA_std_pos m : 0 < EWMA_std m.
Proof.
  unfold EWMA_std. cbn [fsqrt R_PyFloat]. apply sqrt_lt_R0.
  pose proof (floored_variance m). lra.
Qed.

(** Over the reals the guard of [zscore] always holds: [std] is strictly
    positive whatever the mean and the variance, and [zscore] is the
    quotient [(x - mean) / std]. *)
Lemma zscore_divides_by_positive m x :
  0 < EWMA_std m
  /\ (EWMA_std m >^ of_int 0)%pf = true
  /\ EWMA_zscore m x = (x - mean m) / EWMA_std m.
Proof.
  pose proof (EWMA_std_pos m) as Hpos.
  assert (Hg : (EWMA_std m >^ of_int 0)%pf = true) by (apply Rltb_true; exact Hpos).
  split; [exact Hpos|]. split; [exact Hg|].
  unfold EWMA_zscore. cbv zeta. rewrite Hg. reflexivity.
Qed.

Lemma EWMA_update_var_nonneg m x :
  0 <= alpha m <= 1 -> 0 <= var m -> 0 <= var (EWMA_update m x).
Proof.
  intros [Ha0 Ha1] Hv. unfold EWMA_update. destruct (initialized m); cbn.
  - apply Rplus_le_le_0_compat.
    + apply Rmult_le_pos; [exact Ha0|]. apply Rle_0_sqr.
    + apply Rmult_le_pos; lra.
  - lra.
Qed.

Lemma EWMA_update_alpha m x : alpha (EWMA_update m x) = alpha m.
Proof. unfold EWMA_update. destruct (initialized m); reflexivity. Qed.

(** C4 (amended).  For [alpha] in [0, 1] and a model whose variance is not
    negative, after every sequence of updates the stored variance is not
    negative, and the variance [zscore] reads, [max(var, 1e-6)], is at least
    the floor [1e-6].  The floor is applied where the variance is read, not
    to the stored value. *)
Theorem variance_after_updates m (xs : list R) :
  0 <= alpha m <= 1 ->
  0 <= var m ->
  let m' := fold_left EWMA_update xs m in
  0 <= var m'
  /\ 1 / 1000000 <= Py.max (var m') (Py.lit 1 1000000).
Proof.
  intros Ha Hv m'. split; [|apply floored_variance].
  subst m'. revert m Ha Hv. induction xs as [|x xs IH]; intros m Ha Hv; [exact Hv|].
  simpl. apply IH.
  - rewrite EWMA_update_alpha. exact Ha.
  - apply EWMA_update_var_nonneg; assumption.
Qed.

Lemma variance_after_updates_witness :
  let m := EWMA_new (3 / 10) in
  let m' := fold_left EWMA_update [1; 2; 3] m in
  0 <= var m' /\ 1 / 1000000 <= Py.max (var m') (Py.lit 1 1000000).
Proof.
  apply (variance_after_updates (EWMA_new (3 / 10)) [1; 2; 3]).
  - simpl. lra.
  - simpl. lra.
Defined.

(** A constant observation: the mean stays, the variance decays. *)
Lemma EWMA_update_constant (n : nat) : forall m x,
  initialized m = true -> mean m = x ->
  let m' := fold_left EWMA_update (repeat x n) m in
  alpha m' = alpha m /\ var m' = (1 - alpha m) ^ n * var m.
Proof.
  induction n as [|n IH]; intros m x Hi Hm.
  - simpl. split; [reflexivity | lra].
  - cbv zeta. change (repeat x (S n)) with (x :: repeat x n).
    change (fold_left EWMA_update (x :: repeat x n) m)
      with (fold_left EWMA_update (repeat x n) (EWMA_update m x)).
    assert (Hu : EWMA_update m x
                 = {| alpha := alpha m; mean := alpha m * x + (1 - alpha m) * mean m;
                      var := alpha m * ((x - mean m) * (x - mean m)) + (1 - alpha m) * var m;
                      initialized := true |}).
    { unfold EWMA_update. rewrite Hi. reflexivity. }
    destruct (IH (EWMA_update m x) x) as (Ha & Hv).
    + rewrite Hu. reflexivity.
    + rewrite Hu. cbn [mean]. rewrite Hm. ring.
    + rewrite Ha, Hv, Hu. cbn [alpha var]. rewrite Hm. split; [reflexivity|].
      simpl pow. ring.
Qed.

(** From a fresh model the first observation sets the mean, and every
    repetition of it shrinks the variance by [1 - alpha]. *)
Lemma EWMA_fresh_constant (a x : R) (n : nat) :
  let m := fold_left EWMA_update (repeat x (S n)) (EWMA_new a) in
  alpha m = a /\ var m = (1 - a) ^ n.
Proof.
  cbv zeta. cbn [repeat fold_left].
  destruct (EWMA_update_constant n (EWMA_update (EWMA_new a) x) x eq_refl eq_refl) as (Ha & Hv).
  rewrite Ha, Hv. split; [reflexivity|].
  change (var (EWMA_update (EWMA_new a) x)) with 1.
  change (alpha (EWMA_update (EWMA_new a) x)) with a. apply Rmult_1_r.
Qed.

(** C4 as stated fails: with the default [alpha = 0.3], forty updates with
    the same rate leave a stored variance of [0.7 ^ 39], below the floor
    [1e-6]. *)
Lemma variance_below_floor :
  let m := fold_left EWMA_update (repeat (1 / 2) 40) (EWMA_new (Py.lit 3 10)) in
  0 < alpha m <= 1 /\ var m < 1 / 1000000.
Proof.
  destruct (EWMA_fresh_constant (Py.lit 3 10) (1 / 2) 39) as (Ha & Hv).
  cbv zeta. rewrite Ha, Hv, lit_R. split; [lra|]. simpl pow. lra.
Qed.
End RealEWMA.

(** The same run in binary64. *)
Example variance_below_floor_b64 :
  let m := fold_left EWMA_update (repeat 0.5%float 40) (EWMA_new (Py.lit 3 10)) in
  (var m <^ Py.lit 1 1000000)%pf = true.
Proof. vm_compute. reflexivity. Qed.

(** In binary64 too the variance [zscore] reads is never below the floor. *)
Lemma floored_variance_b64 (m : EWMA float) :
  (Py.max (var m) (Py.lit 1 1000000) <^ Py.lit 1 1000000)%pf = false.
Proof.
  unfold Py.max. cbn [flt B64_PyFloat].
  destruct (PrimFloat.ltb (var m) (Py.lit 1 1000000)) eqn:E; [|exact E].
  vm_compute. reflexivity.
Qed.

(** C10 as stated fails in binary64: when the variance is not a number,
    [max(var, 1e-6)] is that NaN, [std] is NaN, the guard [std > 0] is
    false and [zscore] returns [0.0] through the fallback. *)
Lemma zscore_nan_variance :
  let m := {| alpha := Py.lit 3 10; mean := 0%float; var := nan; initialized := true |} in
  EWMA_std m = nan
  /\ (EWMA_std m >^ of_int 0)%pf = false
  /\ EWMA_zscore m 1%float = 0%float.
Proof. vm_compute. repeat split. Qed.

(** ** The guard of [zscore] in binary64 *)

(** The specification of the binary64 square root, read on the integers:
    the root of a positive finite float is a positive float. *)

Lemma div2_le (e : Z) : 2 * Z.div2 e <= e.
Proof. rewrite Z.div2_div. apply Z.mul_div_le. lia. Qed.

Lemma digits2_pos_bounds (p : positive) :
  2 ^ (Z.pos (digits2_pos p) - 1) <= Z.pos p < 2 ^ Z.pos (digits2_pos p).
Proof.
  induction p as [p IH|p IH|]; simpl digits2_pos.
  - rewrite Pos2Z.inj_succ.
    replace (Z.succ (Z.pos (digits2_pos p)) - 1) with (Z.succ (Z.pos (digits2_pos p) - 1)) by lia.
    rewrite !Z.pow_succ_r by lia. lia.
  - rewrite Pos2Z.inj_succ.
    replace (Z.succ (Z.pos (digits2_pos p)) - 1) with (Z.succ (Z.pos (digits2_pos p) - 1)) by lia.
    rewrite !Z.pow_succ_r by lia. lia.
  - simpl. lia.
Qed.

Lemma Zdigits2_bounds (m : Z) :
  0 < m -> 0 < Zdigits2 m /\ 2 ^ (Zdigits2 m - 1) <= m < 2 ^ Zdigits2 m.
Proof.
  destruct m as [|p|p]; try lia. intros _. simpl Zdigits2.
  split; [lia | apply digits2_pos_bounds].
Qed.

(** A number with a power of two below it has more digits than the exponent. *)
Lemma Zdigits2_above (m k : Z) : 0 <= k -> 2 ^ k <= m -> k < Zdigits2 m.
Proof.
  intros Hk Hm. assert (Hpos : 0 < m) by (pose proof (Z.pow_pos_nonneg 2 k); lia).
  destruct (Zdigits2_bounds m Hpos) as (Hd & _ & Hlt).
  apply (Z.pow_lt_mono_r_iff 2); lia.
Qed.

Lemma shr_1_m (r : shr_record) : 0 <= shr_m r -> shr_m (shr_1 r) = shr_m r / 2.
Proof.
  destruct r as [m r s]. simpl. intros Hm.
  destruct m as [|[p|p|]|p]; try lia; simpl shr_m.
  - reflexivity.
  - apply (Z.div_unique _ _ _ 1); lia.
  - apply (Z.div_unique _ _ _ 0); lia.
  - reflexivity.
Qed.

Lemma pow2_xO (p : positive) : 2 ^ Z.pos p~0 = 2 ^ Z.pos p * 2 ^ Z.pos p.
Proof. rewrite <- Z.pow_add_r by lia. f_equal. lia. Qed.

Lemma pow2_xI (p : positive) : 2 ^ Z.pos p~1 = 2 * (2 ^ Z.pos p * 2 ^ Z.pos p).
Proof.
  rewrite <- Z.pow_add_r by lia. rewrite <- Z.pow_succ_r by lia. f_equal. lia.
Qed.

Lemma iter_pos_shr_1 (p : positive) : forall r,
  0 <= shr_m r -> shr_m (SpecFloat.iter_pos shr_1 p r) = shr_m r / 2 ^ Z.pos p.
Proof.
  assert (Hpw : forall q : positive, 0 < 2 ^ Z.pos q) by (intros; apply Z.pow_pos_nonneg; lia).
  induction p as [p IH|p IH|]; intros r Hr; simpl SpecFloat.iter_pos.
  - assert (H1 : 0 <= shr_m (shr_1 r)).
    { rewrite shr_1_m by assumption. apply Z.div_pos; lia. }
    assert (H2 : 0 <= shr_m (SpecFloat.iter_pos shr_1 p (shr_1 r))).
    { rewrite IH by assumption. apply Z.div_pos; [assumption | apply Hpw]. }
    rewrite (IH _ H2), (IH _ H1), shr_1_m by assumption.
    rewrite !Z.div_div by (try lia; apply Hpw).
    rewrite pow2_xI. f_equal; lia.
  - assert (H2 : 0 <= shr_m (SpecFloat.iter_pos shr_1 p r)).
    { rewrite IH by assumption. apply Z.div_pos; [assumption | apply Hpw]. }
    rewrite (IH _ H2), (IH _ Hr).
    rewrite !Z.div_div by (try lia; apply Hpw).
    rewrite pow2_xO. reflexivity.
  - rewrite shr_1_m by assumption. reflexivity.
Qed.

Section Binary64.

(** Shifting to the canonical exponent keeps a mantissa positive, and does
    not lower its magnitude [digits + exponent]. *)
Lemma shr_fexp_positive (m e : Z) (l : location) :
  0 < m -> SpecFloat.emin prec emax < Zdigits2 m + e ->
  0 < shr_m (fst (shr_fexp prec emax m e l))
  /\ Zdigits2 m + e <= Zdigits2 (shr_m (fst (shr_fexp prec emax m e l)))
                        + snd (shr_fexp prec emax m e l).
Proof.
  intros Hm Hd. unfold SpecFloat.emin, prec, emax in Hd. unfold shr_fexp, shr.
  assert (Hrec : shr_m (shr_record_of_loc m l) = m) by (destruct l as [|[]]; reflexivity).
  destruct (Zdigits2_bounds m Hm) as (Hdp & Hlo & Hhi).
  destruct (fexp prec emax (Zdigits2 m + e) - e) as [|n|n] eqn:En; simpl fst; simpl snd.
  - rewrite Hrec. lia.
  - assert (Hn : Z.pos n <= Zdigits2 m - 1).
    { unfold fexp, SpecFloat.emin, prec, emax in En. lia. }
    rewrite iter_pos_shr_1, Hrec by (rewrite Hrec; lia).
    assert (Hpw : 0 < 2 ^ Z.pos n) by (apply Z.pow_pos_nonneg; lia).
    assert (Hq : 2 ^ (Zdigits2 m - 1 - Z.pos n) <= m / 2 ^ Z.pos n).
    { apply Z.div_le_lower_bound; [assumption|].
      rewrite <- Z.pow_add_r by lia.
      replace (Z.pos n + (Zdigits2 m - 1 - Z.pos n)) with (Zdigits2 m - 1) by lia.
      assumption. }
    assert (Hq0 : 0 < 2 ^ (Zdigits2 m - 1 - Z.pos n)) by (apply Z.pow_pos_nonneg; lia).
    split; [lia|].
    pose proof (Zdigits2_above (m / 2 ^ Z.pos n) (Zdigits2 m - 1 - Z.pos n) ltac:(lia) Hq).
    lia.
  - rewrite Hrec. lia.
Qed.

Lemma round_nearest_even_ge (m : Z) (l : location) : m <= round_nearest_even m l.
Proof. destruct l as [|[]]; simpl; try lia. destruct (Z.even m); lia. Qed.

Lemma Zdigits2_mono (a b : Z) : 0 < a -> a <= b -> Zdigits2 a <= Zdigits2 b.
Proof.
  intros Ha Hab. destruct (Zdigits2_bounds a Ha) as (Hd & Hlo & _).
  pose proof (Zdigits2_above b (Zdigits2 a - 1) ltac:(lia) ltac:(lia)). lia.
Qed.

(** Rounding a positive mantissa of sufficient magnitude gives a positive
    float. *)
Lemma binary_round_aux_positive (m e : Z) (l : location) :
  0 < m -> SpecFloat.emin prec emax < Zdigits2 m + e ->
  SFpositive (binary_round_aux prec emax false m e l).
Proof.
  intros Hm Hd. unfold binary_round_aux.
  destruct (shr_fexp_positive m e l Hm Hd) as (H1 & D1).
  destruct (shr_fexp prec emax m e l) as [mrs' e'] eqn:E1. simpl fst in *; simpl snd in *.
  set (m2 := round_nearest_even (shr_m mrs') (loc_of_shr_record mrs')).
  assert (H2 : shr_m mrs' <= m2) by apply round_nearest_even_ge.
  assert (D2 : SpecFloat.emin prec emax < Zdigits2 m2 + e').
  { pose proof (Zdigits2_mono (shr_m mrs') m2 H1 H2). lia. }
  destruct (shr_fexp_positive m2 e' loc_Exact ltac:(lia) D2) as (H3 & _).
  destruct (shr_fexp prec emax m2 e' loc_Exact) as [mrs'' e''] eqn:E2. simpl fst in *.
  destruct (shr_m mrs'') as [|p|p]; try lia.
  destruct (e'' <=? emax - prec); reflexivity.
Qed.

(** The square root of a positive finite binary64 is positive. *)
Lemma SFsqrt_positive (m : positive) (e : Z) :
  valid_binary (S754_finite false m e) = true ->
  SFpositive (SFsqrt prec emax (S754_finite false m e)).
Proof.
  intros Hv. simpl in Hv. unfold bounded, canonical_mantissa in Hv.
  apply andb_prop in Hv. destruct Hv as [Hc _]. apply Z.eqb_eq in Hc.
  assert (He : -1074 <= e).
  { unfold fexp, SpecFloat.emin, prec, emax in Hc. lia. }
  unfold SFsqrt, SFsqrt_core_binary.
  set (d := Zdigits2 (Z.pos m)).
  set (e' := Z.min (fexp prec emax (Z.div2 (d + e + 1))) (Z.div2 e)).
  set (s := e - 2 * e').
  destruct (Zdigits2_bounds (Z.pos m) ltac:(lia)) as (Hd & Hlo & _). fold d in Hd, Hlo.
  assert (Hs : 0 <= s) by (subst s e'; pose proof (div2_le e); lia).
  assert (Es : s = e - 2 * e') by reflexivity. clearbody s.
  set (m' := match s with Z.pos _ => Z.shiftl (Z.pos m) s | 0 => Z.pos m | Z.neg _ => 0 end).
  assert (Hm' : m' = Z.pos m * 2 ^ s).
  { subst m'. clear Es. destruct s as [|p|p]; try lia.
    apply Z.shiftl_mul_pow2. lia. }
  assert (Hm'lo : 2 ^ (d - 1 + s) <= m').
  { rewrite Hm', Z.pow_add_r by lia. apply Z.mul_le_mono_nonneg_r; [|assumption].
    apply Z.lt_le_incl, Z.pow_pos_nonneg; lia. }
  assert (Hm'pos : 0 < m').
  { pose proof (Z.pow_pos_nonneg 2 (d - 1 + s)). lia. }
  pose proof (Z.sqrtrem_sqrt m') as Hq.
  destruct (Z.sqrtrem m') as [q r] eqn:Eq. simpl fst in Hq. subst q.
  pose proof (Z.sqrt_spec m' ltac:(lia)) as Hsq. cbv zeta in Hsq.
  set (q := Z.sqrt m') in *.
  assert (Hqpos : 0 < q).
  { destruct (Z.le_gt_cases q 0) as [Hle|]; [|assumption].
    assert (q = 0) by (pose proof (Z.sqrt_nonneg m'); lia). nia. }
  apply binary_round_aux_positive; [assumption|].
  (* the magnitude of the root *)
  destruct (Zdigits2_bounds q Hqpos) as (Hdq & _ & Hqhi).
  assert (Hlt : 2 ^ (d - 1 + s) < 2 ^ (2 * Zdigits2 q)).
  { replace (2 * Zdigits2 q) with (Zdigits2 q + Zdigits2 q) by lia.
    rewrite (Z.pow_add_r 2 (Zdigits2 q) (Zdigits2 q)) by lia.
    assert (Z.succ q <= 2 ^ Zdigits2 q) by lia.
    assert (Z.succ q * Z.succ q <= 2 ^ Zdigits2 q * 2 ^ Zdigits2 q) by nia.
    lia. }
  apply Z.pow_lt_mono_r_iff in Hlt; [|lia|lia].
  subst e'. unfold fexp, SpecFloat.emin, prec, emax in *.
  pose proof (div2_le e). pose proof (div2_le (d + e + 1)). lia.
Qed.



(** C10 (amended).  In binary64, for every model whose variance is not NaN
    (any mean, any other variance, initialized or not) and every [x], [std]
    is strictly positive: the guard [std > 0] holds, [zscore] returns the
    quotient [(x - mean) / std] and never takes the fallback. *)
Theorem zscore_guard_b64 (m : EWMA float) (x : float) :
  PrimFloat.is_nan (var m) = false ->
  (EWMA_std m >^ of_int 0)%pf = true
  /\ EWMA_zscore m x = ((x - mean m) / EWMA_std m)%float.
Proof.
  intros Hnan.
  assert (Hg : (EWMA_std m >^ of_int 0)%pf = true).
  { unfold EWMA_std, Py.max. cbn [flt fsqrt of_int B64_PyFloat].
    destruct (PrimFloat.ltb (var m) (Py.lit 1 1000000)) eqn:E.
    - vm_compute. reflexivity.
    - rewrite FloatAxioms.ltb_spec, FloatAxioms.sqrt_spec.
      change (Prim2SF (B64.of_int 0)) with (S754_zero false).
      rewrite FloatAxioms.ltb_spec in E. unfold PrimFloat.is_nan in Hnan. rewrite FloatAxioms.eqb_spec in Hnan.
      pose proof (FloatAxioms.Prim2SF_valid (var m)) as Hv.
      destruct (Prim2SF (var m)) as [s|s| |s mm e].
      + vm_compute in E. discriminate E.
      + destruct s; [vm_compute in E; discriminate E | reflexivity].
      + discriminate Hnan.
      + destruct s; [vm_compute in E; discriminate E |].
        apply SFsqrt_positive. exact Hv. }
  split; [exact Hg|].
  unfold EWMA_zscore. cbv zeta. rewrite Hg. reflexivity.
Qed.

Lemma zscore_guard_b64_witness :
  let m := EWMA_new (F := float) (Py.lit 3 10) in
  PrimFloat.is_nan (var m) = false
  /\ (EWMA_std m >^ of_int 0)%pf = true
  /\ EWMA_zscore m 1%float = ((1 - mean m) / EWMA_std m)%float.
Proof.
  intros m. split; [reflexivity|].
  apply (zscore_guard_b64 m 1%float). reflexivity.
Defined.
End Binary64.

(** ** The score of the rate rule in binary64 *)

Section Binary64Sum.

Lemma round_nearest_even_le (m : Z) (l : location) : round_nearest_even m l <= m + 1.
Proof. destruct l as [|[]]; simpl; try lia. destruct (Z.even m); lia. Qed.

Lemma SFltb_finite_ge (m c : positive) (e ec : Z) :
  ec <= e -> (e = ec -> Z.pos c <= Z.pos m) ->
  SFltb (S754_finite false m e) (S754_finite false c ec) = false.
Proof.
  intros He Hm. unfold SFltb, SFcompare.
  destruct (Z.compare_spec e ec) as [Heq|Hlt|Hgt]; [|lia|reflexivity].
  specialize (Hm Heq).
  change (PosDef.Pos.compare_cont Eq m c) with (Pos.compare m c).
  destruct (Pos.compare_spec m c) as [H1|H1|H1]; [reflexivity | lia | reflexivity].
Qed.

Lemma shl_align_value (mx : positive) (ex ez : Z) :
  ez <= ex -> Z.pos (fst (shl_align mx ex ez)) = Z.pos mx * 2 ^ (ex - ez).
Proof.
  intros Hle. unfold shl_align. destruct (ez - ex) as [|d|d] eqn:E; try lia.
  - replace (ex - ez) with 0 by lia. simpl fst. lia.
  - simpl fst. change (PosDef.Pos.iter xO mx d) with (shift_pos d mx).
    rewrite shift_pos_correct. replace (ex - ez) with (Z.pos d) by lia.
    change (2 ^ Z.pos d) with (Z.pow_pos 2 d). lia.
Qed.

(** Rounding a sum worth ten or more does not give a float below ten. *)
Lemma binary_round_aux_ge_10 (M ez : Z) :
  ez <= -50 -> 10 * 2 ^ (- ez) <= M ->
  SFltb (binary_round_aux prec emax false M ez loc_Exact)
        (S754_finite false 5629499534213120 (-49)) = false.
Proof.
  intros Hez HM.
  assert (Hp : 0 < 2 ^ (- ez)) by (apply Z.pow_pos_nonneg; lia).
  assert (HM0 : 0 < M) by lia.
  destruct (Zdigits2_bounds M HM0) as (Hd & Hlo & Hhi).
  set (d := Zdigits2 M) in *.
  assert (Hd4 : 3 - ez < d).
  { apply Zdigits2_above; [lia|].
    replace (3 - ez) with (3 + - ez) by lia. rewrite Z.pow_add_r by lia.
    change (2 ^ 3) with 8. lia. }
  unfold binary_round_aux.
  (* the first shift *)
  assert (E1 : shr_fexp prec emax M ez loc_Exact
               = (SpecFloat.iter_pos shr_1 (Z.to_pos (d - 53)) (shr_record_of_loc M loc_Exact),
                  ez + (d - 53))).
  { unfold shr_fexp, shr. fold d.
    assert (Ek : fexp prec emax (d + ez) - ez = Z.pos (Z.to_pos (d - 53))).
    { unfold fexp, SpecFloat.emin, prec, emax. rewrite Z2Pos.id by lia. lia. }
    rewrite Ek. rewrite Z2Pos.id by lia. reflexivity. }
  rewrite E1. clear E1.
  set (mrs' := SpecFloat.iter_pos shr_1 (Z.to_pos (d - 53)) (shr_record_of_loc M loc_Exact)).
  assert (Hm' : shr_m mrs' = M / 2 ^ (d - 53)).
  { subst mrs'. rewrite iter_pos_shr_1 by (simpl; lia).
    rewrite Z2Pos.id by lia. reflexivity. }
  set (m' := shr_m mrs') in *.
  set (e' := ez + (d - 53)).
  assert (Hk : 0 < 2 ^ (d - 53)) by (apply Z.pow_pos_nonneg; lia).
  assert (Hm'lo : 2 ^ 52 <= m').
  { rewrite Hm'. apply Z.div_le_lower_bound; [exact Hk|].
    rewrite <- Z.pow_add_r by lia. replace (d - 53 + 52) with (d - 1) by lia. exact Hlo. }
  assert (Hm'hi : m' < 2 ^ 53).
  { rewrite Hm'. apply Z.div_lt_upper_bound; [exact Hk|].
    rewrite <- Z.pow_add_r by lia. replace (d - 53 + 53) with d by lia. exact Hhi. }
  assert (Hm'10 : e' = -49 -> 5629499534213120 <= m').
  { intros He'. rewrite Hm'. apply Z.div_le_lower_bound; [exact Hk|].
    replace (d - 53) with (- ez - 49) by lia.
    change 5629499534213120 with (10 * 2 ^ 49).
    replace (2 ^ (- ez - 49) * (10 * 2 ^ 49)) with (10 * (2 ^ (- ez - 49) * 2 ^ 49)) by ring.
    rewrite <- Z.pow_add_r by lia. replace (- ez - 49 + 49) with (- ez) by lia. exact HM. }
  (* rounding *)
  set (m2 := round_nearest_even m' (loc_of_shr_record mrs')).
  assert (H2lo : m' <= m2) by apply round_nearest_even_ge.
  assert (H2hi : m2 <= m' + 1) by apply round_nearest_even_le.
  assert (Hm2 : 0 < m2) by lia.
  destruct (Zdigits2_bounds m2 Hm2) as (Hd2 & Hlo2 & Hhi2).
  assert (Hd2lo : 52 < Zdigits2 m2) by (apply Zdigits2_above; lia).
  assert (Hd2hi : Zdigits2 m2 <= 54).
  { destruct (Z.le_gt_cases (Zdigits2 m2) 54) as [Hle|Hgt]; [exact Hle|]. exfalso.
    assert (2 ^ 54 <= 2 ^ (Zdigits2 m2 - 1)) by (apply Z.pow_le_mono_r; lia).
    change (2 ^ 54) with (2 * 2 ^ 53) in *. lia. }
  (* the second shift *)
  unfold shr_fexp, shr.
  assert (Hrec : shr_m (shr_record_of_loc m2 loc_Exact) = m2) by reflexivity.
  destruct (Z.eq_dec (Zdigits2 m2) 53) as [E53|N53].
  - assert (Ek : fexp prec emax (Zdigits2 m2 + e') - e' = 0).
    { unfold fexp, SpecFloat.emin, prec, emax. subst e'. lia. }
    rewrite Ek, Hrec.
    destruct m2 as [|p|p]; try lia.
    destruct (e' <=? emax - prec); [|reflexivity].
    apply SFltb_finite_ge; [subst e'; lia|]. intros He'. specialize (Hm'10 He'). lia.
  - assert (E54 : Zdigits2 m2 = 54) by lia.
    assert (Ek : fexp prec emax (Zdigits2 m2 + e') - e' = 1).
    { unfold fexp, SpecFloat.emin, prec, emax. subst e'. lia. }
    rewrite Ek. cbv beta iota.
    change (SpecFloat.iter_pos shr_1 1 (shr_record_of_loc m2 loc_Exact))
      with (shr_1 (shr_record_of_loc m2 loc_Exact)).
    rewrite shr_1_m by (rewrite Hrec; lia).
    rewrite Hrec.
    assert (Hhalf : 0 < m2 / 2).
    { apply Z.div_str_pos. rewrite E54 in Hlo2. change (2 ^ (54 - 1)) with (2 ^ 53) in Hlo2.
      assert (0 < 2 ^ 53) by (apply Z.pow_pos_nonneg; lia). lia. }
    destruct (m2 / 2) as [|p|p]; try lia.
    destruct (e' + 1 <=? emax - prec); [|reflexivity].
    apply SFltb_finite_ge; subst e'; lia.
Qed.

(** In binary64, when [z > 3.0], [7.5 + z] is not below [10.0]. *)
Lemma add_above_cap (z : float) :
  (z >^ of_int 3)%pf = true -> (Py.lit 75 10 +^ z <^ of_int 10)%pf = false.
Proof.
  cbn [flt fadd of_int B64_PyFloat]. intros Hz.
  rewrite FloatAxioms.ltb_spec in Hz. rewrite FloatAxioms.ltb_spec, FloatAxioms.add_spec.
  assert (E3 : Prim2SF (B64.of_int 3) = S754_finite false 6755399441055744 (-51))
    by (vm_compute; reflexivity).
  assert (E10 : Prim2SF (B64.of_int 10) = S754_finite false 5629499534213120 (-49))
    by (vm_compute; reflexivity).
  assert (E75 : Prim2SF (Py.lit 75 10) = S754_finite false 8444249301319680 (-50))
    by (vm_compute; reflexivity).
  rewrite E3 in Hz. rewrite E10, E75.
  pose proof (FloatAxioms.Prim2SF_valid z) as Hv.
  destruct (Prim2SF z) as [s|s| |s m e].
  - discriminate Hz.
  - destruct s; [discriminate Hz | reflexivity].
  - discriminate Hz.
  - destruct s; [discriminate Hz|].
    (* what [z > 3.0] says of the mantissa and the exponent *)
    assert (He : -51 <= e /\ (e = -51 -> 6755399441055744 < Z.pos m)).
    { unfold SFltb, SFcompare in Hz.
      destruct (Z.compare_spec (-51) e) as [Heq|Hlt|Hgt]; [|lia|discriminate Hz].
      split; [lia|]. intros _.
      change (PosDef.Pos.compare_cont Eq 6755399441055744 m)
        with (Pos.compare 6755399441055744 m) in Hz.
      destruct (Pos.compare_spec 6755399441055744 m); try discriminate Hz. lia. }
    destruct He as [He Hm51].
    (* a normal number: fifty-three digits *)
    simpl in Hv. unfold bounded, canonical_mantissa in Hv.
    apply andb_prop in Hv. destruct Hv as [Hc _]. apply Z.eqb_eq in Hc.
    assert (Hdig : Z.pos (digits2_pos m) = 53).
    { unfold fexp, SpecFloat.emin, prec, emax in Hc. lia. }
    pose proof (digits2_pos_bounds m) as [Hmlo _]. rewrite Hdig in Hmlo.
    change (2 ^ (53 - 1)) with 4503599627370496 in Hmlo.
    unfold SF64add, SFadd. cbv zeta. cbn [cond_Zopp].
    set (ez := IntDef.Z.min (-50) e).
    assert (Hez : ez = Z.min (-50) e) by reflexivity. clearbody ez.
    rewrite !shl_align_value by lia.
    set (M := 8444249301319680 * 2 ^ (-50 - ez) + Z.pos m * 2 ^ (e - ez)).
    assert (HM : 10 * 2 ^ (- ez) <= M).
    { subst M. destruct (Z.eq_dec e (-51)) as [->|Hne].
      - specialize (Hm51 eq_refl). replace ez with (-51) by lia.
        change (2 ^ (-50 - -51)) with 2. change (2 ^ (-51 - -51)) with 1.
        change (2 ^ (- -51)) with 2251799813685248. lia.
      - replace ez with (-50) by lia.
        change (2 ^ (-50 - -50)) with 1. change (2 ^ (- -50)) with 1125899906842624.
        assert (1 <= 2 ^ (e - -50)) by (apply Z.lt_pred_le, Z.pow_pos_nonneg; lia).
        nia. }
    assert (HMpos : 0 < M).
    { assert (0 < 2 ^ (- ez)) by (apply Z.pow_pos_nonneg; lia). lia. }
    destruct M as [|p|p] eqn:EM; try lia.
    unfold binary_normalize, binary_round, shl_align.
    assert (Hds : 3 - ez < Zdigits2 (Z.pos p)).
    { apply Zdigits2_above; [lia|].
      replace (3 - ez) with (3 + - ez) by lia. rewrite Z.pow_add_r by lia.
      change (2 ^ 3) with 8. assert (0 < 2 ^ (- ez)) by (apply Z.pow_pos_nonneg; lia). lia. }
    simpl Zdigits2 in Hds.
    destruct (fexp prec emax (Z.pos (digits2_pos p) + ez) - ez) as [|q|q] eqn:Eq.
    + apply binary_round_aux_ge_10; lia.
    + apply binary_round_aux_ge_10; lia.
    + exfalso. unfold fexp, SpecFloat.emin, prec, emax in Eq. lia.
Qed.
End Binary64Sum.

Lemma rate_anomaly_score_b64 (z : float) :
  (z >^ of_int 3)%pf = true ->
  let s := Py.min (of_int 10) (Py.lit 75 10 +^ z)%pf in
  Py.round2 s = s /\ s = 10%float.
Proof.
  intros Hz s.
  assert (Hs : s = of_int 10).
  { subst s. unfold Py.min. rewrite (add_above_cap z Hz). reflexivity. }
  rewrite Hs. split; vm_compute; reflexivity.
Qed.

Lemma rate_anomaly_score_R (z : R) :
  (z >^ of_int 3)%pf = true ->
  let s := Py.min (of_int 10) (Py.lit 75 10 +^ z)%pf in
  Py.round2 s = s /\ s = 10%R.
Proof.
  intros Hz s. apply Rltb_true in Hz. change (of_int 3) with 3%R in Hz.
  assert (Hmin : s = Rmin 10 (75 / 10 + z)) by (subst s; rewrite Py_min_R; reflexivity).
  assert (Hs : s = 10%R) by (rewrite Hmin; apply Rmin_left; lra).
  rewrite Hs. split; [apply (round2_of_int 10) | reflexivity].
Qed.

(** C8.  For a request of an entity, with [window > 0], and whatever the
    floats, so in binary64 as over the reals: let [count] be the in-window
    count of all its requests, this one included, [rate = count / window],
    [model] the rate model of the entity updated with [rate] and
    [z = zscore(rate)] on it, each computed in these floats.  The call
    leaves [model] as the rate model of the entity, and the rate rule raises
    a [rate_anomaly] alert if and only if [z > 3.0] and [count > threshold];
    the alert is [high], its detail is [z=<z:.2f>, rate=<rate:.3f> req/s] and
    its score is [round(min(10.0, 7.5 + z), 2)].  The alerts before it are
    those of the other rules.  Over the reals and in binary64, [z > 3.0]
    puts [7.5 + z] above the cap and rounding to two decimals changes
    nothing: the score is [min(10.0, 7.5 + z)], which is 10.0. *)
Theorem rate_anomaly_alert {F : Type} `{PyFloat F} (h : ThreatHunter F) (clk : Clock F)
    (ip path status : string) :
  ip <> ""%string ->
  0 < window h ->
  let now := time_time clk in
  let count :=
    Z.of_nat (length (_prune_window (window h) (dd_get (events_by_ip h) ip [] ++ [now]) now)) in
  let rate := (of_int count /^ of_int (window h))%pf in
  let model := EWMA_update (dd_get (rate_model h) ip (EWMA_new (ewma_alpha h))) rate in
  let z := EWMA_zscore model rate in
  let h' := ingest_event h (nginx_event (Some ip) path status) clk in
  rate_model h' = <[ip := model]> (rate_model h)
  /\ (exists before,
        emits h h'
          (before
           ++ (if (z >^ of_int 3)%pf && (threshold h <? count)
               then [{| ts := utcnow clk 2; severity := "high"; kind := "rate_anomaly";
                        ip := Some ip;
                        detail := "z=" +:+ Py.fmt_f 2 z +:+ ", rate=" +:+ Py.fmt_f 3 rate
                                  +:+ " req/s";
                        score := Py.round2 (Py.min (of_int 10) (Py.lit 75 10 +^ z)%pf) |}]
               else []))
        /\ Forall (fun a => kind a <> "rate_anomaly"%string) before)
  /\ (forall zr : R, (zr >^ of_int 3)%pf = true ->
        let s := Py.min (of_int 10) (Py.lit 75 10 +^ zr)%pf in
        Py.round2 s = s /\ s = 10%R)
  /\ (forall zf : float, (zf >^ of_int 3)%pf = true ->
        let s := Py.min (of_int 10) (Py.lit 75 10 +^ zf)%pf in
        Py.round2 s = s /\ s = 10%float).
Proof.
  intros Hip Hw now count rate model z h'.
  destruct (ingest_request h (nginx_event (Some ip) path status) clk eq_refl
              (truthy_Some ip Hip)) as (Hrm & Hem).
  cbv zeta in Hrm, Hem. fold h' in Hrm, Hem.
  change (key_of (ev_ip (nginx_event (Some ip) path status))) with ip in Hrm, Hem.
  change (default ""%string (ev_status (nginx_event (Some ip) path status))) with status in Hem.
  change (default ""%string (ev_path (nginx_event (Some ip) path status))) with path in Hem.
  change (ev_ip (nginx_event (Some ip) path status)) with (Some ip) in Hem.
  fold now in Hrm, Hem. fold count in Hrm, Hem.
  rewrite Z.max_l in Hrm, Hem by lia.
  fold rate in Hrm, Hem. fold model in Hrm, Hem. fold z in Hem.
  split; [exact Hrm|].
  split; [|split; [exact rate_anomaly_score_R | exact rate_anomaly_score_b64]].
  rewrite app_assoc in Hem.
  eexists. split; [exact Hem|].
  apply Forall_app. split.
  - destruct (is_suspicious path); repeat constructor. discriminate.
  - destruct (String.eqb status "403") eqn:E3.
    + apply String.eqb_eq in E3. subst status. cbn [orb andb].
      destruct (threshold h <=? _); repeat constructor. discriminate.
    + destruct (String.eqb status "404") eqn:E4; [|repeat constructor].
      apply String.eqb_eq in E4. subst status. cbn [orb andb].
      destruct (threshold h <=? _); repeat constructor. discriminate.
Qed.

(** Window 310, threshold 1, [alpha = 0.07]: two hundred and fifty
    requests of one entity, 311 seconds apart, then one more at the time of
    the last.  In binary64 [z] is 3.0000000000000009 and the alert is
    raised. *)
Lemma rate_anomaly_alert_witness :
  let h := feed (ThreatHunter_new (F := float) 310 1 (Py.lit 7 100))
             (Scenario.requests "7.7.7.7" (map (fun k => 311 * Z.of_nat k) (seq 0 250))) in
  let clk := Scenario.clock (B64.of_int 77439) "2025-09-21T10:12:03" in
  let now := time_time clk in
  let count :=
    Z.of_nat (length (_prune_window (window h)
                        (dd_get (events_by_ip h) "7.7.7.7" [] ++ [now]) now)) in
  let rate := (of_int count /^ of_int (window h))%pf in
  let model := EWMA_update (dd_get (rate_model h) "7.7.7.7" (EWMA_new (ewma_alpha h))) rate in
  let z := EWMA_zscore model rate in
  let h' := ingest_event h (nginx_event (Some "7.7.7.7"%string) "/" "200") clk in
  rate_model h' = <["7.7.7.7"%string := model]> (rate_model h)
  /\ (exists before,
        emits h h'
          (before
           ++ (if (z >^ of_int 3)%pf && (threshold h <? count)
               then [{| ts := utcnow clk 2; severity := "high"; kind := "rate_anomaly";
                        ip := Some "7.7.7.7"%string;
                        detail := "z=" +:+ Py.fmt_f 2 z +:+ ", rate=" +:+ Py.fmt_f 3 rate
                                  +:+ " req/s";
                        score := Py.round2 (Py.min (of_int 10) (Py.lit 75 10 +^ z)%pf) |}]
               else []))
        /\ Forall (fun a => kind a <> "rate_anomaly"%string) before)
  /\ (forall zr : R, (zr >^ of_int 3)%pf = true ->
        let s := Py.min (of_int 10) (Py.lit 75 10 +^ zr)%pf in
        Py.round2 s = s /\ s = 10%R)
  /\ (forall zf : float, (zf >^ of_int 3)%pf = true ->
        let s := Py.min (of_int 10) (Py.lit 75 10 +^ zf)%pf in
        Py.round2 s = s /\ s = 10%float).
Proof.
  intros h clk.
  apply (rate_anomaly_alert h clk "7.7.7.7" "/" "200").
  - discriminate.
  - vm_compute. reflexivity.
Defined.

(** The same step over the reals.  Once the variance has decayed (after 208
    requests at a constant rate it is below [2.9e-7]), the next rate
    [2 / 310] on a mean of [1 / 310] has a z-score of exactly 3: the test
    [z > 3.0] fails and nothing is raised.  The decision is that of the
    floats the engine runs on, which is why C8 is stated for all of them. *)
Lemma zscore_on_the_boundary (m : EWMA R) :
  alpha m = (7 / 100)%R -> mean m = (1 / 310)%R -> initialized m = true ->
  (0 <= var m <= 29 / 100000000)%R ->
  EWMA_zscore (EWMA_update m (2 / 310)%R) (2 / 310)%R = 3%R
  /\ (EWMA_zscore (EWMA_update m (2 / 310)%R) (2 / 310)%R >^ of_int 3)%pf = false.
Proof.
  intros Ha Hm Hi [Hv0 Hv1].
  assert (Hz3 : EWMA_zscore (EWMA_update m (2 / 310)%R) (2 / 310)%R = 3%R).
  { destruct (zscore_divides_by_positive (EWMA_update m (2 / 310)%R) (2 / 310)%R)
      as (_ & _ & Hz).
    rewrite Hz. clear Hz.
    assert (Hu : EWMA_update m (2 / 310)%R
                 = {| alpha := alpha m;
                      mean := (alpha m * (2 / 310) + (1 - alpha m) * mean m)%R;
                      var := (alpha m * ((2 / 310 - mean m) * (2 / 310 - mean m))
                              + (1 - alpha m) * var m)%R;
                      initialized := true |}).
    { unfold EWMA_update. rewrite Hi. reflexivity. }
    rewrite Hu. unfold EWMA_std. cbn [mean var fsqrt R_PyFloat].
    rewrite Py_max_R, lit_R, Ha, Hm.
    assert (Hmax : Rmax (7 / 100 * ((2 / 310 - 1 / 310) * (2 / 310 - 1 / 310))
                         + (1 - 7 / 100) * var m) (1 / 1000000) = (1 / 1000000)%R).
    { apply Rmax_right. lra. }
    rewrite Hmax.
    assert (Hsq : R_sqrt.sqrt (1 / 1000000) = (1 / 1000)%R).
    { apply sqrt_lem_1; lra. }
    rewrite Hsq. lra. }
  split; [exact Hz3|]. rewrite Hz3. apply Rltb_false. cbn. lra.
Qed.

(** The same log, run in binary64: the z-score and the alert. *)
Example scenario_rounding_b64 :
  let h := feed (ThreatHunter_new (F := float) 310 1 (Py.lit 7 100))
             (Scenario.requests "7.7.7.7" (map (fun k => 311 * Z.of_nat k) (seq 0 250))) in
  let clk := Scenario.clock (B64.of_int 77439) "2025-09-21T10:12:03" in
  let m := dd_get (rate_model h) "7.7.7.7" (EWMA_new (ewma_alpha h)) in
  let rate := (of_int 2 /^ of_int 310)%pf in
  let h' := ingest_event h (nginx_event (Some "7.7.7.7"%string) "/" "200") clk in
  EWMA_zscore (EWMA_update m rate) rate = 3.0000000000000009%float
  /\ map (fun a => (kind a, severity a, score a, detail a)) (last_alerts (stats h'))
     = [("rate_anomaly", "high", 10%float, "z=3.00, rate=0.006 req/s")]%string.
Proof. vm_compute. split; reflexivity. Qed.

(** [format(x, '.3f')] and [format(x, '.2f')] in binary64, on rates and
    z-scores. *)
Example fmt_f_b64 :
  map (Py.fmt_f 3) [5; 1 / 300; 2 / 310; 1234.5678; 0.0005]%float
  = ["5.000"; "0.003"; "0.006"; "1234.568"; "0.001"]%string
  /\ map (Py.fmt_f 2) [3.0000000000000009; 0.125; 0.375; -0.001; infinity; nan]%float
     = ["3.00"; "0.12"; "0.38"; "-0.00"; "inf"; "nan"]%string.
Proof. vm_compute. split; reflexivity. Qed.

(** * Further properties of the engine *)

(** ** Invariants of [ingest_event] *)

Section Invariants.
Context {F : Type} `{PyFloat F}.
Implicit Types (self h g : ThreatHunter F) (ev : Event) (clk : Clock F).

(** The rule of [ingest_event]: what every method it calls keeps, on the
    entity of the event, holds after the call when it holds once the event
    is counted. *)
Lemma ingest_event_rule (P : ThreatHunter F -> Prop) ev :
  (forall h status now, P h -> P (_record_request h (ev_ip ev) status now)) ->
  (forall h utc det,
     P h -> P (_alert h utc "medium" "suspicious_path" (ev_ip ev) det (of_int 6))) ->
  (forall h utc status now,
     status = "403"%string \/ status = "404"%string ->
     P h -> P (_check_status_storm h utc (ev_ip ev) status now)) ->
  (forall h utc now, P h -> P (_check_rate_anomaly h utc (ev_ip ev) now)) ->
  (forall h now, P h -> P (_record_failed_login h (key_of (ev_ip ev)) now)) ->
  (forall h utc now, P h -> P (_check_bruteforce h utc (key_of (ev_ip ev)) now)) ->
  forall h clk, P (incr_total_events h) -> P (ingest_event h ev clk).
Proof.
  intros Hrr Hsp Hss Hra Hrf Hbf h clk H1.
  unfold ingest_event.
  set (h1 := incr_total_events h) in *. clearbody h1.
  destruct (String.eqb (ev_type ev) "nginx").
  - apply Hra.
    set (h2 := _record_request h1 _ _ _).
    assert (H2 : P h2) by (apply Hrr; exact H1). clearbody h2.
    set (h3 := if is_suspicious _ then _ else h2).
    assert (H3 : P h3) by (subst h3; destruct (is_suspicious _); auto). clearbody h3.
    destruct (String.eqb (default ""%string (ev_status ev)) "403") eqn:E3.
    + apply String.eqb_eq in E3. rewrite E3. apply Hss; auto.
    + destruct (String.eqb (default ""%string (ev_status ev)) "404") eqn:E4; [|exact H3].
      apply String.eqb_eq in E4. rewrite E4. apply Hss; auto.
  - destruct (String.eqb (ev_type ev) "syslog"); [|exact H1].
    destruct (_ && _); [apply Hbf, Hrf; exact H1|].
    destruct (_ && _); [apply Hrr; exact H1 | exact H1].
Qed.

(** What every method called by [ingest_event] keeps, [ingest_event]
    keeps. *)
Lemma ingest_event_invariant (P : ThreatHunter F -> Prop) :
  (forall h, P h -> P (incr_total_events h)) ->
  (forall h ip status now, P h -> P (_record_request h ip status now)) ->
  (forall h utc ip det,
     P h -> P (_alert h utc "medium" "suspicious_path" ip det (of_int 6))) ->
  (forall h utc ip status now,
     status = "403"%string \/ status = "404"%string ->
     P h -> P (_check_status_storm h utc ip status now)) ->
  (forall h utc ip now, P h -> P (_check_rate_anomaly h utc ip now)) ->
  (forall h ip now, P h -> P (_record_failed_login h ip now)) ->
  (forall h utc ip now, P h -> P (_check_bruteforce h utc ip now)) ->
  forall h ev clk, P h -> P (ingest_event h ev clk).
Proof.
  intros Hte Hrr Hsp Hss Hra Hrf Hbf h ev clk Hh.
  apply ingest_event_rule; auto.
Qed.

Lemma feed_invariant (P : ThreatHunter F -> Prop) :
  (forall h ev clk, P h -> P (ingest_event h ev clk)) ->
  forall evs h, P h -> P (feed h evs).
Proof.
  intros Hstep evs. induction evs as [|[ev clk] evs IH]; intros h Hh; [exact Hh|].
  apply IH. apply Hstep. exact Hh.
Qed.

(** *** The bounded history *)

Lemma deque_append_length {A} (n : nat) (dq : list A) (a : A) :
  (0 < n)%nat -> (length dq <= n)%nat ->
  length (deque_append n dq a) = Nat.min (S (length dq)) n.
Proof.
  intros Hn Hle. unfold deque_append.
  destruct (n <=? length dq)%nat eqn:E.
  - apply Nat.leb_le in E. rewrite length_drop, length_app.
    change (length [a]) with 1%nat. lia.
  - apply Nat.leb_gt in E. rewrite length_app. change (length [a]) with 1%nat. lia.
Qed.

(** The methods that raise an alert raise it through [_alert]; what
    [_alert] keeps of the statistics, they keep. *)
Lemma alert_methods_invariant (Q : Stats F -> Prop) :
  (forall s a,
     Q s ->
     Q {| total_lines := total_lines s; total_events := total_events s;
          total_alerts := total_alerts s + 1; per_ip_count := per_ip_count s;
          last_alerts := deque_append 100 (last_alerts s) a |}) ->
  (forall h utc sev knd ip det sc, Q (stats h) -> Q (stats (_alert h utc sev knd ip det sc)))
  /\ (forall h utc ip status now,
        Q (stats h) -> Q (stats (_check_status_storm h utc ip status now)))
  /\ (forall h utc ip now, Q (stats h) -> Q (stats (_check_rate_anomaly h utc ip now)))
  /\ (forall h utc ip now, Q (stats h) -> Q (stats (_check_bruteforce h utc ip now))).
Proof.
  intros HQ.
  assert (Hal : forall h utc sev knd ip det sc,
            Q (stats h) -> Q (stats (_alert h utc sev knd ip det sc))).
  { intros. unfold _alert. apply HQ. assumption. }
  split; [exact Hal|]. split; [|split].
  - intros h utc ip status now Hh. unfold _check_status_storm.
    repeat case_if; try exact Hh; apply Hal; exact Hh.
  - intros h utc ip now Hh. unfold _check_rate_anomaly.
    repeat case_if; try exact Hh; apply Hal; exact Hh.
  - intros h utc ip now Hh. unfold _check_bruteforce.
    repeat case_if; try exact Hh; apply Hal; exact Hh.
Qed.

(** A property of the alert count and history that [_alert] keeps is kept
    by [ingest_event]. *)
Lemma ingest_event_alerts_invariant (Q : Z -> list (Alert F) -> Prop) :
  (forall n l a, Q n l -> Q (n + 1) (deque_append 100 l a)) ->
  forall h ev clk,
    Q (total_alerts (stats h)) (last_alerts (stats h)) ->
    Q (total_alerts (stats (ingest_event h ev clk))) (last_alerts (stats (ingest_event h ev clk))).
Proof.
  intros HQ.
  destruct (alert_methods_invariant (fun s => Q (total_alerts s) (last_alerts s)))
    as (Hal & Hss & Hra & Hbf).
  { intros s a Hs. apply HQ. exact Hs. }
  apply (ingest_event_invariant
           (fun h => Q (total_alerts (stats h)) (last_alerts (stats h)))); auto.
  intros h ip status now Hh. unfold _record_request. case_if; exact Hh.
Qed.

(** X1.  The alert history never exceeds 100 entries: an engine whose
    history holds at most 100 alerts still does after any sequence of
    events. *)
Theorem history_bounded h (evs : list (Event * Clock F)) :
  (length (last_alerts (stats h)) <= 100)%nat ->
  (length (last_alerts (stats (feed h evs))) <= 100)%nat.
Proof.
  revert h. apply (feed_invariant (fun h => (length (last_alerts (stats h)) <= 100)%nat)).
  intros h ev clk Hh.
  apply (ingest_event_alerts_invariant (fun _ l => (length l <= 100)%nat)); [|exact Hh].
  intros _ l a Hl. rewrite deque_append_length by lia. lia.
Qed.

(** X2.  From a new engine on, the history holds the last
    [min(total_alerts, 100)] alerts: its length is the number of alerts
    raised so far, capped at 100. *)
Theorem history_length (window threshold : Z) (ewma_alpha : F) (evs : list (Event * Clock F)) :
  let h := feed (ThreatHunter_new window threshold ewma_alpha) evs in
  Z.of_nat (length (last_alerts (stats h))) = Z.min (total_alerts (stats h)) 100.
Proof.
  cbv zeta.
  apply (feed_invariant
           (fun h => Z.of_nat (length (last_alerts (stats h)))
                     = Z.min (total_alerts (stats h)) 100)); [|reflexivity].
  intros h ev clk Hh.
  apply (ingest_event_alerts_invariant (fun n l => Z.of_nat (length l) = Z.min n 100));
    [|exact Hh].
  intros n l a Hl. rewrite deque_append_length by lia. lia.
Qed.

End Invariants.

Lemma history_bounded_witness :
  let h := Scenario.hunter (F := float) 60 3 in
  let evs := failed_logins "1.2.3.4"
               (map (fun t => Scenario.clock t "2025-09-21T10:12:00") [0; 1; 2; 3]%float) in
  (length (last_alerts (stats (feed h evs))) <= 100)%nat.
Proof.
  intros h evs. apply (history_bounded h evs). simpl. lia.
Defined.

(** ** One event touches one entity *)

Section Isolation.
Context {F : Type} `{PyFloat F}.
Implicit Types (self h g : ThreatHunter F) (ev : Event) (clk : Clock F).

Lemma other_entities_kept_refl k h : other_entities_kept k h h.
Proof. intros k' _. repeat split. Qed.

Lemma other_entities_kept_trans k h1 h2 h3 :
  other_entities_kept k h1 h2 -> other_entities_kept k h2 h3 -> other_entities_kept k h1 h3.
Proof.
  intros H12 H23 k' Hk.
  destruct (H12 k' Hk) as (A1 & A2 & A3 & A4 & A5).
  destruct (H23 k' Hk) as (B1 & B2 & B3 & B4 & B5).
  rewrite B1, B2, B3, B4, B5. repeat split; assumption.
Qed.

Lemma dict_get_incr_ne (k k' : string) (d : list (string * Z)) :
  k' <> k -> dict_get k' (dict_incr k d) = dict_get k' d.
Proof.
  intros Hk. rewrite dict_get_incr.
  destruct (String.eqb k' k) eqn:E; [|reflexivity].
  apply String.eqb_eq in E. contradiction.
Qed.

(** Each method writes under its entity only, and keeps the
    configuration. *)
Lemma alert_isolated k h utc sev knd ip det sc :
  other_entities_kept k h (_alert h utc sev knd ip det sc)
  /\ same_config h (_alert h utc sev knd ip det sc).
Proof. split; [intros k' _|]; repeat split. Qed.

Lemma record_request_isolated h ip status now :
  other_entities_kept (key_of ip) h (_record_request h ip status now)
  /\ same_config h (_record_request h ip status now).
Proof.
  unfold _record_request. destruct (negb (truthy ip)).
  - split; [apply other_entities_kept_refl | apply same_config_refl].
  - split; [|repeat split]. intros k' Hk.
    cbn [events_by_ip status_by_ip failed_logins_by_ip rate_model stats per_ip_count
         set_status_by_ip set_stats set_events_by_ip].
    rewrite !lookup_insert_ne by congruence.
    rewrite dict_get_incr_ne by assumption. repeat split.
Qed.

Lemma check_status_storm_isolated h utc ip status now :
  other_entities_kept (key_of ip) h (_check_status_storm h utc ip status now)
  /\ same_config h (_check_status_storm h utc ip status now).
Proof.
  unfold _check_status_storm. destruct (negb (truthy ip)).
  - split; [apply other_entities_kept_refl | apply same_config_refl].
  - cbv zeta. case_if.
    + split; [|repeat split]. intros k' Hk.
      cbn [events_by_ip status_by_ip failed_logins_by_ip rate_model stats per_ip_count
           set_status_by_ip set_stats _alert].
      rewrite !lookup_insert_ne by congruence. repeat split.
    + split; [|repeat split]. intros k' Hk.
      cbn [events_by_ip status_by_ip failed_logins_by_ip rate_model stats per_ip_count
           set_status_by_ip].
      rewrite !lookup_insert_ne by congruence. repeat split.
Qed.

Lemma check_rate_anomaly_isolated h utc ip now :
  other_entities_kept (key_of ip) h (_check_rate_anomaly h utc ip now)
  /\ same_config h (_check_rate_anomaly h utc ip now).
Proof.
  unfold _check_rate_anomaly. destruct (negb (truthy ip)).
  - split; [apply other_entities_kept_refl | apply same_config_refl].
  - cbv zeta. case_if.
    + split; [|repeat split]. intros k' Hk.
      cbn [events_by_ip status_by_ip failed_logins_by_ip rate_model stats per_ip_count
           set_events_by_ip set_rate_model set_stats _alert].
      rewrite !lookup_insert_ne by congruence. repeat split.
    + split; [|repeat split]. intros k' Hk.
      cbn [events_by_ip status_by_ip failed_logins_by_ip rate_model stats per_ip_count
           set_events_by_ip set_rate_model].
      rewrite !lookup_insert_ne by congruence. repeat split.
Qed.

Lemma record_failed_login_isolated h k now :
  other_entities_kept k h (_record_failed_login h k now)
  /\ same_config h (_record_failed_login h k now).
Proof.
  unfold _record_failed_login. split; [|repeat split]. intros k' Hk.
  cbn [events_by_ip status_by_ip failed_logins_by_ip rate_model stats per_ip_count
       set_failed_logins_by_ip].
  rewrite !lookup_insert_ne by congruence. repeat split.
Qed.

Lemma check_bruteforce_isolated h utc k now :
  other_entities_kept k h (_check_bruteforce h utc k now)
  /\ same_config h (_check_bruteforce h utc k now).
Proof.
  unfold _check_bruteforce. cbv zeta. case_if.
  - split; [|repeat split]. intros k' Hk.
    cbn [events_by_ip status_by_ip failed_logins_by_ip rate_model stats per_ip_count
         set_failed_logins_by_ip set_stats _alert].
    rewrite !lookup_insert_ne by congruence. repeat split.
  - split; [|repeat split]. intros k' Hk.
    cbn [events_by_ip status_by_ip failed_logins_by_ip rate_model stats per_ip_count
         set_failed_logins_by_ip].
    rewrite !lookup_insert_ne by congruence. repeat split.
Qed.

Lemma ingest_event_frame h ev clk :
  let h' := ingest_event h ev clk in
  other_entities_kept (key_of (ev_ip ev)) h h' /\ same_config h h'.
Proof.
  cbv zeta.
  set (k := key_of (ev_ip ev)).
  assert (Hstep : forall g g',
            other_entities_kept k g g' /\ same_config g g' ->
            other_entities_kept k h g /\ same_config h g ->
            other_entities_kept k h g' /\ same_config h g').
  { intros g g' [K1 C1] [K2 C2]. split.
    - apply (other_entities_kept_trans k h g g'); assumption.
    - apply (same_config_trans h g g'); assumption. }
  apply (ingest_event_rule
           (fun g => other_entities_kept k h g /\ same_config h g) ev).
  - intros g status now. apply Hstep, record_request_isolated.
  - intros g utc det. apply Hstep, alert_isolated.
  - intros g utc status now _. apply Hstep, check_status_storm_isolated.
  - intros g utc now. apply Hstep, check_rate_anomaly_isolated.
  - intros g now. apply Hstep, record_failed_login_isolated.
  - intros g utc now. apply Hstep, check_bruteforce_isolated.
  - split; [intros k' _|]; repeat split.
Qed.

(** X3.  One event touches one entity.  Whatever the event and the state
    of the engine, [ingest_event] leaves to every entity other than the one
    of the event its request counter, its per-status counters, its
    failed-login counter, its rate model and its lifetime count, and it
    leaves the configuration ([window], [threshold], [ewma_alpha]) as it
    is.  So a sequence of events none of which is of the entity [k] leaves
    everything the engine holds for [k] as it was. *)
Theorem ingest_event_isolation h ev clk (evs : list (Event * Clock F)) (k : string) :
  let h' := ingest_event h ev clk in
  other_entities_kept (key_of (ev_ip ev)) h h'
  /\ same_config h h'
  /\ (Forall (fun ec => key_of (ev_ip ec.1) <> k) evs ->
      events_by_ip (feed h evs) !! k = events_by_ip h !! k
      /\ status_by_ip (feed h evs) !! k = status_by_ip h !! k
      /\ failed_logins_by_ip (feed h evs) !! k = failed_logins_by_ip h !! k
      /\ rate_model (feed h evs) !! k = rate_model h !! k
      /\ dict_get k (per_ip_count (stats (feed h evs))) = dict_get k (per_ip_count (stats h))).
Proof.
  cbv zeta. destruct (ingest_event_frame h ev clk) as [Hkept Hcfg].
  split; [exact Hkept|]. split; [exact Hcfg|]. clear Hkept Hcfg.
  revert h. induction evs as [|[ev' clk'] evs IH]; intros h Hall; [repeat split|].
  inversion Hall as [|? ? Hk Hall']; subst. cbn [fst] in Hk.
  change (feed h ((ev', clk') :: evs)) with (feed (ingest_event h ev' clk') evs).
  destruct (IH (ingest_event h ev' clk') Hall') as (A1 & A2 & A3 & A4 & A5).
  destruct (ingest_event_frame h ev' clk') as [Hkept _].
  destruct (Hkept k) as (B1 & B2 & B3 & B4 & B5); [congruence|].
  rewrite A1, A2, A3, A4, A5. repeat split; assumption.
Qed.
End Isolation.

(** ** The suspicious-path rule *)

Lemma prefix_spec (s p : string) :
  String.prefix s p = true <-> exists b, p = s +:+ b.
Proof.
  revert p. induction s as [|c s IH]; intros p.
  - split; [intros _; exists p; reflexivity|]. intros _. destruct p; reflexivity.
  - destruct p as [|c' p]; simpl.
    + split; [discriminate|]. intros [b Hb]. discriminate.
    + destruct (ascii_dec c c') as [->|Hne].
      * rewrite IH. split; intros [b Hb]; exists b.
        -- rewrite Hb. reflexivity.
        -- injection Hb as Hb. exact Hb.
      * split; [discriminate|]. intros [b Hb]. injection Hb as Hc _.
        symmetry in Hc. contradiction.
Qed.

(** [susp in path] holds exactly when [susp] occurs in [path]. *)
Lemma str_in_spec (s p : string) :
  str_in s p = true <-> exists a b, p = a +:+ s +:+ b.
Proof.
  induction p as [|c p IH].
  - change (str_in s "") with (String.prefix s "" || false).
    rewrite orb_false_r, prefix_spec. split.
    + intros [b Hb]. exists ""%string, b. exact Hb.
    + intros (a & b & Hab). destruct a as [|c a]; [exists b; exact Hab | discriminate].
  - change (str_in s (String c p)) with (String.prefix s (String c p) || str_in s p).
    rewrite orb_true_iff, prefix_spec, IH. split.
    + intros [[b Hb] | (a & b & Hab)].
      * exists ""%string, b. exact Hb.
      * exists (String c a), b. rewrite Hab. reflexivity.
    + intros (a & b & Hab). destruct a as [|c' a].
      * left. exists b. exact Hab.
      * right. exists a, b. injection Hab as _ Hab. exact Hab.
Qed.

Lemma is_suspicious_spec (path : string) :
  is_suspicious path = true
  <-> exists susp a b, In susp SUSPICIOUS_PATHS /\ path = a +:+ susp +:+ b.
Proof.
  unfold is_suspicious. rewrite existsb_exists. split.
  - intros (susp & Hin & Hs). apply str_in_spec in Hs. destruct Hs as (a & b & Hab).
    exists susp, a, b. split; assumption.
  - intros (susp & a & b & Hin & Hab). exists susp. split; [exact Hin|].
    apply str_in_spec. exists a, b. exact Hab.
Qed.

Section Cases.
Context {F : Type} `{PyFloat F}.
Implicit Types (self h g : ThreatHunter F) (ev : Event) (clk : Clock F).
Local Open Scope pyfloat_scope.

Lemma check_status_storm_falsy h utc ip status now :
  truthy ip = false -> _check_status_storm h utc ip status now = h.
Proof. intros Hip. unfold _check_status_storm. rewrite Hip. reflexivity. Qed.

Lemma check_rate_anomaly_falsy h utc ip now :
  truthy ip = false -> _check_rate_anomaly h utc ip now = h.
Proof. intros Hip. unfold _check_rate_anomaly. rewrite Hip. reflexivity. Qed.

Lemma opt_eqb_eq (o : option string) (s : string) : opt_eqb o s = true -> o = Some s.
Proof.
  destruct o as [x|]; simpl; [|discriminate].
  intros E. apply String.eqb_eq in E. subst x. reflexivity.
Qed.

(** The branches of [ingest_event]. *)
Lemma ingest_event_cases h ev clk :
  let h1 := incr_total_events h in
  let now := time_time clk in
  let path := default ""%string (ev_path ev) in
  (ev_type ev = "nginx"%string /\ truthy (ev_ip ev) = true)
  \/ (ev_type ev = "nginx"%string /\ truthy (ev_ip ev) = false
      /\ ingest_event h ev clk
         = if is_suspicious path
           then _alert h1 (utcnow clk 0) "medium" "suspicious_path" (ev_ip ev)
                  ("path=" +:+ path) (of_int 6)
           else h1)
  \/ (ev_type ev = "syslog"%string /\ ev_event ev = Some "failed_login"%string
      /\ truthy (ev_ip ev) = true
      /\ ingest_event h ev clk
         = _check_bruteforce (_record_failed_login h1 (key_of (ev_ip ev)) now)
             (utcnow clk 0) (key_of (ev_ip ev)) now)
  \/ (ev_type ev = "syslog"%string /\ ev_event ev = Some "accepted_login"%string
      /\ truthy (ev_ip ev) = true
      /\ ingest_event h ev clk = _record_request h1 (ev_ip ev) "200" now)
  \/ (ev_type ev <> "nginx"%string /\ counted_request ev = false
      /\ is_failed_login ev = false /\ ingest_event h ev clk = h1).
Proof.
  intros h1 now path.
  destruct (String.eqb (ev_type ev) "nginx") eqn:Hty.
  - apply String.eqb_eq in Hty.
    destruct (truthy (ev_ip ev)) eqn:Hip; [left; split; [exact Hty | reflexivity]|].
    right. left. split; [exact Hty|]. split; [reflexivity|].
    unfold ingest_event. rewrite Hty.
    change (String.eqb "nginx" "nginx") with true. cbv iota. cbv zeta.
    rewrite check_rate_anomaly_falsy by exact Hip.
    rewrite record_request_falsy by exact Hip.
    fold h1. fold path.
    destruct (_ || _); [|reflexivity].
    apply check_status_storm_falsy. exact Hip.
  - assert (Hne : ev_type ev <> "nginx"%string).
    { intros E. rewrite E in Hty. discriminate. }
    unfold ingest_event, counted_request, is_failed_login. rewrite Hty. fold h1. fold now.
    destruct (String.eqb (ev_type ev) "syslog") eqn:Hsy.
    + apply String.eqb_eq in Hsy.
      destruct (opt_eqb (ev_event ev) "failed_login") eqn:Hfl.
      * apply opt_eqb_eq in Hfl.
        destruct (truthy (ev_ip ev)) eqn:Hip.
        -- right. right. left. split; [exact Hsy|]. split; [exact Hfl|].
           split; reflexivity.
        -- right. right. right. right. split; [exact Hne|].
           rewrite !andb_false_r. repeat split.
      * rewrite andb_false_l.
        destruct (opt_eqb (ev_event ev) "accepted_login") eqn:Hacc.
        -- apply opt_eqb_eq in Hacc.
           destruct (truthy (ev_ip ev)) eqn:Hip.
           ++ right. right. right. left. split; [exact Hsy|]. split; [exact Hacc|].
              split; reflexivity.
           ++ right. right. right. right. split; [exact Hne|]. repeat split.
        -- right. right. right. right. split; [exact Hne|].
           rewrite !andb_false_l, !andb_false_r. repeat split.
    + right. right. right. right. split; [exact Hne|].
      rewrite !andb_false_l, !andb_false_r. repeat split.
Qed.

Lemma emits_incr_total_events h : emits h (incr_total_events h) [].
Proof. apply emits_nil; reflexivity. Qed.

(** X4.  The suspicious-path rule.  A request raises one
    [suspicious_path] alert, [medium], with the entity of the request (which
    may be missing), detail [path=<path>] and score [round(6.0, 2)], which is
    6.0 over the reals and in binary64, exactly when its
    path holds one of [SUSPICIOUS_PATHS] as a substring; the status and the
    entity play no part, and the alert comes before those of the other rules
    of the call.  No other alert of any call has the kind
    [suspicious_path]: an event that is not a request raises none. *)
Theorem suspicious_path_rule h ev clk :
  let path := default ""%string (ev_path ev) in
  let hit := String.eqb (ev_type ev) "nginx" && is_suspicious path in
  (hit = true
   <-> ev_type ev = "nginx"%string
       /\ exists susp a b, In susp SUSPICIOUS_PATHS /\ path = (a +:+ susp +:+ b)%string)
  /\ exists others,
       emits h (ingest_event h ev clk)
         ((if hit
           then [{| ts := utcnow clk 0; severity := "medium"; kind := "suspicious_path";
                    ip := ev_ip ev; detail := "path=" +:+ path;
                    score := Py.round2 (of_int 6) |}]
           else []) ++ others)
       /\ Forall (fun a => kind a <> "suspicious_path"%string) others
       /\ Py.round2 (F := R) (of_int 6) = 6%R
       /\ Py.round2 (F := float) (of_int 6) = 6%float.
Proof.
  intros path hit. split.
  { subst hit. rewrite andb_true_iff, String.eqb_eq, is_suspicious_spec. reflexivity. }
  assert (Hsix : Py.round2 (F := R) (of_int 6) = 6%R
                 /\ Py.round2 (F := float) (of_int 6) = 6%float).
  { split; [apply (round2_of_int 6) | vm_compute; reflexivity]. }
  assert (Hgoal : (exists others,
       emits h (ingest_event h ev clk)
         ((if hit
           then [{| ts := utcnow clk 0; severity := "medium"; kind := "suspicious_path";
                    ip := ev_ip ev; detail := "path=" +:+ path;
                    score := Py.round2 (of_int 6) |}]
           else []) ++ others)
       /\ Forall (fun a => kind a <> "suspicious_path"%string) others));
    [|destruct Hgoal as (others & Hem & Hall); exists others; split; [exact Hem|];
      split; [exact Hall | exact Hsix]].
  clear Hsix.
  destruct (ingest_event_cases h ev clk) as [[Hty Hip] | [(Hty & Hip & Heq) | [(Hty & Hev & Hip & _)
    | [(Hty & Hev & Hip & Heq) | (Hty & _ & _ & Heq)]]]]; cbv zeta in *.
  - (* a request of an entity *)
    destruct (ingest_request h ev clk Hty Hip) as (_ & Hem). cbv zeta in Hem.
    fold path in Hem.
    assert (Hhit : hit = is_suspicious path).
    { subst hit. rewrite Hty. reflexivity. }
    rewrite Hhit. eexists. split; [exact Hem|].
    apply Forall_app. split.
    + destruct (String.eqb (default ""%string (ev_status ev)) "403") eqn:E3.
      * apply String.eqb_eq in E3. rewrite E3. cbn [orb andb].
        case_if; repeat constructor. discriminate.
      * destruct (String.eqb (default ""%string (ev_status ev)) "404") eqn:E4;
          [|repeat constructor].
        apply String.eqb_eq in E4. rewrite E4. cbn [orb andb].
        case_if; repeat constructor. discriminate.
    + case_if; repeat constructor. discriminate.
  - (* a request without entity *)
    assert (Hhit : hit = is_suspicious path).
    { subst hit. rewrite Hty. reflexivity. }
    rewrite Hhit, Heq. fold path. exists []. split; [|constructor].
    rewrite app_nil_r. destruct (is_suspicious path).
    + apply (emits_app h (incr_total_events h) _ [] _ (emits_incr_total_events h)).
      apply emits_alert.
    + apply emits_incr_total_events.
  - (* a failed login *)
    destruct (ingest_failed_login h ev clk Hty Hev Hip) as (_ & _ & Hem). cbv zeta in Hem.
    assert (Hhit : hit = false) by (subst hit; rewrite Hty; reflexivity).
    rewrite Hhit. eexists. split; [exact Hem|].
    case_if; repeat constructor. discriminate.
  - (* an accepted login *)
    assert (Hhit : hit = false) by (subst hit; rewrite Hty; reflexivity).
    rewrite Hhit, Heq. exists []. split; [|constructor].
    destruct (record_request_effect (incr_total_events h) (ev_ip ev) "200" (time_time clk) Hip)
      as (_ & _ & _ & _ & _ & Hem).
    apply (emits_app h (incr_total_events h) _ [] [] (emits_incr_total_events h) Hem).
  - assert (Hhit : hit = false).
    { subst hit. destruct (String.eqb (ev_type ev) "nginx") eqn:E; [|reflexivity].
      apply String.eqb_eq in E. contradiction. }
    rewrite Hhit, Heq. exists []. split; [|constructor]. apply emits_incr_total_events.
Qed.
End Cases.

(** ** The rate model: how far an observation can be from the mean *)

Section RealModel.
Local Open Scope R_scope.
Implicit Types (m : EWMA R) (x : R).

Lemma EWMA_std_sqr m : EWMA_std m * EWMA_std m = Rmax (var m) (1 / 1000000).
Proof.
  unfold EWMA_std. cbn [fsqrt R_PyFloat]. rewrite Py_max_R, lit_R.
  apply sqrt_sqrt. pose proof (Rmax_r (var m) (1 / 1000000)). lra.
Qed.

Lemma zscore_first_update m x :
  initialized m = false -> EWMA_zscore (EWMA_update m x) x = 0.
Proof.
  intros Hi.
  destruct (zscore_divides_by_positive (EWMA_update m x) x) as (_ & _ & Hz).
  rewrite Hz. unfold EWMA_update. rewrite Hi. cbn [mean].
  unfold Rdiv. rewrite Rminus_diag. apply Rmult_0_l.
Qed.

Lemma zscore_update_sq m x :
  0 < alpha m <= 1 ->
  0 <= var m ->
  let z := EWMA_zscore (EWMA_update m x) x in
  alpha m * (z * z) <= (1 - alpha m) * (1 - alpha m).
Proof.
  intros [Ha0 Ha1] Hv z.
  destruct (initialized m) eqn:Hi.
  - destruct (zscore_divides_by_positive (EWMA_update m x) x) as (Hs & _ & Hz).
    fold z in Hz.
    pose proof (EWMA_std_sqr (EWMA_update m x)) as Hsq.
    set (s := EWMA_std (EWMA_update m x)) in *.
    assert (Hzs : z * s = x - mean (EWMA_update m x)).
    { rewrite Hz. field. lra. }
    assert (Hmean : x - mean (EWMA_update m x) = (1 - alpha m) * (x - mean m)).
    { unfold EWMA_update. rewrite Hi. cbn. ring. }
    assert (Hvar : alpha m * ((x - mean m) * (x - mean m)) <= s * s).
    { rewrite Hsq.
      apply Rle_trans with (var (EWMA_update m x)); [|apply Rmax_l].
      unfold EWMA_update. rewrite Hi. cbn.
      assert (0 <= (1 - alpha m) * var m) by (apply Rmult_le_pos; lra). lra. }
    rewrite Hmean in Hzs.
    assert (Hss : 0 < s * s) by (apply Rmult_lt_0_compat; exact Hs).
    apply (Rmult_le_reg_r (s * s)); [exact Hss|].
    replace (alpha m * (z * z) * (s * s)) with (alpha m * ((z * s) * (z * s))) by ring.
    rewrite Hzs.
    replace (alpha m * ((1 - alpha m) * (x - mean m) * ((1 - alpha m) * (x - mean m))))
      with ((1 - alpha m) * (1 - alpha m) * (alpha m * ((x - mean m) * (x - mean m))))
      by ring.
    apply Rmult_le_compat_l; [|exact Hvar].
    apply Rle_0_sqr.
  - subst z. rewrite (zscore_first_update m x Hi). rewrite Rmult_0_l, Rmult_0_r.
    apply Rle_0_sqr.
Qed.

Lemma square_bound_le_3 (a z : R) :
  0 < a -> a * (z * z) <= (1 - a) * (1 - a) -> (1 - a) * (1 - a) <= 9 * a -> z <= 3.
Proof.
  intros Ha Hsq H9.
  destruct (Rle_dec z 3) as [Hle|Hgt]; [exact Hle|]. exfalso.
  assert (Hz3 : 3 < z) by lra.
  assert (Hzz : 9 < z * z) by nra.
  assert (a * 9 < a * (z * z)) by (apply Rmult_lt_compat_l; lra).
  lra.
Qed.

(** X5.  The z-score [_check_rate_anomaly] reads is the one of the
    observation the model was just updated with.  For [alpha] in (0, 1] and
    a variance that is not negative, that z-score [z] satisfies
    [alpha * z^2 <= (1 - alpha)^2]: it is 0 on the first observation, and
    never above [(1 - alpha) / sqrt(alpha)].  So when
    [(1 - alpha)^2 <= 9 * alpha], which holds from [alpha = 0.0917] up and
    for the default 0.3, it is never above 3. *)
Theorem zscore_after_update m x :
  0 < alpha m <= 1 ->
  0 <= var m ->
  let z := EWMA_zscore (EWMA_update m x) x in
  alpha m * (z * z) <= (1 - alpha m) * (1 - alpha m)
  /\ (initialized m = false -> z = 0)
  /\ ((1 - alpha m) * (1 - alpha m) <= 9 * alpha m -> z <= 3).
Proof.
  intros Ha Hv z.
  pose proof (zscore_update_sq m x Ha Hv) as Hsq. cbv zeta in Hsq. fold z in Hsq.
  split; [exact Hsq|]. split.
  - intros Hi. subst z. apply zscore_first_update. exact Hi.
  - intros H9. apply (square_bound_le_3 (alpha m)); [lra | exact Hsq | exact H9].
Qed.

Lemma zscore_after_update_witness :
  let m := EWMA_update (EWMA_new (3 / 10)) 1 in
  let z := EWMA_zscore (EWMA_update m 2) 2 in
  alpha m * (z * z) <= (1 - alpha m) * (1 - alpha m)
  /\ (initialized m = false -> z = 0)
  /\ ((1 - alpha m) * (1 - alpha m) <= 9 * alpha m -> z <= 3).
Proof.
  apply (zscore_after_update (EWMA_update (EWMA_new (3 / 10)) 1) 2).
  - simpl. lra.
  - simpl. lra.
Defined.

(** X6.  The mean stays within the observations.  For [alpha] in [0, 1],
    when the observations lie in [lo, hi], and so does the mean of a model
    that has seen some, the mean after the updates lies in [lo, hi]. *)
Theorem EWMA_mean_in_range (xs : list R) (lo hi : R) : forall m,
  0 <= alpha m <= 1 ->
  Forall (fun x => lo <= x <= hi) xs ->
  (if initialized m then lo <= mean m <= hi else xs <> []) ->
  let m' := fold_left EWMA_update xs m in
  initialized m' = true /\ lo <= mean m' <= hi.
Proof.
  induction xs as [|x xs IH]; intros m Ha Hxs Hm.
  - cbv zeta. simpl. destruct (initialized m); [split; [reflexivity | exact Hm]|].
    contradiction.
  - cbv zeta. simpl fold_left. inversion Hxs as [|? ? Hx Hxs']; subst.
    apply IH; [rewrite EWMA_update_alpha; exact Ha | exact Hxs' |].
    assert (Hi : initialized (EWMA_update m x) = true).
    { unfold EWMA_update. destruct (initialized m); reflexivity. }
    rewrite Hi.
    unfold EWMA_update. destruct (initialized m); cbn [mean]; [|exact Hx].
    cbn.
    assert (0 <= alpha m * (x - lo)) by (apply Rmult_le_pos; lra).
    assert (0 <= (1 - alpha m) * (mean m - lo)) by (apply Rmult_le_pos; lra).
    assert (0 <= alpha m * (hi - x)) by (apply Rmult_le_pos; lra).
    assert (0 <= (1 - alpha m) * (hi - mean m)) by (apply Rmult_le_pos; lra).
    lra.
Qed.

Lemma EWMA_mean_in_range_witness :
  let m' := fold_left EWMA_update [1; 3; 2] (EWMA_new (3 / 10)) in
  initialized m' = true /\ 1 <= mean m' <= 3.
Proof.
  apply (EWMA_mean_in_range [1; 3; 2] 1 3 (EWMA_new (3 / 10))).
  - simpl. lra.
  - repeat constructor; lra.
  - simpl. discriminate.
Defined.
End RealModel.

(** ** The rate rule and the smoothing factor *)

Lemma deque_append_Forall {A} (P : A -> Prop) (n : nat) (l : list A) (a : A) :
  Forall P l -> P a -> Forall P (deque_append n l a).
Proof.
  intros Hl Ha. unfold deque_append.
  assert (Hall : Forall P (l ++ [a])) by (apply Forall_app; split; [exact Hl | repeat constructor; exact Ha]).
  destruct (n <=? length l)%nat; [apply Forall_drop|]; exact Hall.
Qed.

Section RealRateRule.
Local Open Scope R_scope.
Implicit Types (h g : ThreatHunter R) (clk : Clock R).

Lemma check_rate_anomaly_quiet (a : R) h utc ip now :
  0 < a <= 1 -> (1 - a) * (1 - a) <= 9 * a ->
  quiet a h -> quiet a (_check_rate_anomaly h utc ip now).
Proof.
  intros Ha H9 (Hal & Hmod & Hhist).
  unfold _check_rate_anomaly. destruct (negb (truthy ip)); [exact (conj Hal (conj Hmod Hhist))|].
  cbv zeta.
  change (rate_model (set_events_by_ip h ?m)) with (rate_model h).
  change (ewma_alpha (set_events_by_ip h ?m)) with (ewma_alpha h).
  change (window (set_events_by_ip h ?m)) with (window h).
  set (k := key_of ip).
  set (dq := _prune_window (window h) (dd_get (events_by_ip h) k []) now).
  set (rate := (of_int (Z.of_nat (length dq)) /^ of_int (Z.max (window h) 1))%pf).
  set (m0 := dd_get (rate_model h) k (EWMA_new (ewma_alpha h))).
  assert (Hm0 : alpha m0 = a /\ 0 <= var m0).
  { subst m0. unfold dd_get. destruct (rate_model h !! k) as [m|] eqn:E.
    - apply (Hmod k m E).
    - simpl. split; [exact Hal | lra]. }
  destruct Hm0 as [Ham0 Hvm0].
  assert (Hz3 : EWMA_zscore (EWMA_update m0 rate) rate <= 3).
  { apply (square_bound_le_3 a); [lra | | exact H9].
    rewrite <- Ham0. apply zscore_update_sq; [rewrite Ham0; exact Ha | exact Hvm0]. }
  assert (Hzb : (EWMA_zscore (EWMA_update m0 rate) rate >^ of_int 3)%pf = false)
    by (apply Rltb_false; exact Hz3).
  rewrite Hzb. cbn [andb].
  split; [exact Hal|]. split; [|exact Hhist].
  intros k' m.
  change (rate_model (set_rate_model ?g ?mm)) with mm.
  destruct (decide (k = k')) as [<-|Hne].
  - rewrite lookup_insert_eq. intros E. injection E as <-. split.
    + rewrite EWMA_update_alpha. exact Ham0.
    + apply EWMA_update_var_nonneg; [rewrite Ham0; lra | exact Hvm0].
  - rewrite lookup_insert_ne by exact Hne. apply Hmod.
Qed.

Lemma ingest_event_quiet (a : R) h ev clk :
  0 < a <= 1 -> (1 - a) * (1 - a) <= 9 * a ->
  quiet a h -> quiet a (ingest_event h ev clk).
Proof.
  intros Ha H9. revert h ev clk. apply ingest_event_invariant.
  - intros h Hq. exact Hq.
  - intros h ip status now Hq. unfold _record_request.
    destruct (negb (truthy ip)); exact Hq.
  - intros h utc ip det (Hal & Hmod & Hhist).
    split; [exact Hal|]. split; [exact Hmod|].
    apply deque_append_Forall; [exact Hhist | discriminate].
  - intros h utc ip status now Hst (Hal & Hmod & Hhist).
    unfold _check_status_storm. destruct (negb (truthy ip)); [exact (conj Hal (conj Hmod Hhist))|].
    cbv zeta. case_if; [|exact (conj Hal (conj Hmod Hhist))].
    split; [exact Hal|]. split; [exact Hmod|].
    apply deque_append_Forall; [exact Hhist|].
    destruct Hst as [-> | ->]; discriminate.
  - intros h utc ip now. apply check_rate_anomaly_quiet; assumption.
  - intros h ip now Hq. exact Hq.
  - intros h utc ip now (Hal & Hmod & Hhist).
    unfold _check_bruteforce. cbv zeta. case_if; [|exact (conj Hal (conj Hmod Hhist))].
    split; [exact Hal|]. split; [exact Hmod|].
    apply deque_append_Forall; [exact Hhist | discriminate].
Qed.

(** X7.  In exact arithmetic the rate rule is silent for the default
    smoothing factor.  For an engine created with [ewma_alpha] in (0, 1]
    such that [(1 - alpha)^2 <= 9 * alpha] (every [alpha] from 0.0917 up, so
    the default 0.3), whatever the window, the threshold and the events, no
    alert of kind [rate_anomaly] is in the history after any sequence of
    events; since an alert is in the history at the end of the call that
    raised it, none is ever raised. *)
Theorem rate_anomaly_never (window threshold : Z) (a : R) (evs : list (Event * Clock R)) :
  0 < a <= 1 ->
  (1 - a) * (1 - a) <= 9 * a ->
  let h := feed (ThreatHunter_new window threshold a) evs in
  Forall (fun al => kind al <> "rate_anomaly"%string) (last_alerts (stats h)).
Proof.
  intros Ha H9 h.
  assert (Hq : quiet a h).
  { subst h. apply feed_invariant.
    - intros g ev clk. apply ingest_event_quiet; assumption.
    - split; [reflexivity|]. split; [|constructor].
      intros k m E. cbn [rate_model ThreatHunter_new] in E.
      rewrite lookup_empty in E. discriminate. }
  apply Hq.
Qed.

Lemma rate_anomaly_never_witness :
  let h := feed (ThreatHunter_new 10 2 (3 / 10))
             [(nginx_event (Some "7.7.7.7"%string) "/" "200", Scenario.clock 0 "t0");
              (nginx_event (Some "7.7.7.7"%string) "/" "200", Scenario.clock 0 "t1");
              (nginx_event (Some "7.7.7.7"%string) "/" "200", Scenario.clock 0 "t2")] in
  Forall (fun al => kind al <> "rate_anomaly"%string) (last_alerts (stats h)).
Proof.
  apply (rate_anomaly_never 10 2 (3 / 10)); lra.
Defined.
End RealRateRule.

(** The same trickle and burst that raise a [rate_anomaly] with
    [alpha = 0.05], run in binary64 with the default [alpha = 0.3]: no alert
    at all. *)
Example scenario_default_alpha_b64 :
  let h := ThreatHunter_new (F := float) 10 2 (Py.lit 3 10) in
  let h' := feed h (Scenario.requests "7.7.7.7" Scenario.trickle_then_burst) in
  total_alerts (stats h') = 0 /\ last_alerts (stats h') = [].
Proof. vm_compute. split; reflexivity. Qed.

(** ** Kinds, severities and scores *)

Section RealScores.
Local Open Scope R_scope.
Implicit Types (h g : ThreatHunter R) (clk : Clock R).

Lemma storm_score (n t : Z) :
  Py.round2 (of_int 7 +^ of_int (n - t))%pf = 7 + IZR (n - t).
Proof.
  apply (round2_two_decimals _ (700 + 100 * (n - t))).
  cbn. rewrite plus_IZR, mult_IZR. lra.
Qed.

Lemma bruteforce_score (n t : Z) :
  Py.round2 (of_int 9 +^ Py.lit 5 10 *^ of_int (n - t))%pf = 9 + IZR (n - t) / 2.
Proof.
  assert (E : (of_int 9 +^ Py.lit 5 10 *^ of_int (n - t))%pf = 9 + IZR (n - t) / 2).
  { rewrite lit_R. cbn. lra. }
  rewrite E.
  apply (round2_two_decimals _ (900 + 50 * (n - t))).
  rewrite plus_IZR, mult_IZR. lra.
Qed.

Lemma rate_anomaly_score (z : R) :
  3 < z -> Py.round2 (Py.min (of_int 10) (Py.lit 75 10 +^ z))%pf = 10.
Proof.
  intros Hz.
  assert (Hmin : Py.min (of_int 10) (Py.lit 75 10 +^ z)%pf = Rmin 10 (75 / 10 + z)).
  { rewrite Py_min_R. reflexivity. }
  rewrite Hmin.
  assert (H10 : Rmin 10 (75 / 10 + z) = 10) by (apply Rmin_left; lra).
  rewrite H10. apply (round2_of_int 10).
Qed.

Lemma ingest_event_well_scored h ev clk :
  Forall well_scored (last_alerts (stats h)) ->
  Forall well_scored (last_alerts (stats (ingest_event h ev clk))).
Proof.
  revert h ev clk.
  apply (ingest_event_invariant (fun h => Forall well_scored (last_alerts (stats h)))).
  - intros h Hh. exact Hh.
  - intros h ip status now Hh. unfold _record_request.
    destruct (negb (truthy ip)); exact Hh.
  - intros h utc ip det Hh.
    apply deque_append_Forall; [exact Hh|]. left.
    split; [reflexivity|]. split; [reflexivity|]. apply (round2_of_int 6).
  - intros h utc ip status now Hst Hh.
    unfold _check_status_storm. destruct (negb (truthy ip)); [exact Hh|].
    cbv zeta. case_if; [|exact Hh].
    apply deque_append_Forall; [exact Hh|]. right.
    match goal with
    | Hle : (threshold ?g <=? ?n)%Z = true |- _ =>
        apply Z.leb_le in Hle;
        assert (Hex : exists d : Z, (0 <= d)%Z
                  /\ Py.round2 (of_int 7 +^ of_int (n - threshold g))%pf = 7 + IZR d)
          by (exists (n - threshold g)%Z; split; [lia | apply storm_score])
    end.
    destruct Hst as [-> | ->].
    + left. split; [reflexivity|]. split; [reflexivity|]. exact Hex.
    + right. left. split; [reflexivity|]. split; [reflexivity|]. exact Hex.
  - intros h utc ip now Hh.
    unfold _check_rate_anomaly. destruct (negb (truthy ip)); [exact Hh|].
    cbv zeta. case_if; [|exact Hh].
    apply deque_append_Forall; [exact Hh|]. do 4 right.
    split; [reflexivity|]. split; [reflexivity|].
    match goal with
    | Hb : _ && _ = true |- _ => apply andb_true_iff in Hb; destruct Hb as [Hz _]
    end.
    apply Rltb_true in Hz. apply rate_anomaly_score. exact Hz.
  - intros h ip now Hh. exact Hh.
  - intros h utc ip now Hh.
    unfold _check_bruteforce. cbv zeta. case_if; [|exact Hh].
    apply deque_append_Forall; [exact Hh|]. do 3 right. left.
    split; [reflexivity|]. split; [reflexivity|].
    match goal with
    | Hle : (threshold ?g <=? ?n)%Z = true |- _ =>
        apply Z.leb_le in Hle; exists (n - threshold g)%Z; split; [lia | apply bruteforce_score]
    end.
Qed.

(** X8.  Kinds, severities and scores, in exact arithmetic.  When every
    alert of the history is one of the five below, so is every alert of the
    history after any sequence of events:
    [suspicious_path], [medium], score 6;
    [403_storm], [high], and [404_storm], [medium], score [7 + n];
    [bruteforce], [critical], score [9 + n / 2];
    [rate_anomaly], [high], score 10, always: [z > 3] puts [7.5 + z] above
    the cap;
    where [n >= 0] is the in-window count minus the threshold. *)
Theorem alerts_well_scored h (evs : list (Event * Clock R)) :
  Forall well_scored (last_alerts (stats h)) ->
  Forall well_scored (last_alerts (stats (feed h evs))).
Proof.
  revert h. apply (feed_invariant (fun h => Forall well_scored (last_alerts (stats h)))).
  apply ingest_event_well_scored.
Qed.

Lemma alerts_well_scored_witness :
  let h := Scenario.hunter (F := R) 60 1 in
  let evs := [(nginx_event (Some "9.9.9.9"%string) "/admin" "404",
               Scenario.clock 0 "2025-09-21T10:12:00")] in
  Forall well_scored (last_alerts (stats (feed h evs))).
Proof.
  intros h evs. apply (alerts_well_scored h evs). constructor.
Defined.
End RealScores.

(** ** The windowed counters of the engine *)

Section Counters.
Context {F : Type} `{PyFloat F}.
Implicit Types (self h g : ThreatHunter F) (ev : Event) (clk : Clock F).
Local Open Scope pyfloat_scope.

(** What a request of an entity leaves in the request counters and in the
    failed-login counters. *)
Lemma ingest_request_counters h ev clk :
  ev_type ev = "nginx"%string ->
  truthy (ev_ip ev) = true ->
  let k := key_of (ev_ip ev) in
  let now := time_time clk in
  let h' := ingest_event h ev clk in
  events_by_ip h'
  = <[k := _prune_window (window h) (dd_get (events_by_ip h) k [] ++ [now]) now]>
      (events_by_ip h)
  /\ failed_logins_by_ip h' = failed_logins_by_ip h.
Proof.
  intros Hty Hip k now h'. subst h'. unfold ingest_event. rewrite Hty.
  change (String.eqb "nginx" "nginx") with true. cbv iota. cbv zeta. fold now.
  set (status := default ""%string (ev_status ev)).
  set (h1 := incr_total_events h).
  set (h2 := _record_request h1 (ev_ip ev) status now).
  destruct (record_request_effect h1 (ev_ip ev) status now Hip)
    as (He2 & _ & _ & Hf2 & (Hw2 & _ & _) & _).
  fold h2 in He2, Hf2, Hw2. fold k in He2.
  change (window h1) with (window h) in *.
  change (events_by_ip h1) with (events_by_ip h) in *.
  change (failed_logins_by_ip h1) with (failed_logins_by_ip h) in *.
  clearbody h2.
  set (h3 := if is_suspicious _ then _ else h2).
  assert (H3 : events_by_ip h3 = events_by_ip h2
               /\ failed_logins_by_ip h3 = failed_logins_by_ip h2
               /\ window h3 = window h2).
  { subst h3. destruct (is_suspicious _); repeat split. }
  clearbody h3. destruct H3 as (He3 & Hf3 & Hw3).
  set (h4 := if _ || _ then _ else h3).
  assert (H4 : events_by_ip h4 = events_by_ip h3
               /\ failed_logins_by_ip h4 = failed_logins_by_ip h3
               /\ window h4 = window h3).
  { subst h4. destruct (_ || _); [|repeat split].
    destruct (check_status_storm_effect h3 (utcnow clk 1) (ev_ip ev) status now Hip)
      as (_ & He & _ & Hf & (Hw & _) & _).
    repeat split; assumption. }
  clearbody h4. destruct H4 as (He4 & Hf4 & Hw4).
  destruct (check_rate_anomaly_effect h4 (utcnow clk 2) (ev_ip ev) now Hip)
    as (He5 & _ & _ & Hf5 & _ & _).
  fold k in He5. rewrite He5, Hf5, Hf4, Hf3, Hf2. split; [|reflexivity].
  rewrite He4, He3, He2, Hw4, Hw3, Hw2, dd_get_insert_eq, prune_window_idem.
  apply insert_insert_eq.
Qed.

(** What one event leaves in the request counters and in the failed-login
    counters. *)
Lemma ingest_event_counters h ev clk :
  let k := key_of (ev_ip ev) in
  let now := time_time clk in
  let h' := ingest_event h ev clk in
  events_by_ip h'
  = (if counted_request ev
     then <[k := _prune_window (window h) (dd_get (events_by_ip h) k [] ++ [now]) now]>
            (events_by_ip h)
     else events_by_ip h)
  /\ failed_logins_by_ip h'
     = (if is_failed_login ev
        then <[k := _prune_window (window h)
                      (dd_get (failed_logins_by_ip h) k [] ++ [now]) now]>
               (failed_logins_by_ip h)
        else failed_logins_by_ip h).
Proof.
  intros k now h'. subst h'.
  destruct (ingest_event_cases h ev clk) as [[Hty Hip] | [(Hty & Hip & Heq)
    | [(Hty & Hev & Hip & Heq) | [(Hty & Hev & Hip & Heq) | (Hty & Hc & Hf & Heq)]]]];
    cbv zeta in *.
  - destruct (ingest_request_counters h ev clk Hty Hip) as [He Hf]. cbv zeta in He.
    unfold counted_request, is_failed_login. rewrite Hty, Hip. exact (conj He Hf).
  - unfold counted_request, is_failed_login. rewrite Hip, !andb_false_r, Heq.
    destruct (is_suspicious _); split; reflexivity.
  - destruct (ingest_failed_login h ev clk Hty Hev Hip) as (Hfl & _ & _). cbv zeta in Hfl.
    unfold counted_request, is_failed_login. rewrite Hty, Hev, Hip.
    split; [|exact Hfl].
    rewrite Heq. unfold _check_bruteforce. cbv zeta. case_if; reflexivity.
  - destruct (record_request_effect (incr_total_events h) (ev_ip ev) "200" (time_time clk) Hip)
      as (He & _ & _ & Hf & _ & _).
    unfold counted_request, is_failed_login. rewrite Hty, Hev, Hip, Heq.
    split; [exact He | exact Hf].
  - rewrite Hc, Hf, Heq. split; reflexivity.
Qed.

Lemma times_of_cons (p : Event -> bool) (k : string) ev clk (evs : list (Event * Clock F)) :
  times_of p k ((ev, clk) :: evs)
  = if p ev && String.eqb (key_of (ev_ip ev)) k
    then time_time clk :: times_of p k evs
    else times_of p k evs.
Proof.
  unfold times_of. cbn [List.filter fst snd].
  destruct (p ev && String.eqb (key_of (ev_ip ev)) k); reflexivity.
Qed.

Lemma dd_get_if_insert {V} (b : bool) (k k' : string) (v dflt : V) (d : gmap string V) :
  dd_get (if b then <[k := v]> d else d) k' dflt
  = if b && String.eqb k k' then v else dd_get d k' dflt.
Proof.
  destruct b; [|reflexivity]. cbn [andb].
  destruct (String.eqb k k') eqn:E.
  - apply String.eqb_eq in E. subst k'. apply dd_get_insert_eq.
  - apply dd_get_insert_ne. intros ->. rewrite String.eqb_refl in E. discriminate.
Qed.

Lemma feed_window (evs : list (Event * Clock F)) : forall h, window (feed h evs) = window h.
Proof.
  intros h. apply (feed_invariant (fun g => window g = window h)); [|reflexivity].
  intros g ev clk Hg. destruct (ingest_event_frame g ev clk) as (_ & Hw & _).
  rewrite Hw. exact Hg.
Qed.

Lemma feed_counters (k : string) (evs : list (Event * Clock F)) : forall h,
  let step := fun dq t => _prune_window (window h) (dq ++ [t]) t in
  dd_get (events_by_ip (feed h evs)) k []
  = fold_left step (times_of counted_request k evs) (dd_get (events_by_ip h) k [])
  /\ dd_get (failed_logins_by_ip (feed h evs)) k []
     = fold_left step (times_of is_failed_login k evs) (dd_get (failed_logins_by_ip h) k []).
Proof.
  induction evs as [|[ev clk] evs IH]; intros h step; [split; reflexivity|].
  change (feed h ((ev, clk) :: evs)) with (feed (ingest_event h ev clk) evs).
  destruct (IH (ingest_event h ev clk)) as [IHe IHf]. cbv zeta in IHe, IHf.
  destruct (ingest_event_frame h ev clk) as (_ & Hw & _).
  rewrite Hw in IHe, IHf. fold step in IHe, IHf.
  destruct (ingest_event_counters h ev clk) as [He Hf]. cbv zeta in He, Hf.
  rewrite IHe, IHf, He, Hf, !times_of_cons, !dd_get_if_insert.
  split.
  - destruct (counted_request ev && String.eqb (key_of (ev_ip ev)) k) eqn:E; [|reflexivity].
    apply andb_true_iff in E. destruct E as [_ E]. apply String.eqb_eq in E. rewrite E.
    reflexivity.
  - destruct (is_failed_login ev && String.eqb (key_of (ev_ip ev)) k) eqn:E; [|reflexivity].
    apply andb_true_iff in E. destruct E as [_ E]. apply String.eqb_eq in E. rewrite E.
    reflexivity.
Qed.

(** X9.  The engine keeps one windowed counter per entity and per rule.
    After any sequence of events on a new engine, the request counter of an
    entity is the windowed counter [record_all] fed with the times of its
    requests and accepted logins, in order, and its failed-login counter is
    [record_all] fed with the times of its failed logins; the events of the
    other entities, and the alerts raised on the way, play no part.  This
    holds whatever the floats, so in binary64 too. *)
Theorem engine_counters (window threshold : Z) (ewma_alpha : F)
    (evs : list (Event * Clock F)) (k : string) :
  let h := feed (ThreatHunter_new window threshold ewma_alpha) evs in
  dd_get (events_by_ip h) k [] = record_all window (times_of counted_request k evs)
  /\ dd_get (failed_logins_by_ip h) k []
     = record_all window (times_of is_failed_login k evs).
Proof.
  cbv zeta.
  destruct (feed_counters k evs (ThreatHunter_new window threshold ewma_alpha)) as [He Hf].
  cbv zeta in He, Hf. split; [exact He | exact Hf].
Qed.
End Counters.

Section RealCounters.
Local Open Scope R_scope.
Implicit Types (h g : ThreatHunter R) (clk : Clock R).

Lemma times_of_bound (p : Event -> bool) (k : string) (evs : list (Event * Clock R)) (a : R) :
  Forall (Rle a) (map (fun ec => time_time ec.2) evs) -> Forall (Rle a) (times_of p k evs).
Proof.
  induction evs as [|[ev clk] evs IH]; intros Hall; [constructor|].
  rewrite times_of_cons. inversion Hall as [|? ? Ha Hall']; subst.
  destruct (p ev && String.eqb (key_of (ev_ip ev)) k); [constructor; [exact Ha|]|]; auto.
Qed.

Lemma times_of_sorted (p : Event -> bool) (k : string) (evs : list (Event * Clock R)) :
  StronglySorted Rle (map (fun ec => time_time ec.2) evs) ->
  StronglySorted Rle (times_of p k evs).
Proof.
  induction evs as [|[ev clk] evs IH]; intros Hs; [constructor|].
  rewrite times_of_cons. inversion Hs as [|? ? Hs' Hall]; subst.
  destruct (p ev && String.eqb (key_of (ev_ip ev)) k); [|auto].
  constructor; [auto|]. apply times_of_bound. exact Hall.
Qed.

(** X10.  What the counters hold, in exact arithmetic.  When the clock
    never goes back from one event to the next, the request counter of an
    entity holds, after any sequence of events on a new engine, the times of
    its requests and accepted logins that are no more than [window] before
    the last of them; and its failed-login counter the times of its failed
    logins no more than [window] before the last of them.  An entity is
    pruned against its own last event: the events of the others, however
    late, remove nothing from its counters. *)
Theorem engine_window_contents (window threshold : Z) (a : R)
    (evs : list (Event * Clock R)) (k : string) :
  Sorted Rle (map (fun ec => time_time ec.2) evs) ->
  let h := feed (ThreatHunter_new window threshold a) evs in
  let ts := times_of counted_request k evs in
  let fl := times_of is_failed_login k evs in
  dd_get (events_by_ip h) k [] = filter (fun t => List.last ts 0 - t <= IZR window) ts
  /\ dd_get (failed_logins_by_ip h) k []
     = filter (fun t => List.last fl 0 - t <= IZR window) fl.
Proof.
  intros Hs h ts fl.
  apply Sorted_StronglySorted in Hs; [|typeclasses eauto].
  destruct (feed_counters k evs (ThreatHunter_new window threshold a)) as [He Hf].
  cbv zeta in He, Hf. fold h in He, Hf.
  change (dd_get (events_by_ip h) k [] = record_all window ts) in He.
  change (dd_get (failed_logins_by_ip h) k [] = record_all window fl) in Hf.
  rewrite He, Hf.
  rewrite !record_all_sorted by (apply times_of_sorted; exact Hs).
  rewrite !prune_window_sorted by (apply times_of_sorted; exact Hs).
  split; reflexivity.
Qed.

Lemma engine_window_contents_witness :
  let evs := [(nginx_event (Some "1.1.1.1"%string) "/" "200", Scenario.clock 0 "t0");
              (nginx_event (Some "2.2.2.2"%string) "/" "200", Scenario.clock 50 "t1");
              (nginx_event (Some "1.1.1.1"%string) "/" "200", Scenario.clock 70 "t2")] in
  let h := feed (ThreatHunter_new 60 5 (3 / 10)) evs in
  let ts := times_of counted_request "1.1.1.1" evs in
  let fl := times_of is_failed_login "1.1.1.1" evs in
  dd_get (events_by_ip h) "1.1.1.1" [] = filter (fun t => List.last ts 0 - t <= IZR 60) ts
  /\ dd_get (failed_logins_by_ip h) "1.1.1.1" []
     = filter (fun t => List.last fl 0 - t <= IZR 60) fl.
Proof.
  intros evs.
  apply (engine_window_contents 60 5 (3 / 10) evs "1.1.1.1").
  subst evs. cbn [map snd time_time Scenario.clock].
  repeat constructor; lra.
Defined.
End RealCounters.

(** ** The report *)

Lemma insert_desc_perm (x : string * Z) (l : list (string * Z)) :
  insert_desc x l ≡ₚ x :: l.
Proof.
  induction l as [|y l IH]; simpl; [reflexivity|].
  destruct (y.2 <=? x.2); [reflexivity|].
  rewrite IH. apply Permutation_swap.
Qed.

Lemma sorted_desc_perm (l : list (string * Z)) : sorted_desc l ≡ₚ l.
Proof.
  induction l as [|x l IH]; simpl; [reflexivity|].
  rewrite insert_desc_perm, IH. reflexivity.
Qed.

Lemma insert_desc_sorted (x : string * Z) (l : list (string * Z)) :
  StronglySorted count_ge l -> StronglySorted count_ge (insert_desc x l).
Proof.
  induction 1 as [|y l Hs IH Hall]; simpl; [repeat constructor|].
  destruct (y.2 <=? x.2) eqn:E.
  - apply Z.leb_le in E. constructor; [constructor; assumption|].
    constructor; [exact E|].
    eapply Forall_impl; [exact Hall|]. unfold count_ge. intros z Hz. lia.
  - apply Z.leb_gt in E. constructor; [exact IH|].
    rewrite insert_desc_perm. constructor; [unfold count_ge; lia | exact Hall].
Qed.

Lemma sorted_desc_sorted (l : list (string * Z)) : StronglySorted count_ge (sorted_desc l).
Proof.
  induction l as [|x l IH]; simpl; [constructor|]. apply insert_desc_sorted. exact IH.
Qed.

Lemma insert_desc_stable (c : Z) (x : string * Z) (l : list (string * Z)) :
  filter (fun kv => kv.2 = c) (insert_desc x l) = filter (fun kv => kv.2 = c) (x :: l).
Proof.
  induction l as [|y l IH]; simpl; [reflexivity|].
  destruct (y.2 <=? x.2) eqn:E; [reflexivity|]. apply Z.leb_gt in E.
  rewrite (filter_cons _ y (insert_desc x l)), IH, !(filter_cons _ x), !(filter_cons _ y).
  destruct (decide (x.2 = c)) as [Hx|Hx]; [|reflexivity].
  destruct (decide (y.2 = c)) as [Hy|Hy]; [lia | reflexivity].
Qed.

Lemma sorted_desc_stable (c : Z) (l : list (string * Z)) :
  filter (fun kv => kv.2 = c) (sorted_desc l) = filter (fun kv => kv.2 = c) l.
Proof.
  induction l as [|x l IH]; simpl; [reflexivity|].
  rewrite insert_desc_stable, !filter_cons, IH. reflexivity.
Qed.

Section Report.
Context {F : Type} `{PyFloat F}.
Implicit Types (self h g : ThreatHunter F).

(** X11.  The top entities of the report.  [top_ips] is the first ten
    entries of the stable sort of [per_ip_count] by count, largest first: it
    has [min(10, number of entities)] entries, in the order of their counts;
    the entities left out have counts no larger than any entity listed; and
    entities with equal counts come in the order in which the engine first
    saw them. *)
Theorem top_ips_spec h utc :
  let items := per_ip_count (stats h) in
  let top := top_ips (to_report h utc).1 in
  exists s,
    top = take 10 s
    /\ length top = Nat.min 10 (length items)
    /\ s ≡ₚ items
    /\ StronglySorted count_ge s
    /\ (forall c, filter (fun kv => kv.2 = c) s = filter (fun kv => kv.2 = c) items)
    /\ Forall (fun y => Forall (fun x => count_ge x y) top) (drop 10 s).
Proof.
  intros items top. exists (sorted_desc items).
  pose proof (sorted_desc_sorted items) as Hs.
  split; [reflexivity|]. split; [|split; [apply sorted_desc_perm|split; [exact Hs|split]]].
  - change top with (take 10 (sorted_desc items)).
    rewrite length_take, (Permutation_length (sorted_desc_perm items)). reflexivity.
  - intros c. apply sorted_desc_stable.
  - change top with (take 10 (sorted_desc items)).
    rewrite <- (take_drop 10 (sorted_desc items)) in Hs.
    apply StronglySorted_app in Hs. destruct Hs as (Hall & _ & _).
    apply Forall_forall. intros y Hy. apply Forall_forall. intros x Hx.
    apply Hall; assumption.
Qed.
End Report.

(** ** The lifetime counts *)

Lemma dict_incr_keys (k : string) (d : list (string * Z)) :
  NoDup (map fst d) -> NoDup (map fst (dict_incr k d)).
Proof.
  assert (Hin : forall k' d, k' ∈ map fst (dict_incr k d) -> k' = k \/ k' ∈ map fst d).
  { clear d. intros k' d. induction d as [|[k0 v] d IH]; simpl.
    - intros Hk. apply list_elem_of_singleton in Hk. left. exact Hk.
    - destruct (String.eqb k k0) eqn:E; simpl; [right; assumption|].
      intros Hk. apply elem_of_cons in Hk. destruct Hk as [->|Hk].
      + right. left.
      + destruct (IH Hk) as [->|Hd]; [left; reflexivity | right; right; exact Hd]. }
  induction d as [|[k0 v] d IH]; simpl; intros Hnd.
  - repeat constructor. intros Hk. inversion Hk.
  - apply NoDup_cons in Hnd. destruct Hnd as [Hk0 Hnd].
    destruct (String.eqb k k0) eqn:E; simpl.
    + apply NoDup_cons. split; assumption.
    + apply NoDup_cons. split; [|apply IH; exact Hnd].
      intros Hk. destruct (Hin k0 d Hk) as [->|Hd]; [|contradiction].
      rewrite String.eqb_refl in E. discriminate.
Qed.

Lemma dict_incr_positive (k : string) (d : list (string * Z)) :
  Forall (fun kv => 1 <= kv.2) d -> Forall (fun kv => 1 <= kv.2) (dict_incr k d).
Proof.
  induction 1 as [|[k0 v] d Hv Hall IH]; simpl; [repeat constructor; simpl; lia|].
  destruct (String.eqb k k0); constructor; simpl in *; try lia; assumption.
Qed.

Lemma dict_get_elem (k : string) (v : Z) (d : list (string * Z)) :
  NoDup (map fst d) -> (k, v) ∈ d -> dict_get k d = Some v.
Proof.
  induction d as [|[k0 v0] d IH]; simpl; intros Hnd Hin; [inversion Hin|].
  apply NoDup_cons in Hnd. destruct Hnd as [Hk0 Hnd].
  apply elem_of_cons in Hin. destruct Hin as [E|Hin].
  - injection E as -> ->. rewrite String.eqb_refl. reflexivity.
  - destruct (String.eqb k k0) eqn:E; [|apply IH; assumption].
    apply String.eqb_eq in E. subst k0. exfalso. apply Hk0.
    apply list_elem_of_fmap. exists (k, v). split; [reflexivity | exact Hin].
Qed.

Section Lifetime.
Context {F : Type} `{PyFloat F}.
Implicit Types (self h g : ThreatHunter F) (ev : Event) (clk : Clock F).

(** What one event leaves in the totals and in the lifetime counts. *)
Lemma ingest_event_stats h ev clk :
  let h' := ingest_event h ev clk in
  total_lines (stats h') = total_lines (stats h)
  /\ total_events (stats h') = total_events (stats h) + 1
  /\ per_ip_count (stats h')
     = if counted_request ev
       then dict_incr (key_of (ev_ip ev)) (per_ip_count (stats h))
       else per_ip_count (stats h).
Proof.
  intros h'. subst h'.
  destruct (ingest_event_cases h ev clk) as [[Hty Hip] | [(Hty & Hip & Heq)
    | [(Hty & Hev & Hip & Heq) | [(Hty & Hev & Hip & Heq) | (Hty & Hc & Hf & Heq)]]]];
    cbv zeta in *.
  - unfold counted_request, ingest_event. rewrite Hty, Hip.
    change (String.eqb "nginx" "nginx") with true. cbv iota. cbv zeta. cbn [andb orb].
    set (h1 := incr_total_events h).
    set (h2 := _record_request h1 _ _ _).
    set (h3 := if is_suspicious _ then _ else h2).
    set (h4 := if _ || _ then _ else h3).
    assert (H43 : same_counts h3 h4).
    { subst h4. case_if; [apply check_status_storm_counts | apply same_counts_refl]. }
    assert (H32 : same_counts h2 h3).
    { subst h3. case_if; [apply alert_counts | apply same_counts_refl]. }
    destruct (same_counts_trans _ _ _ (same_counts_trans _ _ _ H32 H43)
                (check_rate_anomaly_counts h4 (utcnow clk 2) (ev_ip ev) (time_time clk)))
      as (Htl & Hte & Hpc).
    rewrite Htl, Hte, Hpc.
    destruct (record_request_counts h1 (ev_ip ev) (default ""%string (ev_status ev))
                (time_time clk) Hip) as (Htl2 & Hte2 & Hpc2).
    fold h2 in Htl2, Hte2, Hpc2. rewrite Htl2, Hte2, Hpc2. repeat split.
  - unfold counted_request. rewrite Hip, Heq. cbn [andb].
    destruct (is_suspicious _); repeat split.
  - unfold counted_request. rewrite Hty, Hev, Hip, Heq. cbn.
    destruct (same_counts_trans _ _ _
                (record_failed_login_counts (incr_total_events h) (key_of (ev_ip ev)) (time_time clk))
                (check_bruteforce_counts _ (utcnow clk 0) (key_of (ev_ip ev)) (time_time clk)))
      as (Htl & Hte & Hpc).
    rewrite Htl, Hte, Hpc. repeat split.
  - unfold counted_request. rewrite Hty, Hev, Hip, Heq. cbn.
    destruct (record_request_counts (incr_total_events h) (ev_ip ev) "200" (time_time clk) Hip)
      as (Htl & Hte & Hpc).
    rewrite Htl, Hte, Hpc. repeat split.
  - rewrite Hc, Heq. repeat split.
Qed.

Lemma feed_per_ip_count (k : string) (evs : list (Event * Clock F)) : forall h,
  let n := Z.of_nat (length (times_of counted_request k evs)) in
  dict_get k (per_ip_count (stats (feed h evs)))
  = if n =? 0 then dict_get k (per_ip_count (stats h))
    else Some (default 0 (dict_get k (per_ip_count (stats h))) + n).
Proof.
  induction evs as [|[ev clk] evs IH]; intros h n; [reflexivity|].
  change (feed h ((ev, clk) :: evs)) with (feed (ingest_event h ev clk) evs).
  subst n. rewrite (IH (ingest_event h ev clk)), times_of_cons.
  destruct (ingest_event_stats h ev clk) as (_ & _ & Hpc). rewrite Hpc. clear Hpc IH.
  set (m := Z.of_nat (length (times_of counted_request k evs))).
  assert (Hm : 0 <= m) by (subst m; lia).
  destruct (counted_request ev) eqn:Hc; cbn [andb]; [|reflexivity].
  rewrite dict_get_incr, (String.eqb_sym k).
  destruct (String.eqb (key_of (ev_ip ev)) k); [|reflexivity].
  change (length (time_time clk :: times_of counted_request k evs))
    with (S (length (times_of counted_request k evs))).
  rewrite Nat2Z.inj_succ. fold m.
  assert (E : (Z.succ m =? 0) = false) by (apply Z.eqb_neq; lia). rewrite E.
  destruct (m =? 0) eqn:E0.
  - apply Z.eqb_eq in E0. rewrite E0. reflexivity.
  - unfold default. cbn [from_option id]. f_equal.
    destruct (dict_get k (per_ip_count (stats h))); cbn; lia.
Qed.

Lemma feed_per_ip_keys (evs : list (Event * Clock F)) : forall h,
  NoDup (map fst (per_ip_count (stats h)))
  /\ Forall (fun kv => 1 <= kv.2) (per_ip_count (stats h)) ->
  NoDup (map fst (per_ip_count (stats (feed h evs))))
  /\ Forall (fun kv => 1 <= kv.2) (per_ip_count (stats (feed h evs))).
Proof.
  apply (feed_invariant
           (fun h => NoDup (map fst (per_ip_count (stats h)))
                     /\ Forall (fun kv => 1 <= kv.2) (per_ip_count (stats h)))).
  intros h ev clk [Hnd Hpos].
  destruct (ingest_event_stats h ev clk) as (_ & _ & Hpc). rewrite Hpc.
  destruct (counted_request ev); [|split; assumption].
  split; [apply dict_incr_keys | apply dict_incr_positive]; assumption.
Qed.

(** X12.  The lifetime count of an entity.  After any sequence of events
    on a new engine, [per_ip_count] has an entry for an entity exactly when
    the entity sent a request or an accepted login, and its value is the
    number of these since the start, whatever the window; failed logins are
    not counted.  Each entity has one entry. *)
Theorem per_ip_count_lifetime (window threshold : Z) (ewma_alpha : F)
    (evs : list (Event * Clock F)) (k : string) :
  let h := feed (ThreatHunter_new window threshold ewma_alpha) evs in
  let n := Z.of_nat (length (times_of counted_request k evs)) in
  dict_get k (per_ip_count (stats h)) = (if n =? 0 then None else Some n)
  /\ NoDup (map fst (per_ip_count (stats h))).
Proof.
  intros h n. split.
  - subst h n. rewrite feed_per_ip_count. reflexivity.
  - apply feed_per_ip_keys. split; constructor.
Qed.

(** X13.  The [events] figure of the report.  For every entry
    [(ip, events)] of [top_ips] in a report of an engine that started new,
    [events] is the number of requests and accepted logins of [ip] since the
    start, at least one, and not the count in the window; no entity is listed
    twice. *)
Theorem top_ips_events (window threshold : Z) (ewma_alpha : F)
    (evs : list (Event * Clock F)) (utc : string) :
  let h := feed (ThreatHunter_new window threshold ewma_alpha) evs in
  let top := top_ips (to_report h utc).1 in
  Forall (fun kv => kv.2 = Z.of_nat (length (times_of counted_request kv.1 evs))
                    /\ 1 <= kv.2) top
  /\ NoDup (map fst top).
Proof.
  intros h top.
  destruct (feed_per_ip_keys evs (ThreatHunter_new window threshold ewma_alpha)) as [Hnd Hpos];
    [split; constructor|]. fold h in Hnd, Hpos.
  assert (Htop : top = take 10 (sorted_desc (per_ip_count (stats h)))) by reflexivity.
  assert (Hsub : top ⊆+ per_ip_count (stats h)).
  { rewrite Htop. etransitivity; [apply sublist_submseteq, sublist_take|].
    apply Permutation_submseteq, sorted_desc_perm. }
  split.
  - apply Forall_forall. intros [k v] Hkv.
    assert (Hin : (k, v) ∈ per_ip_count (stats h)).
    { eapply elem_of_submseteq; [exact Hkv | exact Hsub]. }
    pose proof (dict_get_elem k v _ Hnd Hin) as Hget.
    subst h. rewrite feed_per_ip_count in Hget. cbn [fst snd].
    rewrite Forall_forall in Hpos. specialize (Hpos (k, v) Hin). cbn [snd] in Hpos.
    split; [|exact Hpos].
    destruct (Z.of_nat (length (times_of counted_request k evs)) =? 0);
      [discriminate|]. cbn in Hget. injection Hget as Hget. lia.
  - assert (Hs : NoDup (map fst (sorted_desc (per_ip_count (stats h))))).
    { change (NoDup (fst <$> sorted_desc (per_ip_count (stats h)))).
      rewrite sorted_desc_perm. exact Hnd. }
    rewrite Htop.
    change (NoDup (fst <$> take 10 (sorted_desc (per_ip_count (stats h))))).
    rewrite fmap_take.
    eapply sublist_NoDup; [exact Hs | apply sublist_take].
Qed.
End Lifetime.

(** ** The loop of [run] *)

Section RunLoop.
Context {F : Type} `{PyFloat F}.
Implicit Types (self h g : ThreatHunter F) (ev : Event) (clk : Clock F).

(** No method reads [total_lines]: counting a line before a method or
    after it is the same. *)
Lemma alert_total_lines h utc sev knd ip det sc :
  _alert (incr_total_lines h) utc sev knd ip det sc
  = incr_total_lines (_alert h utc sev knd ip det sc).
Proof. reflexivity. Qed.

Lemma record_request_total_lines h ip status now :
  _record_request (incr_total_lines h) ip status now
  = incr_total_lines (_record_request h ip status now).
Proof. unfold _record_request. destruct (negb (truthy ip)); reflexivity. Qed.

Lemma check_status_storm_total_lines h utc ip status now :
  _check_status_storm (incr_total_lines h) utc ip status now
  = incr_total_lines (_check_status_storm h utc ip status now).
Proof.
  unfold _check_status_storm. destruct (negb (truthy ip)); [reflexivity|].
  cbv zeta.
  change (status_by_ip (incr_total_lines h)) with (status_by_ip h).
  change (window (incr_total_lines h)) with (window h).
  change (threshold (set_status_by_ip (incr_total_lines h) ?m))
    with (threshold (set_status_by_ip h m)).
  case_if; reflexivity.
Qed.

Lemma check_rate_anomaly_total_lines h utc ip now :
  _check_rate_anomaly (incr_total_lines h) utc ip now
  = incr_total_lines (_check_rate_anomaly h utc ip now).
Proof.
  unfold _check_rate_anomaly. destruct (negb (truthy ip)); [reflexivity|].
  cbv zeta.
  change (events_by_ip (incr_total_lines h)) with (events_by_ip h).
  change (window (incr_total_lines h)) with (window h).
  change (rate_model (set_events_by_ip (incr_total_lines h) ?m)) with (rate_model h).
  change (rate_model (set_events_by_ip h ?m)) with (rate_model h).
  change (ewma_alpha (set_events_by_ip (incr_total_lines h) ?m)) with (ewma_alpha h).
  change (ewma_alpha (set_events_by_ip h ?m)) with (ewma_alpha h).
  change (window (set_events_by_ip h ?m)) with (window h).
  change (window (set_events_by_ip (incr_total_lines h) ?m)) with (window h).
  change (threshold (set_rate_model ?g ?m)) with (threshold g).
  change (threshold (set_events_by_ip ?g ?m)) with (threshold g).
  change (threshold (incr_total_lines h)) with (threshold h).
  case_if; reflexivity.
Qed.

Lemma record_failed_login_total_lines h k now :
  _record_failed_login (incr_total_lines h) k now
  = incr_total_lines (_record_failed_login h k now).
Proof. reflexivity. Qed.

Lemma check_bruteforce_total_lines h utc k now :
  _check_bruteforce (incr_total_lines h) utc k now
  = incr_total_lines (_check_bruteforce h utc k now).
Proof.
  unfold _check_bruteforce. cbv zeta.
  change (failed_logins_by_ip (incr_total_lines h)) with (failed_logins_by_ip h).
  change (window (incr_total_lines h)) with (window h).
  change (threshold (set_failed_logins_by_ip ?g ?m)) with (threshold g).
  change (threshold (incr_total_lines h)) with (threshold h).
  case_if; reflexivity.
Qed.

Lemma ingest_event_total_lines h ev clk :
  ingest_event (incr_total_lines h) ev clk = incr_total_lines (ingest_event h ev clk).
Proof.
  unfold ingest_event. cbv zeta.
  change (incr_total_events (incr_total_lines h)) with (incr_total_lines (incr_total_events h)).
  set (h1 := incr_total_events h). clearbody h1.
  destruct (String.eqb (ev_type ev) "nginx").
  - rewrite record_request_total_lines.
    set (h2 := _record_request h1 _ _ _). clearbody h2.
    assert (E3 : forall (b : bool) utc det sc,
              (if b then _alert (incr_total_lines h2) utc "medium" "suspicious_path"
                          (ev_ip ev) det sc
               else incr_total_lines h2)
              = incr_total_lines
                  (if b then _alert h2 utc "medium" "suspicious_path" (ev_ip ev) det sc
                   else h2)).
    { intros []; reflexivity. }
    rewrite E3.
    set (h3 := if is_suspicious _ then _ else h2). clearbody h3.
    assert (E4 : forall (b : bool) utc status now,
              (if b then _check_status_storm (incr_total_lines h3) utc (ev_ip ev) status now
               else incr_total_lines h3)
              = incr_total_lines
                  (if b then _check_status_storm h3 utc (ev_ip ev) status now else h3)).
    { intros [] utc status now; [apply check_status_storm_total_lines | reflexivity]. }
    rewrite E4. apply check_rate_anomaly_total_lines.
  - destruct (String.eqb (ev_type ev) "syslog"); [|reflexivity].
    destruct (_ && _).
    + rewrite record_failed_login_total_lines. apply check_bruteforce_total_lines.
    + destruct (_ && _); [apply record_request_total_lines | reflexivity].
Qed.

Lemma feed_total_lines (evs : list (Event * Clock F)) : forall h,
  feed (incr_total_lines h) evs = incr_total_lines (feed h evs).
Proof.
  induction evs as [|[ev clk] evs IH]; intros h; [reflexivity|].
  change (feed (incr_total_lines h) ((ev, clk) :: evs))
    with (feed (ingest_event (incr_total_lines h) ev clk) evs).
  rewrite ingest_event_total_lines. apply IH.
Qed.

Lemma feed_totals (evs : list (Event * Clock F)) : forall h,
  total_lines (stats (feed h evs)) = total_lines (stats h)
  /\ total_events (stats (feed h evs)) = total_events (stats h) + Z.of_nat (length evs).
Proof.
  induction evs as [|[ev clk] evs IH]; intros h; [simpl; split; [reflexivity | lia]|].
  change (feed h ((ev, clk) :: evs)) with (feed (ingest_event h ev clk) evs).
  destruct (IH (ingest_event h ev clk)) as [Hl He].
  destruct (ingest_event_stats h ev clk) as (Hl1 & He1 & _).
  rewrite Hl, He, Hl1, He1. split; [reflexivity|].
  change (length ((ev, clk) :: evs)) with (S (length evs)). lia.
Qed.

Lemma iter_incr_total_lines (n : nat) : forall h,
  total_lines (stats (Nat.iter n incr_total_lines h)) = total_lines (stats h) + Z.of_nat n
  /\ total_events (stats (Nat.iter n incr_total_lines h)) = total_events (stats h).
Proof.
  induction n as [|n IH]; intros h; [simpl; split; [lia | reflexivity]|].
  destruct (IH h) as [Hl He]. rewrite Nat.iter_succ.
  set (g := Nat.iter n incr_total_lines h) in *.
  change (total_lines (stats (incr_total_lines g))) with (total_lines (stats g) + 1).
  change (total_events (stats (incr_total_lines g))) with (total_events (stats g)).
  rewrite Hl, He. split; [lia | reflexivity].
Qed.

Section Parsers.
Variables parse_nginx parse_syslog : string -> option Event.

Lemma parsed_events_cons (fmt line : string) clk (lines : list (string * Clock F)) :
  parsed_events parse_nginx parse_syslog fmt ((line, clk) :: lines)
  = match parse_line parse_nginx parse_syslog line fmt with
    | Some ev => (ev, clk) :: parsed_events parse_nginx parse_syslog fmt lines
    | None => parsed_events parse_nginx parse_syslog fmt lines
    end.
Proof.
  unfold parsed_events. simpl.
  destruct (parse_line parse_nginx parse_syslog line fmt); reflexivity.
Qed.

Lemma parsed_events_length (fmt : string) (lines : list (string * Clock F)) :
  (length (parsed_events parse_nginx parse_syslog fmt lines) <= length lines)%nat.
Proof.
  induction lines as [|[line clk] lines IH]; [reflexivity|].
  rewrite parsed_events_cons.
  destruct (parse_line parse_nginx parse_syslog line fmt); cbn [length]; lia.
Qed.

Lemma run_lines_feed (fmt : string) (lines : list (string * Clock F)) : forall h,
  run_lines parse_nginx parse_syslog fmt h lines
  = Nat.iter (length lines) incr_total_lines
      (feed h (parsed_events parse_nginx parse_syslog fmt lines)).
Proof.
  induction lines as [|[line clk] lines IH]; intros h; [reflexivity|].
  change (run_lines parse_nginx parse_syslog fmt h ((line, clk) :: lines))
    with (run_lines parse_nginx parse_syslog fmt
            (run_line parse_nginx parse_syslog fmt h line clk) lines).
  rewrite IH, parsed_events_cons. unfold run_line. cbn [length].
  destruct (parse_line parse_nginx parse_syslog line fmt) as [ev|].
  - rewrite ingest_event_total_lines, feed_total_lines, Nat.iter_succ_r. reflexivity.
  - rewrite feed_total_lines, Nat.iter_succ_r. reflexivity.
Qed.

(** X14.  The loop of [run].  Over the lines it reads, with whatever the
    two parsers return, the loop leaves the engine that ingesting the events
    of the lines that parse leaves, with [total_lines] increased by the
    number of lines: a line that does not parse is counted and changes
    nothing else.  So [lines_processed] grows by the number of lines,
    [events_parsed] by the number of lines that parse, and [events_parsed]
    never grows more than [lines_processed]. *)
Theorem run_lines_spec (fmt : string) (lines : list (string * Clock F)) h :
  let h' := run_lines parse_nginx parse_syslog fmt h lines in
  let evs := parsed_events parse_nginx parse_syslog fmt lines in
  h' = Nat.iter (length lines) incr_total_lines (feed h evs)
  /\ total_lines (stats h') = total_lines (stats h) + Z.of_nat (length lines)
  /\ total_events (stats h') = total_events (stats h) + Z.of_nat (length evs)
  /\ (length evs <= length lines)%nat.
Proof.
  intros h' evs. subst h'. rewrite run_lines_feed. fold evs.
  destruct (iter_incr_total_lines (length lines) (feed h evs)) as [Hl He].
  destruct (feed_totals evs h) as [Hl' He'].
  rewrite Hl, He, Hl', He'. repeat split.
  apply parsed_events_length.
Qed.
End Parsers.
End RunLoop.

(** ** The pruning loop, and what the engine never does *)

Section Pruning.
Context {F : Type} `{PyFloat F}.
Implicit Types (self h g : ThreatHunter F) (ev : Event) (clk : Clock F).
Local Open Scope pyfloat_scope.

(** X15.  The pruning loop, whatever the floats.  [_prune_window] removes
    from the left of the deque the longest run of entries older than the
    window and nothing else: every entry removed tested older, the first
    entry kept, if any, did not, and the entries behind it are kept without
    being tested.  Pruning again at the same time changes nothing. *)
Theorem prune_window_spec (w : Z) (dq : list F) (now : F) :
  let kept := _prune_window w dq now in
  exists dropped,
    dq = dropped ++ kept
    /\ Forall (fun t => ((now -^ t) >^ of_int w) = true) dropped
    /\ match kept with
       | [] => True
       | t :: _ => ((now -^ t) >^ of_int w) = false
       end
    /\ _prune_window w kept now = kept.
Proof.
  cbv zeta. induction dq as [|t dq (dropped & Hdq & Hold & Hhead & Hidem)].
  - exists []. repeat split. constructor.
  - simpl. destruct ((now -^ t) >^ of_int w) eqn:E.
    + exists (t :: dropped). split; [simpl; rewrite <- Hdq; reflexivity|].
      split; [constructor; assumption|]. split; assumption.
    + exists []. split; [reflexivity|]. split; [constructor|]. split; [exact E|].
      simpl. rewrite E. reflexivity.
Qed.

Lemma record_all_length (w : Z) (ts : list F) : (length (record_all w ts) <= length ts)%nat.
Proof.
  induction ts as [|t ts IH] using rev_ind; [reflexivity|].
  unfold record_all in *. rewrite fold_left_app. cbn [fold_left].
  etransitivity; [apply prune_window_length|].
  rewrite !length_app. cbn [length]. lia.
Qed.

Lemma feed_config (evs : list (Event * Clock F)) : forall h, same_config h (feed h evs).
Proof.
  intros h. apply (feed_invariant (same_config h)); [|apply same_config_refl].
  intros g ev clk Hg. apply (same_config_trans h g); [exact Hg|].
  apply ingest_event_frame.
Qed.

(** X16.  The count in the window and the lifetime count.  After any
    sequence of events on a new engine, the request counter of an entity
    never holds more entries than its lifetime count in [per_ip_count]. *)
Theorem window_count_below_lifetime (window threshold : Z) (ewma_alpha : F)
    (evs : list (Event * Clock F)) (k : string) :
  let h := feed (ThreatHunter_new window threshold ewma_alpha) evs in
  Z.of_nat (length (dd_get (events_by_ip h) k []))
  <= default 0 (dict_get k (per_ip_count (stats h))).
Proof.
  intros h. subst h.
  destruct (feed_counters k evs (ThreatHunter_new window threshold ewma_alpha)) as [He _].
  cbv zeta in He.
  change (dd_get (events_by_ip (feed (ThreatHunter_new window threshold ewma_alpha) evs)) k []
          = record_all window (times_of counted_request k evs)) in He.
  rewrite He, feed_per_ip_count.
  pose proof (record_all_length window (times_of counted_request k evs)) as Hlen.
  destruct (Z.of_nat (length (times_of counted_request k evs)) =? 0) eqn:E.
  - apply Z.eqb_eq in E. cbn. lia.
  - cbn. lia.
Qed.

(** X17.  The brute-force rule on the engine, whatever the floats.  After
    any sequence of events on a new engine, a failed login of an entity
    raises a [bruteforce] alert exactly when the windowed counter of the
    failed logins of the entity, this one included, holds at least
    [threshold] entries, [n] say; the alert is [critical] and its score is
    [round(9.0 + 0.5 * (n - threshold), 2)].  Requests, accepted logins and
    the failed logins of other entities do not count. *)
Theorem bruteforce_rule (w th : Z) (a : F)
    (evs : list (Event * Clock F)) ev clk :
  is_failed_login ev = true ->
  let h := feed (ThreatHunter_new w th a) evs in
  let k := key_of (ev_ip ev) in
  let n := Z.of_nat (length (record_all w
                               (times_of is_failed_login k evs ++ [time_time clk]))) in
  emits h (ingest_event h ev clk)
    (if th <=? n
     then [{| ts := utcnow clk 0; severity := "critical"; kind := "bruteforce";
              ip := Some k;
              detail := pretty n +:+ " failed logins in " +:+ pretty w +:+ "s";
              score := Py.round2 (of_int 9 +^ Py.lit 5 10 *^ of_int (n - th)) |}]
     else []).
Proof.
  intros Hfl h k n. unfold is_failed_login in Hfl.
  apply andb_true_iff in Hfl. destruct Hfl as [Hfl Hip].
  apply andb_true_iff in Hfl. destruct Hfl as [Hty Hev].
  apply String.eqb_eq in Hty. apply opt_eqb_eq in Hev.
  destruct (ingest_failed_login h ev clk Hty Hev Hip) as (_ & _ & Hem). cbv zeta in Hem.
  fold k in Hem.
  destruct (feed_config evs (ThreatHunter_new w th a)) as (Hw & Ht & _).
  fold h in Hw, Ht. cbn [window threshold ThreatHunter_new] in Hw, Ht.
  destruct (feed_counters k evs (ThreatHunter_new w th a)) as [_ Hf].
  cbv zeta in Hf. fold h in Hf.
  change (dd_get (failed_logins_by_ip h) k []
          = record_all w (times_of is_failed_login k evs)) in Hf.
  rewrite Hw, Ht, Hf in Hem.
  assert (Hn : _prune_window w
                 (record_all w (times_of is_failed_login k evs) ++ [time_time clk])
                 (time_time clk)
               = record_all w (times_of is_failed_login k evs ++ [time_time clk])).
  { unfold record_all. rewrite fold_left_app. reflexivity. }
  rewrite Hn in Hem. exact Hem.
Qed.
End Pruning.

Lemma bruteforce_rule_witness :
  let evs := failed_logins "1.2.3.4"
               (map (fun t => Scenario.clock t "2025-09-21T10:12:00") [0; 1]%float) in
  let ev := syslog_event (Some "1.2.3.4"%string) (Some "failed_login"%string) in
  let clk := Scenario.clock 2%float "2025-09-21T10:12:02" in
  let h := feed (ThreatHunter_new 60 3 (Py.lit 3 10)) evs in
  let n := Z.of_nat (length (record_all 60
                               (times_of is_failed_login "1.2.3.4" evs ++ [2%float]))) in
  emits h (ingest_event h ev clk)
    (if 3 <=? n
     then [{| ts := "2025-09-21T10:12:02"; severity := "critical"; kind := "bruteforce";
              ip := Some "1.2.3.4"%string;
              detail := pretty n +:+ " failed logins in " +:+ pretty 60 +:+ "s";
              score := Py.round2 (of_int 9 +^ Py.lit 5 10 *^ of_int (n - 3))%pf |}]
     else []).
Proof.
  intros evs ev clk.
  apply (bruteforce_rule 60 3 (Py.lit 3 10) evs ev clk). reflexivity.
Defined.

Section Entities.
Context {F : Type} `{PyFloat F}.
Implicit Types (self h g : ThreatHunter F) (ev : Event) (clk : Clock F).

Lemma entities_kept_refl h : entities_kept h h.
Proof. repeat split; try reflexivity. intros k Hk. exact Hk. Qed.

Lemma entities_kept_trans h1 h2 h3 :
  entities_kept h1 h2 -> entities_kept h2 h3 -> entities_kept h1 h3.
Proof.
  intros (A1 & A2 & A3 & A4 & A5) (B1 & B2 & B3 & B4 & B5).
  repeat split; try (etransitivity; eassumption). intros k Hk. apply B5, A5, Hk.
Qed.

Lemma dict_incr_is_Some (k k' : string) (d : list (string * Z)) :
  is_Some (dict_get k' d) -> is_Some (dict_get k' (dict_incr k d)).
Proof.
  intros Hk. rewrite dict_get_incr. destruct (String.eqb k' k); [eexists; reflexivity | exact Hk].
Qed.

Lemma ingest_event_entities h ev clk : entities_kept h (ingest_event h ev clk).
Proof.
  assert (Hstep : forall g g', entities_kept g g' -> entities_kept h g -> entities_kept h g').
  { intros g g' Hgg Hhg. apply (entities_kept_trans h g g'); assumption. }
  apply (ingest_event_invariant (entities_kept h)); [| | | | | | |apply entities_kept_refl].
  - intros g. apply Hstep.
    split; [reflexivity|]. split; [reflexivity|]. split; [reflexivity|].
    split; [reflexivity|]. intros k Hk; exact Hk.
  - intros g ip status now. apply Hstep. unfold _record_request.
    destruct (negb (truthy ip)); [apply entities_kept_refl|].
    split; [apply dom_insert_subseteq|]. split; [apply dom_insert_subseteq|].
    split; [reflexivity|]. split; [reflexivity|].
    intros k. apply dict_incr_is_Some.
  - intros g utc ip det. apply Hstep.
    split; [reflexivity|]. split; [reflexivity|]. split; [reflexivity|].
    split; [reflexivity|]. intros k Hk; exact Hk.
  - intros g utc ip status now _. apply Hstep. unfold _check_status_storm.
    destruct (negb (truthy ip)); [apply entities_kept_refl|]. cbv zeta.
    case_if; (split; [reflexivity|]; split; [apply dom_insert_subseteq|];
              split; [reflexivity|]; split; [reflexivity|]; intros k Hk; exact Hk).
  - intros g utc ip now. apply Hstep. unfold _check_rate_anomaly.
    destruct (negb (truthy ip)); [apply entities_kept_refl|]. cbv zeta.
    case_if; (split; [apply dom_insert_subseteq|]; split; [reflexivity|];
              split; [reflexivity|]; split; [apply dom_insert_subseteq|];
              intros k Hk; exact Hk).
  - intros g ip now. apply Hstep. unfold _record_failed_login.
    split; [reflexivity|]. split; [reflexivity|]. split; [apply dom_insert_subseteq|].
    split; [reflexivity|]. intros k Hk; exact Hk.
  - intros g utc ip now. apply Hstep. unfold _check_bruteforce. cbv zeta.
    case_if; (split; [reflexivity|]; split; [reflexivity|];
              split; [apply dom_insert_subseteq|]; split; [reflexivity|];
              intros k Hk; exact Hk).
Qed.

(** X18.  The engine never forgets an entity.  Whatever the events, an
    entity that has a request counter, per-status counters, a failed-login
    counter, a rate model or a lifetime count keeps it: pruning empties
    deques but removes no key, so the dictionaries only grow with the number
    of entities seen. *)
Theorem entities_never_dropped h (evs : list (Event * Clock F)) :
  entities_kept h (feed h evs).
Proof.
  apply (feed_invariant (entities_kept h)); [|apply entities_kept_refl].
  intros g ev clk Hg. apply (entities_kept_trans h g); [exact Hg|].
  apply ingest_event_entities.
Qed.
End Entities.

Section Format.
Variables parse_nginx parse_syslog : string -> option Event.
Variables nginx_search syslog_search : string -> bool.

(** X19.  The format is settled once, before the loop.  For each of the
    three values [--format] accepts, [run] settles on [nginx] or on
    [syslog], never on [auto]: with [auto], it is the format the first line
    of the file matches, and [nginx] when that line matches neither or the
    file is empty.  So [parse_line] tries one parser on every line, the same
    one for the whole run; its third branch, which tries both, is never
    reached from [run]. *)
Theorem run_format_spec (args_format first line : string) :
  args_format = "auto"%string \/ args_format = "nginx"%string
  \/ args_format = "syslog"%string ->
  let fmt := run_format nginx_search syslog_search args_format first in
  (fmt = "nginx"%string \/ fmt = "syslog"%string)
  /\ parse_line parse_nginx parse_syslog line fmt
     = (if String.eqb fmt "nginx" then parse_nginx line else parse_syslog line)
  /\ (args_format <> "auto"%string -> fmt = args_format)
  /\ (args_format = "auto"%string ->
      fmt = if nginx_search first then "nginx"%string
            else if syslog_search first then "syslog"%string
            else "nginx"%string).
Proof.
  intros Hargs fmt.
  assert (Hfmt : fmt = if String.eqb args_format "auto"
                       then (if nginx_search first then "nginx"%string
                             else if syslog_search first then "syslog"%string
                             else "nginx"%string)
                       else args_format).
  { subst fmt. unfold run_format, autodetect_format.
    destruct Hargs as [-> | [-> | ->]]; cbn.
    - destruct (nginx_search first); [reflexivity|].
      destruct (syslog_search first); reflexivity.
    - reflexivity.
    - reflexivity. }
  assert (Hcase : fmt = "nginx"%string \/ fmt = "syslog"%string).
  { rewrite Hfmt. destruct Hargs as [-> | [-> | ->]]; cbn; auto.
    destruct (nginx_search first); [auto|]. destruct (syslog_search first); auto. }
  split; [exact Hcase|]. split; [|split].
  - unfold parse_line. destruct Hcase as [-> | ->]; reflexivity.
  - intros Hne. rewrite Hfmt. destruct Hargs as [-> | [-> | ->]];
      [contradiction | reflexivity | reflexivity].
  - intros ->. rewrite Hfmt. reflexivity.
Qed.
End Format.

Lemma run_format_spec_witness :
  let parse_nginx := fun _ : string => @None Event in
  let parse_syslog := fun _ : string => Some (syslog_event None None) in
  let fmt := run_format (fun _ => false) (fun _ => true) "auto" "Sep 21 10:12:00 host sshd: x" in
  (fmt = "nginx"%string \/ fmt = "syslog"%string)
  /\ parse_line parse_nginx parse_syslog "Sep 21 10:12:01 host sshd: y" fmt
     = (if String.eqb fmt "nginx"
        then parse_nginx "Sep 21 10:12:01 host sshd: y"%string
        else parse_syslog "Sep 21 10:12:01 host sshd: y"%string)
  /\ ("auto"%string <> "auto"%string -> fmt = "auto"%string)
  /\ ("auto"%string = "auto"%string -> fmt = "syslog"%string).
Proof.
  intros parse_nginx parse_syslog.
  apply (run_format_spec parse_nginx parse_syslog (fun _ => false) (fun _ => true)
           "auto" "Sep 21 10:12:00 host sshd: x" "Sep 21 10:12:01 host sshd: y").
  left. reflexivity.
Defined.
